(** * Claude Relay Meter: the poller, the settings reconciler, the
      configuration gate and the percentage formatter

    A shallow embedding of
      - [src/services/api.ts]   (validateApiConfig, fetchRelayStats,
                                 getApiIdFromKey, fetchRelayStatsWithRetry,
                                 testApiConnection),
      - [src/extension.ts]      (updateStats; activation and deactivation,
                                 the commands, the listeners, the refresh
                                 timer),
      - [src/utils/claudeSettingsWatcher.ts] (the debounced reconciler; the
                                 file watch and its debounce),
      - [src/utils/formatter.ts] (formatPercentage, formatStatusBarText,
                                 formatLargeNumber, formatRemainingTime),
      - [src/handlers/statusBar.ts] (calculateCostStats),
      - [scripts/release.js]    (updateVersion),
    followed by the properties the specification states about them, and
    by further properties of the same code.

    Conventions.
      - A JavaScript string is the list of its UTF-16 code units.
      - Asynchronous functions run on one cooperative thread, so an [await]
        is plain sequencing: they are written in a monad that threads the
        host state, may throw, and records what the host observes.
      - What the platform answers (HTTP responses, the user's click, the
        outcome of a settings write, the contents of the credentials file)
        is an input of the model, never chosen by it. *)

From Stdlib Require Import ZArith NArith QArith Qround Qabs Lia List Bool String Ascii.
From Stdlib Require Import DecimalString DecimalPos.
Import ListNotations.

Set Implicit Arguments.
Local Open Scope Z_scope.

(* ===================================================================== *)
(** ** JavaScript strings *)
(* ===================================================================== *)

Module JsString.

(** UTF-16 code units. *)
Definition jsstring := list N.

(** Source text is UTF-8; a literal denotes the UTF-16 string of its
    code points. *)
Fixpoint utf8_points (bs : list N) : list N :=
  match bs with
  | [] => []
  | b0 :: r0 =>
      if (b0 <? 128)%N then b0 :: utf8_points r0
      else if (b0 <? 224)%N then
        match r0 with
        | b1 :: r1 => ((b0 - 192) * 64 + (b1 - 128))%N :: utf8_points r1
        | [] => []
        end
      else if (b0 <? 240)%N then
        match r0 with
        | b1 :: b2 :: r2 =>
            ((b0 - 224) * 4096 + (b1 - 128) * 64 + (b2 - 128))%N
              :: utf8_points r2
        | _ => []
        end
      else
        match r0 with
        | b1 :: b2 :: b3 :: r3 =>
            ((b0 - 240) * 262144 + (b1 - 128) * 4096
             + (b2 - 128) * 64 + (b3 - 128))%N :: utf8_points r3
        | _ => []
        end
  end.

Definition utf16_units (cp : N) : list N :=
  if (cp <? 65536)%N then [cp]
  else [(55296 + (cp - 65536) / 1024)%N; (56320 + (cp - 65536) mod 1024)%N].

Definition js (s : string) : jsstring :=
  flat_map utf16_units
    (utf8_points (map N_of_ascii (list_ascii_of_string s))).

Definition eqb (a b : jsstring) : bool :=
  if list_eq_dec N.eq_dec a b then true else false.

(** [!s] for a string: only the empty string is falsy. *)
Definition falsy (s : jsstring) : bool :=
  match s with [] => true | _ => false end.

(** WhiteSpace and LineTerminator code units of ECMAScript, the set
    [String.prototype.trim] strips. *)
Definition is_white (c : N) : bool :=
  ((9 <=? c) && (c <=? 13) || (c =? 32) || (c =? 160) || (c =? 5760)
   || (8192 <=? c) && (c <=? 8202) || (c =? 8232) || (c =? 8233)
   || (c =? 8239) || (c =? 8287) || (c =? 12288) || (c =? 65279))%N.

Fixpoint trimStart (s : jsstring) : jsstring :=
  match s with
  | c :: r => if is_white c then trimStart r else s
  | [] => []
  end.

Definition trimEnd (s : jsstring) : jsstring := rev (trimStart (rev s)).

Definition trim (s : jsstring) : jsstring := trimEnd (trimStart s).

Fixpoint startsWith (s p : jsstring) : bool :=
  match p, s with
  | [], _ => true
  | x :: p', y :: s' => (x =? y)%N && startsWith s' p'
  | _ :: _, [] => false
  end.

(** [s.includes(t)]: [t] occurs in [s] as a contiguous run. *)
Definition includes (s t : jsstring) : Prop :=
  exists pre post, s = pre ++ t ++ post.

(** Template-literal rendering of an integer-valued number. *)
Definition of_Z (z : Z) : jsstring := js (NilZero.string_of_int (Z.to_int z)).

(** Template-literal rendering of a possibly [undefined] string. *)
Definition of_opt (o : option jsstring) : jsstring :=
  match o with Some s => s | None => js "undefined" end.

End JsString.
Import JsString.

(* ===================================================================== *)
(** ** The platform's URL constructor *)
(* ===================================================================== *)

(** [new URL(s)] belongs to the platform. The configuration gate reads one
    thing from it: whether construction throws and, when it does not, the
    [protocol] of the result. The gate below is therefore written over an
    arbitrary [URL_protocol : jsstring -> option jsstring] ([None] when the
    constructor throws).

    [Whatwg.protocol_of] is the scheme scanner of the URL standard (no base
    URL): leading and trailing C0-control-or-space are stripped, tabs and
    newlines removed, then an ASCII letter followed by letters, digits,
    [+], [-], [.] up to the first [:] is the scheme, lower-cased; anything
    else is a failure. The standard goes on to parse host, port and path,
    and can still fail there; the scanner is used only to run the gate on
    inputs where the full parser agrees with it. *)
Module Whatwg.

Definition is_c0_or_space (c : N) : bool := (c <=? 32)%N.

Definition is_tab_or_newline (c : N) : bool :=
  ((c =? 9) || (c =? 10) || (c =? 13))%N.

Definition is_upper (c : N) : bool := ((65 <=? c) && (c <=? 90))%N.
Definition is_lower (c : N) : bool := ((97 <=? c) && (c <=? 122))%N.
Definition is_digit (c : N) : bool := ((48 <=? c) && (c <=? 57))%N.
Definition is_alpha (c : N) : bool := is_upper c || is_lower c.

Definition lower (c : N) : N := if is_upper c then (c + 32)%N else c.

Fixpoint strip_left (s : jsstring) : jsstring :=
  match s with
  | c :: r => if is_c0_or_space c then strip_left r else s
  | [] => []
  end.

Definition strip (s : jsstring) : jsstring :=
  rev (strip_left (rev (strip_left s))).

(** Scheme state: the scheme read so far is [acc], reversed. *)
Fixpoint scheme_state (acc : jsstring) (s : jsstring) : option jsstring :=
  match s with
  | [] => None
  | c :: r =>
      if (c =? 58)%N then Some (rev acc)
      else if is_alpha c || is_digit c || (c =? 43)%N || (c =? 45)%N
              || (c =? 46)%N
           then scheme_state (lower c :: acc) r
           else None
  end.

(** Scheme start state. *)
Definition scheme_of (s : jsstring) : option jsstring :=
  match filter (fun c => negb (is_tab_or_newline c)) (strip s) with
  | c :: r => if is_alpha c then scheme_state [lower c] r else None
  | [] => None
  end.

(** [new URL(s).protocol]: the scheme followed by [":"]. *)
Definition protocol_of (s : jsstring) : option jsstring :=
  match scheme_of s with
  | Some sch => Some (sch ++ [58%N])
  | None => None
  end.

End Whatwg.

(* ===================================================================== *)
(** ** src/services/api.ts: the configuration gate *)
(* ===================================================================== *)

Module Gate.

(** ['apiUrl' | 'apiId' | 'both'] *)
Inductive MissingConfig : Type := apiUrl_ | apiId_ | both_.

(** [{ valid: boolean; message?: string; missingConfig?: ... }] *)
Record Validation : Type := mkValidation {
  valid : bool;
  message : option jsstring;
  missingConfig : option MissingConfig
}.

(** [!s || s.trim() === ''] *)
Definition missing (s : jsstring) : bool := falsy s || eqb (trim s) [].

(** The same test on the optional [apiKey?: string]. *)
Definition missing_opt (o : option jsstring) : bool :=
  match o with
  | None => true
  | Some s => missing s
  end.

Definition is_hex (c : N) : bool :=
  ((48 <=? c) && (c <=? 57) || (97 <=? c) && (c <=? 102)
   || (65 <=? c) && (c <=? 70))%N.

(** [[0-9a-f]{n}] under the [i] flag: exactly [n] hex digits, then the rest. *)
Fixpoint hex_run (n : nat) (s : jsstring) : option jsstring :=
  match n with
  | O => Some s
  | S n' =>
      match s with
      | c :: r => if is_hex c then hex_run n' r else None
      | [] => None
      end
  end.

(** A hex run of [n] digits followed by ["-"]. *)
Definition hex_dash (n : nat) (s : jsstring) : option jsstring :=
  match hex_run n s with
  | Some (45%N :: r) => Some r
  | _ => None
  end.

(** [/^[0-9a-f]{8}-[0-9a-f]{4}-[0-9a-f]{4}-[0-9a-f]{4}-[0-9a-f]{12}$/i.test(s)] *)
Definition uuidRegex_test (s : jsstring) : bool :=
  match hex_dash 8 s with
  | Some r1 =>
      match hex_dash 4 r1 with
      | Some r2 =>
          match hex_dash 4 r2 with
          | Some r3 =>
              match hex_dash 4 r3 with
              | Some r4 =>
                  match hex_run 12 r4 with
                  | Some [] => true
                  | _ => false
                  end
              | None => false
              end
          | None => false
          end
      | None => false
      end
  | None => false
  end.

Definition invalid (msg : string) (mc : MissingConfig) : Validation :=
  mkValidation false (Some (js msg)) (Some mc).

Section WithUrl.

Variable URL_protocol : jsstring -> option jsstring.

Definition validateApiConfig
  (apiUrl apiId : jsstring) (apiKey : option jsstring) : Validation :=
  let urlMissing := missing apiUrl in
  let idMissing := missing apiId in
  let keyMissing := missing_opt apiKey in
  if urlMissing then
    if idMissing && keyMissing then
      invalid "API URL 和 API ID/Key 都未配置，请在设置中配置" both_
    else
      invalid "API URL 不能为空，请在设置中配置" apiUrl_
  else
    match URL_protocol apiUrl with
    | None => invalid "API URL 格式无效" apiUrl_
    | Some protocol =>
        if negb (startsWith protocol (js "http")) then
          invalid "API URL 必须是有效的 HTTP 或 HTTPS 地址" apiUrl_
        else if idMissing && keyMissing then
          invalid "API ID 或 API Key 至少需要配置一个，请在设置中配置" apiId_
        else if negb idMissing && negb (uuidRegex_test apiId) then
          invalid
            "API ID 格式无效，应为 UUID 格式（例如：34arr92a-cb42-58op-56op-ggy15rt9878c）"
            apiId_
        else mkValidation true None None
    end.

End WithUrl.

End Gate.

(* ===================================================================== *)
(** ** The host: thrown values, settled promises, observable effects *)
(* ===================================================================== *)

Module Host.

Import Gate.

(** A thrown value: an [Error], an [AxiosError] (an [Error] that may carry
    the response status and the request), or anything else. *)
Inductive Thrown : Type :=
| JsError (message : jsstring)
| AxiosErr (message : jsstring) (response : option Z) (request : bool)
| NonError.

(** [(e as Error).message]; [undefined] on a value that has none. *)
Definition message_of (e : Thrown) : option jsstring :=
  match e with
  | JsError m => Some m
  | AxiosErr m _ _ => Some m
  | NonError => None
  end.

(** [e instanceof Error] *)
Definition instanceof_Error (e : Thrown) : bool :=
  match e with
  | NonError => false
  | _ => true
  end.

(** How the promise of one [axios.post] settles. *)
Inductive Settled (D : Type) : Type :=
| Fulfilled (status : Z) (data : option D)
| Rejected (e : Thrown).
Arguments Rejected {D} e.

(** [ApiKeyResponse]: [{ success, data?: { id } }] *)
Record ApiKeyResponse : Type := mkApiKeyResponse {
  key_success : bool;
  key_data : option jsstring
}.

(** [ConfigManager.Config] *)
Record Config : Type := mkConfig {
  cfg_apiKey : jsstring;
  cfg_apiUrl : jsstring
}.

(** What [readClaudeSettings()] returns: either field may be absent. *)
Record ClaudeSettings : Type := mkClaudeSettings {
  cs_apiKey : option jsstring;
  cs_apiUrl : option jsstring
}.

(** The [relayMeter.*] settings the modelled code reads and writes. *)
Record Settings : Type := mkSettings {
  apiUrl : jsstring;
  apiId : jsstring;
  apiKey : jsstring;
  watchClaudeSettings : bool
}.

(** Process-wide state: the settings store, the two module-level handles of
    the watcher, and how many answers the host has given so far. *)
Record State : Type := mkState {
  settings : Settings;
  fileWatcher : bool;
  debounceTimer : bool;
  posts : nat;
  prompts : nat;
  writes : nat
}.

Inductive Body : Type :=
| body_apiId (v : jsstring)
| body_apiKey (v : jsstring).

(** A write to the settings store. *)
Inductive Write : Type :=
| write_credentials (apiKey apiUrl : jsstring)
| write_watchEnabled (v : bool).

Inductive Res (A : Type) : Type :=
| Ret (a : A)
| Throw (e : Thrown).
Arguments Throw {A} e.

Section WithPayload.

(** [RelayUserData]: opaque to everything modelled here. *)
Variable RelayUserData : Type.

(** [RelayApiResponse] *)
Record RelayApiResponse : Type := mkRelayApiResponse {
  success : bool;
  data : RelayUserData
}.

(** What the host observes, in order. *)
Inductive Event : Type :=
| Log (msg : jsstring) (isError : bool)
| LogError (msg : jsstring) (err : option Thrown)
| AxiosPost (url : jsstring) (body : Body)
| Wait (ms : Z)
| ShowConfigPrompt (mc : option MissingConfig)
| ShowLoadingStatus
| UpdateStatusBar (d : RelayApiResponse) (url id : jsstring)
| ShowErrorStatus (msg : jsstring)
| ShowErrorMessage (msg : jsstring) (items : list jsstring)
| ShowInformationMessage (msg : jsstring) (items : list jsstring)
| ExecuteCommand (cmd arg : jsstring)
| SettingsWrite (w : Write)
| WatcherClose
| ClearTimeout.

(** The answers of the platform, fixed in advance: how the k-th
    [axios.post] settles (by endpoint), what the k-th awaited prompt
    resolves to, whether the k-th settings write rejects, and what reading
    the credentials file gives. *)
Record Env : Type := mkEnv {
  stats_reply : nat -> Settled RelayApiResponse;
  key_reply : nat -> Settled ApiKeyResponse;
  click : nat -> option jsstring;
  write_error : nat -> option Thrown;
  claude_settings : Res ClaudeSettings
}.

(** An asynchronous computation: from a state to a result, the state it
    leaves, and the events it caused. *)
Definition M (A : Type) : Type := State -> Res A * State * list Event.

Definition ret {A} (a : A) : M A := fun s => (Ret a, s, []).

Definition throw {A} (e : Thrown) : M A := fun s => (Throw e, s, []).

Definition bind {A B} (m : M A) (k : A -> M B) : M B :=
  fun s =>
    match m s with
    | (Ret a, s1, e1) =>
        match k a s1 with
        | (r, s2, e2) => (r, s2, e1 ++ e2)
        end
    | (Throw e, s1, e1) => (Throw e, s1, e1)
    end.

(** [try { m } catch (e) { h e }] *)
Definition try_catch {A} (m : M A) (h : Thrown -> M A) : M A :=
  fun s =>
    match m s with
    | (Ret a, s1, e1) => (Ret a, s1, e1)
    | (Throw e, s1, e1) =>
        match h e s1 with
        | (r, s2, e2) => (r, s2, e1 ++ e2)
        end
    end.

Definition emit (e : Event) : M unit := fun s => (Ret tt, s, [e]).

Definition get : M State := fun s => (Ret s, s, []).

Definition put (s : State) : M unit := fun _ => (Ret tt, s, []).

End WithPayload.

Arguments ret {RelayUserData A} a.
Arguments throw {RelayUserData A} e.
Arguments bind {RelayUserData A B} m k.
Arguments try_catch {RelayUserData A} m h.
Arguments get {RelayUserData}.
Arguments put {RelayUserData} s.
Arguments Wait {RelayUserData} ms.
Arguments Log {RelayUserData} msg isError.
Arguments LogError {RelayUserData} msg err.
Arguments AxiosPost {RelayUserData} url body.
Arguments ShowConfigPrompt {RelayUserData} mc.
Arguments ShowLoadingStatus {RelayUserData}.
Arguments ShowErrorStatus {RelayUserData} msg.
Arguments ShowErrorMessage {RelayUserData} msg items.
Arguments ShowInformationMessage {RelayUserData} msg items.
Arguments ExecuteCommand {RelayUserData} cmd arg.
Arguments SettingsWrite {RelayUserData} w.
Arguments WatcherClose {RelayUserData}.
Arguments ClearTimeout {RelayUserData}.

Declare Scope js_scope.
Delimit Scope js_scope with js.

Notation "x <- c ;; k" := (bind c (fun x => k))
  (at level 61, c at next level, right associativity) : js_scope.
Notation "c ;; k" := (bind c (fun _ => k))
  (at level 61, right associativity) : js_scope.

End Host.

(* ===================================================================== *)
(** ** src/services/api.ts and src/extension.ts: the poller *)
(* ===================================================================== *)

Module Poller.

Import Gate Host.
Local Open Scope js_scope.
Local Open Scope list_scope.

Section WithEnv.

Variable RelayUserData : Type.
Variable URL_protocol : jsstring -> option jsstring.
Variable env : Env RelayUserData.

Local Abbreviation M := (Host.M RelayUserData).
Local Abbreviation Response := (RelayApiResponse RelayUserData).

Definition count_post (s : State) : State :=
  mkState (settings s) (fileWatcher s) (debounceTimer s)
          (S (posts s)) (prompts s) (writes s).

(** [log(msg)] and [logError(msg, error)] of the logging collaborator. *)
Definition log (msg : jsstring) : M unit := emit (Log msg false).

Definition logError (msg : jsstring) (e : Thrown) : M unit :=
  emit (LogError msg (Some e)).

(** [await axios.post<RelayApiResponse>(url, body, ...)] *)
Definition axios_post_stats (url : jsstring) (body : Body)
  : M (Z * option Response) :=
  fun s =>
    match stats_reply env (posts s) with
    | Fulfilled status d => (Ret (status, d), count_post s, [AxiosPost url body])
    | Rejected e => (Throw e, count_post s, [AxiosPost url body])
    end.

(** [await axios.post<ApiKeyResponse>(url, body, ...)] *)
Definition axios_post_key (url : jsstring) (body : Body)
  : M (Z * option ApiKeyResponse) :=
  fun s =>
    match key_reply env (posts s) with
    | Fulfilled status d => (Ret (status, d), count_post s, [AxiosPost url body])
    | Rejected e => (Throw e, count_post s, [AxiosPost url body])
    end.

(** The [catch] block of [fetchRelayStats]. *)
Definition fetchRelayStats_catch (error : Thrown) : M Response :=
  match error with
  | AxiosErr m (Some status) _ =>
      logError (js "[API] 服务器错误，状态码：" ++ of_Z status) error ;;
      throw (JsError (js "API 请求失败：服务器返回 " ++ of_Z status ++ js " 错误"))
  | AxiosErr m None true =>
      logError (js "[API] 网络错误，无法连接到服务器") error ;;
      throw (JsError (js "无法连接到服务器，请检查网络连接和 API 地址"))
  | AxiosErr m None false =>
      logError (js "[API] 请求配置错误") error ;;
      throw (JsError (js "请求配置错误：" ++ m))
  | _ =>
      logError (js "[API] 未知错误") error ;;
      throw error
  end.

Definition fetchRelayStats (apiUrl apiId : jsstring) : M Response :=
  try_catch
    (log (js "[API] 开始请求用量数据，URL: " ++ apiUrl
          ++ js "/apiStats/api/user-stats") ;;
     let fullUrl := apiUrl ++ js "/apiStats/api/user-stats" in
     response <- axios_post_stats fullUrl (body_apiId apiId) ;;
     let '(status, d) := response in
     if negb (status =? 200)%Z then
       throw (JsError (js "API 请求失败，状态码：" ++ of_Z status))
     else
       match d with
       | Some r =>
           if negb (success r) then
             throw (JsError (js "API 返回数据无效或请求失败"))
           else
             log (js "[API] 用量数据获取成功") ;;
             log (js "[API] 用量数据获取成功[object Object]") ;;
             ret r
       | None => throw (JsError (js "API 返回数据无效或请求失败"))
       end)
    fetchRelayStats_catch.

(** The [catch] block of [getApiIdFromKey]. *)
Definition getApiIdFromKey_catch (error : Thrown) : M jsstring :=
  match error with
  | AxiosErr m (Some status) _ =>
      logError (js "[API] API Key 转换服务器错误，状态码：" ++ of_Z status) error ;;
      throw (JsError (js "API Key 转换失败：服务器返回 " ++ of_Z status
                      ++ js " 错误"))
  | AxiosErr m None true =>
      logError (js "[API] API Key 转换网络错误") error ;;
      throw (JsError (js "无法连接到服务器，请检查网络连接和 API 地址"))
  | AxiosErr m None false =>
      logError (js "[API] API Key 转换请求配置错误") error ;;
      throw (JsError (js "请求配置错误：" ++ m))
  | _ =>
      logError (js "[API] API Key 转换未知错误") error ;;
      throw error
  end.

Definition getApiIdFromKey (apiUrl apiKey : jsstring) : M jsstring :=
  try_catch
    (log (js "[API] 开始通过 API Key 获取 API ID，URL: " ++ apiUrl
          ++ js "/apiStats/api/get-key-id") ;;
     let fullUrl := apiUrl ++ js "/apiStats/api/get-key-id" in
     response <- axios_post_key fullUrl (body_apiKey apiKey) ;;
     let '(status, d) := response in
     if negb (status =? 200)%Z then
       throw (JsError (js "API Key 转换请求失败，状态码：" ++ of_Z status))
     else
       match d with
       | Some (mkApiKeyResponse true (Some (c :: r))) =>
           log (js "[API] API ID 获取成功：" ++ (c :: r)) ;;
           ret (c :: r)
       | _ => throw (JsError (js "API Key 转换失败或返回数据无效"))
       end)
    getApiIdFromKey_catch.

(** [await new Promise((resolve) => setTimeout(resolve, ms))] *)
Definition sleep (ms : Z) : M unit := emit (Wait ms).

(** The statement after the loop of [fetchRelayStatsWithRetry]. *)
Definition retries_exhausted (maxRetries : Z) (lastError : option Thrown)
  : Thrown :=
  JsError (js "API 请求失败，已重试 " ++ of_Z maxRetries ++ js " 次。最后错误："
           ++ of_opt (match lastError with
                      | Some e => message_of e
                      | None => None
                      end)).

(** The [for] loop of [fetchRelayStatsWithRetry], from the test of its
    condition on; [fuel] bounds the iterations still to run. *)
Fixpoint retry_loop (fuel : nat) (apiUrl apiId : jsstring) (maxRetries : Z)
  (attempt retryDelay : Z) (lastError : option Thrown) : M Response :=
  match fuel with
  | O => throw (retries_exhausted maxRetries lastError)
  | S fuel' =>
      if (attempt <=? maxRetries)%Z then
        try_catch
          (log (js "[API] 尝试请求数据（第 " ++ of_Z attempt ++ js "/"
                ++ of_Z maxRetries ++ js " 次）") ;;
           fetchRelayStats apiUrl apiId)
          (fun error =>
             logError (js "[API] 第 " ++ of_Z attempt ++ js " 次请求失败") error ;;
             if (attempt <? maxRetries)%Z then
               log (js "[API] 等待 " ++ of_Z retryDelay ++ js "ms 后重试...") ;;
               sleep retryDelay ;;
               retry_loop fuel' apiUrl apiId maxRetries (attempt + 1)
                          (retryDelay * 2) (Some error)
             else
               retry_loop fuel' apiUrl apiId maxRetries (attempt + 1)
                          retryDelay (Some error))
      else throw (retries_exhausted maxRetries lastError)
  end.

(** The loop runs [attempt = 1 .. maxRetries], so [maxRetries] iterations
    are all it can take. *)
Definition fetchRelayStatsWithRetry
  (apiUrl apiId : jsstring) (maxRetries retryDelay : Z) : M Response :=
  retry_loop (Z.to_nat maxRetries) apiUrl apiId maxRetries 1 retryDelay None.

(** [getConfiguration()], restricted to the fields read below. *)
Definition getConfiguration : M Settings :=
  s <- get ;; ret (settings s).

(** Status-bar collaborators of [handlers/statusBar.ts], each recorded as
    the call it is. [updateStatusBar] is taken to return: an error thrown
    while it renders, which the source throws again into the [catch] of
    [updateStats], is left out. *)
Definition showConfigPrompt (mc : option MissingConfig) : M unit :=
  emit (ShowConfigPrompt mc).
Definition showLoadingStatus : M unit := emit ShowLoadingStatus.
Definition updateStatusBar (d : Response) (url id : jsstring) : M unit :=
  emit (UpdateStatusBar d url id).
Definition showErrorStatus (msg : jsstring) : M unit :=
  emit (ShowErrorStatus msg).

(** [validation.message || ''] *)
Definition message_or_empty (v : Validation) : jsstring :=
  match message v with
  | Some m => m
  | None => []
  end.

(** The key-to-id exchange of [updateStats], with its own [try]/[catch]. *)
Definition resolveApiId (config : Settings) : M jsstring :=
  let actualApiId := apiId config in
  if (falsy actualApiId || eqb (trim actualApiId) [])
     && negb (falsy (apiKey config))
     && negb (eqb (trim (apiKey config)) [])
  then
    try_catch
      (log (js "[API] 检测到 API Key，尝试获取 API ID...") ;;
       id <- getApiIdFromKey (apiUrl config) (apiKey config) ;;
       log (js "[更新] 通过 API Key 获取到 API ID：" ++ id) ;;
       ret id)
      (fun error =>
         logError (js "[更新] 通过 API Key 获取 API ID 失败") error ;;
         throw (JsError (js "无法通过 API Key 获取 API ID："
                         ++ of_opt (message_of error))))
  else ret actualApiId.

(** The [try] block of [updateStats]. *)
Definition updateStats_try : M unit :=
  log (js "[日志] 开始刷新统计数据...") ;;
  config <- getConfiguration ;;
  let validation :=
    validateApiConfig URL_protocol (apiUrl config) (apiId config)
                      (Some (apiKey config)) in
  if negb (valid validation) then
    emit (Log (js "[日志] 配置无效 - " ++ message_or_empty validation) true) ;;
    showConfigPrompt (missingConfig validation)
  else
    actualApiId <- resolveApiId config ;;
    showLoadingStatus ;;
    d <- fetchRelayStatsWithRetry (apiUrl config) actualApiId 3 1000 ;;
    updateStatusBar d (apiUrl config) actualApiId ;;
    log (js "[日志] 统计数据更新成功").

(** The [catch] block of [updateStats]. The [.then] continuation of the
    error prompt runs after the cycle has returned and starts a cycle of
    its own; it is not part of this one. *)
Definition updateStats_catch (error : Thrown) : M unit :=
  logError (js "[更新] 更新统计数据失败") error ;;
  showErrorStatus (js "获取数据失败") ;;
  emit (ShowErrorMessage
          (js "Claude Relay Meter: 获取数据失败 - "
           ++ of_opt (message_of error))
          [js "重试"; js "打开设置"]).

(** One refresh cycle. *)
Definition updateStats : M unit :=
  try_catch updateStats_try updateStats_catch.

End WithEnv.

End Poller.

(* ===================================================================== *)
(** ** src/utils/claudeSettingsWatcher.ts: the settings reconciler *)
(* ===================================================================== *)

Module Watcher.

Import Gate Host.
Local Open Scope js_scope.
Local Open Scope list_scope.

Section WithEnv.

Variable RelayUserData : Type.
Variable env : Env RelayUserData.

(** Pure helpers of [utils/configManager.ts], taken as they come:
    [getVSCodeConfig] reads the active credentials from the settings store,
    [compareConfigs] says whether two configurations are the same,
    [maskApiKey] hides a key for display. *)
Variable getVSCodeConfig : Settings -> option Config.
Variable compareConfigs : Config -> option Config -> bool.
Variable maskApiKey : jsstring -> jsstring.

(** The module-level [refreshCallback], as [startWatching] left it. *)
Variable refreshCallback : option (Host.M RelayUserData unit).

Local Abbreviation M := (Host.M RelayUserData).

Definition log (msg : jsstring) (isError : bool) : M unit :=
  emit (Log msg isError).

(** [readClaudeSettings()] of [utils/claudeSettingsReader.ts]: whatever the
    host gives for the credentials file, a value or a thrown error. *)
Definition readClaudeSettings : M ClaudeSettings :=
  fun s => (claude_settings env, s, []).

Definition count_write (s : State) : State :=
  mkState (settings s) (fileWatcher s) (debounceTimer s)
          (posts s) (prompts s) (S (writes s)).

Definition count_prompt (s : State) : State :=
  mkState (settings s) (fileWatcher s) (debounceTimer s)
          (posts s) (S (prompts s)) (writes s).

Definition set_settings (st : Settings) (s : State) : State :=
  mkState st (fileWatcher s) (debounceTimer s)
          (posts s) (prompts s) (writes s).

(** One awaited write to the settings store: it is attempted, and either
    rejects, leaving the store as it was, or takes effect. *)
Definition settings_write (w : Write) (f : Settings -> Settings) : M unit :=
  fun s =>
    match write_error env (writes s) with
    | Some e => (Throw e, count_write s, [SettingsWrite w])
    | None =>
        (Ret tt, count_write (set_settings (f (settings s)) s),
         [SettingsWrite w])
    end.

(** Modelled from the spec: [ConfigManager.setWatchEnabled], whose source is
    not part of the files at hand. The spec calls its target the persisted
    "watch enabled" flag of the configuration surface ([watchEnabled]); the
    call stores the given value there. *)
Definition setWatchEnabled (v : bool) : M unit :=
  settings_write (write_watchEnabled v)
    (fun st => mkSettings (apiUrl st) (apiId st) (apiKey st) v).

(** Modelled from the spec: [ConfigManager.updateVSCodeConfig], whose source
    is not part of the files at hand. Per the spec's Applying state it
    "writes new credentials into active settings". *)
Definition updateVSCodeConfig (k u : jsstring) : M unit :=
  settings_write (write_credentials k u)
    (fun st => mkSettings u (apiId st) k (watchClaudeSettings st)).

(** [ConfigManager.isWatchEnabled()] reads the same flag. *)
Definition isWatchEnabled (s : State) : bool :=
  watchClaudeSettings (settings s).

Definition stopWatching : M unit :=
  s <- get ;;
  (if fileWatcher s then
     emit WatcherClose ;;
     put (mkState (settings s) false (debounceTimer s)
                  (posts s) (prompts s) (writes s)) ;;
     log (js "[Settings Watcher] 文件监听已停止") false
   else ret tt) ;;
  s <- get ;;
  if debounceTimer s then
    emit ClearTimeout ;;
    put (mkState (settings s) (fileWatcher s) false
                 (posts s) (prompts s) (writes s))
  else ret tt.

Definition isWatching (s : State) : bool := fileWatcher s.

Definition useNewConfigButton : jsstring := js "使用新配置".
Definition keepCurrentConfigButton : jsstring := js "保持当前配置".
Definition openSettingsButton : jsstring := js "设置".

Definition applyNewConfig (newConfig : Config) : M unit :=
  try_catch
    (updateVSCodeConfig (cfg_apiKey newConfig) (cfg_apiUrl newConfig) ;;
     emit (ShowInformationMessage (js "配置已更新") []) ;;
     log (js "[Settings Watcher] 新配置已应用") false ;;
     match refreshCallback with
     | Some refresh => refresh
     | None => ret tt
     end)
    (fun error =>
       if instanceof_Error error then
         log (js "[Settings Watcher] 应用新配置失败: "
              ++ of_opt (message_of error)) true ;;
         emit (ShowErrorMessage
                 (js "应用新配置失败: " ++ of_opt (message_of error)) [])
       else ret tt).

Definition disableWatching : M unit :=
  try_catch
    (setWatchEnabled false ;;
     stopWatching ;;
     emit (ShowInformationMessage
             (js "已关闭 Claude Settings 监听,如需重新开启请到设置中启用「监听 Claude Settings 变动」")
             []) ;;
     log (js "[Settings Watcher] 监听已关闭") false)
    (fun error =>
       if instanceof_Error error then
         log (js "[Settings Watcher] 关闭监听失败: "
              ++ of_opt (message_of error)) true
       else ret tt).

(** [x || d] on a possibly absent string. *)
Definition or_default (o : option jsstring) (d : jsstring) : jsstring :=
  match o with
  | Some (c :: r) => c :: r
  | _ => d
  end.

Definition prompt_message (newConfig : Config) (currentConfig : option Config)
  : jsstring :=
  js "检测到 ~/.claude/settings.json 配置变更:" ++ [10%N; 10%N]
  ++ js "当前: API URL: "
  ++ or_default (option_map cfg_apiUrl currentConfig) (js "无")
  ++ js " | Key: "
  ++ maskApiKey (or_default (option_map cfg_apiKey currentConfig) [])
  ++ [10%N] ++ js "新配置: API URL: " ++ cfg_apiUrl newConfig
  ++ js " | Key: " ++ maskApiKey (cfg_apiKey newConfig)
  ++ [10%N; 10%N] ++ js "是否使用新配置?".

(** [await vscode.window.showInformationMessage(message, { modal: false },
    ...items)]: resolves to the item clicked, or to [undefined] when the
    notification is dismissed. *)
Definition ask (message : jsstring) (items : list jsstring)
  : M (option jsstring) :=
  fun s =>
    (Ret (click env (prompts s)), count_prompt s,
     [ShowInformationMessage message items]).

(** [choice === button] *)
Definition chose (choice : option jsstring) (button : jsstring) : bool :=
  match choice with
  | Some c => eqb c button
  | None => false
  end.

(** [!choice] *)
Definition no_choice (choice : option jsstring) : bool :=
  match choice with
  | Some c => falsy c
  | None => true
  end.

Definition promptUserChoice (newConfig : Config) (currentConfig : option Config)
  : M unit :=
  let message := prompt_message newConfig currentConfig in
  choice <- ask message
              [useNewConfigButton; keepCurrentConfigButton; openSettingsButton] ;;
  if chose choice useNewConfigButton then
    log (js "[Settings Watcher] 用户选择:使用新配置") false ;;
    applyNewConfig newConfig
  else if no_choice choice || chose choice keepCurrentConfigButton then
    log (js "[Settings Watcher] 用户选择:保持当前配置并关闭监听") false ;;
    disableWatching
  else if chose choice openSettingsButton then
    log (js "[Settings Watcher] 用户选择:打开设置") false ;;
    emit (ExecuteCommand (js "workbench.action.openSettings") (js "relayMeter"))
  else ret tt.

(** [!x] on a possibly absent string. *)
Definition absent (o : option jsstring) : bool :=
  match o with
  | Some c => falsy c
  | None => true
  end.

Definition checkAndHandleConfigChange : M unit :=
  try_catch
    (log (js "[Settings Watcher] 开始检查配置变更...") false ;;
     claudeSettings <- readClaudeSettings ;;
     if absent (cs_apiKey claudeSettings) || absent (cs_apiUrl claudeSettings)
     then log (js "[Settings Watcher] Claude Settings 中没有有效配置,跳过处理") false
     else
       let newConfig :=
         mkConfig (or_default (cs_apiKey claudeSettings) [])
                  (or_default (cs_apiUrl claudeSettings) []) in
       s <- get ;;
       let currentConfig := getVSCodeConfig (settings s) in
       if compareConfigs newConfig currentConfig then
         log (js "[Settings Watcher] 新配置与当前配置相同,跳过提示") false
       else
         log (js "[Settings Watcher] 检测到新的配置变更,准备提示用户") false ;;
         promptUserChoice newConfig currentConfig)
    (fun error =>
       if instanceof_Error error then
         log (js "[Settings Watcher] 处理配置变更失败: "
              ++ of_opt (message_of error)) true
       else ret tt).

End WithEnv.

End Watcher.

(* ===================================================================== *)
(** ** src/utils/formatter.ts: numbers and percentages *)
(* ===================================================================== *)

(** A JavaScript number is taken as an extended real: [NaN], the two
    infinities, or an exact rational. Binary rounding, overflow and the
    sign of zero are left out; every operation below is the exact-
    arithmetic reading of its ECMAScript definition. *)
Module Formatter.

Local Open Scope Q_scope.
Local Open Scope list_scope.

Inductive number : Type :=
| NaN
| Infinity (negative : bool)
| Fin (q : Q).

(** Finite results are kept in lowest terms. *)
Definition fin (q : Q) : number := Fin (Qred q).

Definition lit (z : Z) : number := Fin (inject_Z z).

Definition pow10 (d : nat) : Q := inject_Z (10 ^ Z.of_nat d).

Definition is_neg (q : Q) : bool := negb (Qle_bool 0 q).

(** [x === 0] *)
Definition is_zero (x : number) : bool :=
  match x with
  | Fin q => Qeq_bool q 0
  | _ => false
  end.

Definition mul (x y : number) : number :=
  match x, y with
  | NaN, _ => NaN
  | _, NaN => NaN
  | Fin a, Fin b => fin (a * b)
  | Infinity s, Fin b =>
      if Qeq_bool b 0 then NaN else Infinity (xorb s (is_neg b))
  | Fin a, Infinity s =>
      if Qeq_bool a 0 then NaN else Infinity (xorb s (is_neg a))
  | Infinity s, Infinity t => Infinity (xorb s t)
  end.

Definition div (x y : number) : number :=
  match x, y with
  | NaN, _ => NaN
  | _, NaN => NaN
  | Fin a, Fin b =>
      if Qeq_bool b 0 then
        if Qeq_bool a 0 then NaN else Infinity (is_neg a)
      else fin (a / b)
  | Infinity s, Fin b => Infinity (xorb s (is_neg b))
  | Fin _, Infinity _ => Fin 0
  | Infinity _, Infinity _ => NaN
  end.

(** [x <= y] on numbers that are not [NaN]. *)
Definition leb (x y : number) : bool :=
  match x, y with
  | Infinity true, _ => true
  | _, Infinity false => true
  | Fin a, Fin b => Qle_bool a b
  | _, _ => false
  end.

Definition Math_min (x y : number) : number :=
  match x, y with
  | NaN, _ => NaN
  | _, NaN => NaN
  | _, _ => if leb x y then x else y
  end.

Definition Math_max (x y : number) : number :=
  match x, y with
  | NaN, _ => NaN
  | _, NaN => NaN
  | _, _ => if leb x y then y else x
  end.

(** [Math.round]: the integer nearest to [x], the larger one at a tie. *)
Definition Math_round (x : number) : number :=
  match x with
  | Fin q => Fin (inject_Z (Qfloor (q + (1 # 2))))
  | _ => x
  end.

Definition digits (n : Z) : jsstring := JsString.of_Z n.

Fixpoint drop_zeros (s : jsstring) : jsstring :=
  match s with
  | c :: r => if (c =? 48)%N then drop_zeros r else s
  | [] => []
  end.

(** The least [f], counting up from the one given, at which [a * 10^f] is an
    integer; the search gives up after [fuel] steps. *)
Fixpoint find_scale (fuel f : nat) (a : Q) : nat :=
  match fuel with
  | O => f
  | S fuel' =>
      if (Qden (Qred a) =? 1)%positive then f
      else find_scale fuel' (S f) (a * 10)
  end.

Definition exponent_part (e : Z) : jsstring :=
  js "e" ++ (if (e <? 0)%Z then js "-" else js "+") ++ digits (Z.abs e).

(** [Number::toString(x)] in radix 10. A finite value is exact when its
    decimal expansion ends within 40 places, which holds for everything
    [Number_] below returns from a [toFixed] string; past that the
    expansion is cut. *)
Definition toString (x : number) : jsstring :=
  match x with
  | NaN => js "NaN"
  | Infinity s => (if s then js "-" else []) ++ js "Infinity"
  | Fin q0 =>
      let q := Qred q0 in
      let a := Qabs q in
      let f := find_scale 40 0 a in
      let N := Qfloor (a * pow10 f) in
      if (N =? 0)%Z then js "0"
      else
        let all := digits N in
        let ds := rev (drop_zeros (rev all)) in
        let k := Z.of_nat (List.length ds) in
        let n := (Z.of_nat (List.length all) - Z.of_nat f)%Z in
        (if is_neg q then js "-" else [])
        ++ (if ((k <=? n) && (n <=? 21))%Z then
              ds ++ repeat 48%N (Z.to_nat (n - k))
            else if ((0 <? n) && (n <=? 21))%Z then
              firstn (Z.to_nat n) ds ++ js "." ++ skipn (Z.to_nat n) ds
            else if ((-6 <? n) && (n <=? 0))%Z then
              js "0." ++ repeat 48%N (Z.to_nat (- n)) ++ ds
            else
              match ds with
              | [d] => [d] ++ exponent_part (n - 1)
              | d :: r => d :: js "." ++ r ++ exponent_part (n - 1)
              | [] => []
              end)
  end.

(** [Number.prototype.toFixed(d)] *)
Definition toFixed (x : number) (d : nat) : jsstring :=
  match x with
  | Fin q0 =>
      let q := Qred q0 in
      let a := Qabs q in
      if Qle_bool (pow10 21) a then toString x
      else
        let n := Qfloor (a * pow10 d + (1 # 2)) in
        let m := digits n in
        let m := repeat 48%N (S d - List.length m) ++ m in
        let k := List.length m in
        (if is_neg q then js "-" else [])
        ++ (match d with
            | O => digits n
            | S _ => firstn (k - d) m ++ js "." ++ skipn (k - d) m
            end)
  | _ => toString x
  end.

Definition is_digit (c : N) : bool := ((48 <=? c) && (c <=? 57))%N.

(** The longest run of decimal digits at the front, and what follows. *)
Fixpoint span_digits (s : jsstring) : jsstring * jsstring :=
  match s with
  | c :: r =>
      if is_digit c then
        let '(ds, rest) := span_digits r in (c :: ds, rest)
      else ([], s)
  | [] => ([], [])
  end.

Definition digits_value (ds : jsstring) : Z :=
  fold_left (fun acc c => (acc * 10 + (Z.of_N c - 48))%Z) ds 0%Z.

Definition split_sign (s : jsstring) : bool * jsstring :=
  match s with
  | 45%N :: r => (true, r)
  | 43%N :: r => (false, r)
  | _ => (false, s)
  end.

(** [10^e] for any integer [e]. *)
Definition scale10 (e : Z) : Q :=
  if (0 <=? e)%Z then inject_Z (10 ^ e) else / inject_Z (10 ^ (- e)).

(** An unsigned decimal literal at the front of [s]: digits, an optional
    fraction, an optional exponent. Gives its value and the rest, or
    nothing when no literal starts there. *)
Definition scan_decimal (s : jsstring) : option (Q * jsstring) :=
  let '(ip, r1) := span_digits s in
  let '(fp, r2) :=
    match r1 with
    | 46%N :: r => span_digits r
    | _ => ([], r1)
    end in
  match ip, fp with
  | [], [] => None
  | _, _ =>
      let mant :=
        inject_Z (digits_value (ip ++ fp)) / pow10 (List.length fp) in
      let plain :=
        match ip, fp, r1 with
        | _ :: _, [], 46%N :: r => Some (mant, r)
        | _, _, _ => Some (mant, r2)
        end in
      match plain with
      | Some (v, (101%N | 69%N) :: r) =>
          let '(eneg, r') := split_sign r in
          match span_digits r' with
          | ([], _) => plain
          | (es, rest) =>
              let e := digits_value es in
              Some (v * scale10 (if eneg then (- e)%Z else e), rest)
          end
      | _ => plain
      end
  end.

Definition signed (neg : bool) (q : Q) : number :=
  fin (if neg then - q else q).

(** [Number(s)] on a string: white space trimmed, the empty string is [0],
    a signed decimal literal or [Infinity] is its value, anything else is
    [NaN]. (Hexadecimal, octal and binary literals are not read.) *)
Definition Number_ (s : jsstring) : number :=
  match trim s with
  | [] => Fin 0
  | t =>
      let '(neg, u) := split_sign t in
      if eqb u (js "Infinity") then Infinity neg
      else
        match scan_decimal u with
        | Some (v, []) => signed neg v
        | _ => NaN
        end
  end.

(** [parseFloat(s)]: the longest decimal literal at the front, after
    leading white space. *)
Definition parseFloat (s : jsstring) : number :=
  let '(neg, u) := split_sign (trimStart s) in
  if startsWith u (js "Infinity") then Infinity neg
  else
    match scan_decimal u with
    | Some (v, _) => signed neg v
    | None => NaN
    end.

Definition formatNumber (num : number) : jsstring :=
  let rounded := div (Math_round (mul num (lit 10000))) (lit 10000) in
  toString (Number_ (toFixed rounded 4)).

Definition formatPercentage (value total : number) : jsstring :=
  if is_zero total then js "0"
  else
    let percentage := mul (div value total) (lit 100) in
    let clamped := Math_max (lit 0) (Math_min (lit 100) percentage) in
    let rounded := div (Math_round (mul clamped (lit 100))) (lit 100) in
    toString (Number_ (toFixed rounded 2)).

Definition formatCost (amount : number) : jsstring :=
  js "$" ++ formatNumber amount.

Definition formatStatusBarText
  (used limit : number) (percentage : option number) : jsstring :=
  let formattedUsed := formatCost used in
  let formattedLimit := formatCost limit in
  let percentValue :=
    match percentage with
    | Some p => p
    | None => parseFloat (formatPercentage used limit)
    end in
  let formattedPercent := formatPercentage used limit in
  formattedUsed ++ js "/" ++ formattedLimit ++ js " " ++ formattedPercent
  ++ js "%".

(** The last line of [formatPercentage] when [rounded] is [k / 100]. *)
Definition render_hundredths (k : Z) : jsstring :=
  toString (Number_ (toFixed (Fin (Qred (inject_Z k / inject_Z 100))) 2)).

(** The string reads, as a number, as a value between 0 and 100. *)
Definition reads_as_percent (s : jsstring) : bool :=
  match Number_ s with
  | Fin q => Qle_bool 0 q && Qle_bool q 100
  | _ => false
  end.

End Formatter.

(* ===================================================================== *)
(** ** Reading a run: what was posted, waited for, shown, written *)
(* ===================================================================== *)

Module Trace.

Import Host.

Section WithPayload.

Variable RelayUserData : Type.

Local Abbreviation Event := (Host.Event RelayUserData).
Local Abbreviation Response := (RelayApiResponse RelayUserData).

(** The HTTP requests of a run, in order. *)
Definition posts_of (evs : list Event) : list (jsstring * Body) :=
  flat_map (fun e => match e with
                     | AxiosPost url body => [(url, body)]
                     | _ => []
                     end) evs.

(** The timed waits of a run, in order, in milliseconds. *)
Definition waits_of (evs : list Event) : list Z :=
  flat_map (fun e => match e with
                     | Wait ms => [ms]
                     | _ => []
                     end) evs.

(** The settings writes a run attempted, in order. *)
Definition writes_of (evs : list Event) : list Write :=
  flat_map (fun e => match e with
                     | SettingsWrite w => [w]
                     | _ => []
                     end) evs.

(** A log line, as opposed to anything the user sees or the host does. *)
Definition is_log (e : Event) : bool :=
  match e with
  | Log _ _ => true
  | LogError _ _ => true
  | _ => false
  end.

(** A notification, prompt or status-bar change. *)
Definition is_user_facing (e : Event) : bool :=
  match e with
  | ShowConfigPrompt _ => true
  | ShowLoadingStatus => true
  | UpdateStatusBar _ _ _ => true
  | ShowErrorStatus _ => true
  | ShowErrorMessage _ _ => true
  | ShowInformationMessage _ _ => true
  | ExecuteCommand _ _ => true
  | _ => false
  end.

(** The payload an [axios.post] to the stats endpoint delivers when
    [fetchRelayStats] accepts it: status 200, a body, [success] true. *)
Definition reply_payload (r : Settled Response) : option Response :=
  match r with
  | Fulfilled status (Some d) =>
      if (status =? 200)%Z && success d then Some d else None
  | _ => None
  end.

End WithPayload.

(** Exponential backoff from [d]: the waits [d, 2d, 4d, ...], [m] of them. *)
Definition backoff (d : Z) (m : nat) : list Z :=
  map (fun k => d * 2 ^ Z.of_nat k) (seq 0 m).

(** The watch state: the persisted flag and the two watcher handles. *)
Definition watch_state (s : State) : bool * bool * bool :=
  (watchClaudeSettings (settings s), fileWatcher s, debounceTimer s).

End Trace.

(* ===================================================================== *)
(** ** Sample hosts, to run the model on *)
(* ===================================================================== *)

Module Samples.

Import Host.

(** The strings of the samples, as code units. *)
Definition url_x : jsstring := Eval vm_compute in js "https://x.test".
Definition url_y : jsstring := Eval vm_compute in js "https://y.test".
Definition not_a_url : jsstring := Eval vm_compute in js "example.com".
Definition sk_1 : jsstring := Eval vm_compute in js "sk-1".
Definition sk_2 : jsstring := Eval vm_compute in js "sk-2".
Definition an_id : jsstring :=
  Eval vm_compute in js "0f8fad5b-d9cb-469f-a165-70867728950e".
Definition keep_current : jsstring := Eval vm_compute in js "保持当前配置".

(** Settings with the given URL and the key "sk-1" but no ID; the watcher
    running, no debounce pending. *)
Definition key_only (url : jsstring) : State :=
  mkState (mkSettings url [] sk_1 true) true false 0 0 0.

Definition stats_ok : Settled (RelayApiResponse unit) :=
  Fulfilled 200 (Some (mkRelayApiResponse true tt)).

Definition key_ok : Settled ApiKeyResponse :=
  Fulfilled 200 (Some (mkApiKeyResponse true (Some an_id))).

Definition no_network : Thrown :=
  AxiosErr (js "timeout of 10000ms exceeded") None true.

Definition file_with_both : Res ClaudeSettings :=
  Ret (mkClaudeSettings (Some sk_2) (Some url_y)).

(** A server that is down: every request goes unanswered. The user
    dismisses every prompt; the credentials file cannot be parsed. *)
Definition env_down : Env unit :=
  mkEnv (fun _ => Rejected no_network) (fun _ => Rejected no_network)
        (fun _ => None) (fun _ => None)
        (Throw (JsError (js "Unexpected token } in JSON at position 42"))).

(** A healthy server. The user clicks "keep current" on every prompt; the
    credentials file holds a key and a URL. *)
Definition env_up : Env unit :=
  mkEnv (fun _ => stats_ok) (fun _ => key_ok)
        (fun _ => Some keep_current) (fun _ => None) file_with_both.

(** The same, the user dismissing every prompt. *)
Definition env_up_dismiss : Env unit :=
  mkEnv (fun _ => stats_ok) (fun _ => key_ok)
        (fun _ => None) (fun _ => None) file_with_both.

(** The same, the credentials file holding a key but no URL. *)
Definition env_up_partial : Env unit :=
  mkEnv (fun _ => stats_ok) (fun _ => key_ok)
        (fun _ => None) (fun _ => None)
        (Ret (mkClaudeSettings (Some sk_2) None)).

(** Stand-ins for the three pure helpers of [configManager.ts]. *)
Definition getVSCodeConfig (st : Settings) : option Config :=
  Some (mkConfig (apiKey st) (apiUrl st)).

Definition compareConfigs (a : Config) (b : option Config) : bool :=
  match b with
  | Some c =>
      eqb (cfg_apiKey a) (cfg_apiKey c) && eqb (cfg_apiUrl a) (cfg_apiUrl c)
  | None => false
  end.

Definition maskApiKey (k : jsstring) : jsstring := firstn 3 k ++ [42%N].

End Samples.

(* ===================================================================== *)
(** ** src/services/api.ts: the connection test *)
(* ===================================================================== *)

Module Connection.

Import Gate Host.
Local Open Scope js_scope.
Local Open Scope list_scope.

Section WithEnv.

Variable RelayUserData : Type.
Variable URL_protocol : jsstring -> option jsstring.
Variable env : Env RelayUserData.

Local Abbreviation M := (Host.M RelayUserData).

(** [testApiConnection(apiUrl, apiId, apiKey?)]. The ID is passed on to
    [fetchRelayStats] as given; the key is only shown to the gate. *)
Definition testApiConnection
  (apiUrl apiId : jsstring) (apiKey : option jsstring) : M bool :=
  try_catch
    (Poller.log RelayUserData (js "[API] 开始测试 API 连接...") ;;
     let validation := validateApiConfig URL_protocol apiUrl apiId apiKey in
     if negb (valid validation) then
       emit (LogError (js "[API] 配置验证失败：" ++ of_opt (message validation))
                      None) ;;
       ret false
     else
       _ <- Poller.fetchRelayStats env apiUrl apiId ;;
       Poller.log RelayUserData (js "[API] API 连接测试成功") ;;
       ret true)
    (fun error =>
       Poller.logError RelayUserData (js "[API] API 连接测试失败") error ;;
       ret false).

End WithEnv.

End Connection.

(* ===================================================================== *)
(** ** Computations over any state and any record of effects *)
(* ===================================================================== *)

(** The monad of [Host.M], for a state and an event type of one's choice:
    the extension's entry points below keep more state than the poller and
    the reconciler, and cause more kinds of effect. *)
Module Run.

Import Host.

Section WithTypes.

Variables St Ev : Type.

Definition T (A : Type) : Type := St -> Res A * St * list Ev.

Definition ret {A} (a : A) : T A := fun s => (Ret a, s, []).

Definition throw {A} (e : Thrown) : T A := fun s => (Throw e, s, []).

Definition bind {A B} (m : T A) (k : A -> T B) : T B :=
  fun s =>
    match m s with
    | (Ret a, s1, e1) =>
        match k a s1 with
        | (r, s2, e2) => (r, s2, e1 ++ e2)
        end
    | (Throw e, s1, e1) => (Throw e, s1, e1)
    end.

(** [try { m } catch (e) { h e }] *)
Definition try_catch {A} (m : T A) (h : Thrown -> T A) : T A :=
  fun s =>
    match m s with
    | (Ret a, s1, e1) => (Ret a, s1, e1)
    | (Throw e, s1, e1) =>
        match h e s1 with
        | (r, s2, e2) => (r, s2, e1 ++ e2)
        end
    end.

Definition emit (e : Ev) : T unit := fun s => (Ret tt, s, [e]).

Definition get : T St := fun s => (Ret s, s, []).

Definition put (s : St) : T unit := fun _ => (Ret tt, s, []).

(** An assignment to part of the state. *)
Definition modify (f : St -> St) : T unit := fun s => (Ret tt, f s, []).

End WithTypes.

Arguments ret {St Ev A} a.
Arguments throw {St Ev A} e.
Arguments bind {St Ev A B} m k.
Arguments try_catch {St Ev A} m h.
Arguments emit {St Ev} e.
Arguments get {St Ev}.
Arguments put {St Ev} s.
Arguments modify {St Ev} f.

Declare Scope run_scope.
Delimit Scope run_scope with run.

Notation "x <- c ;; k" := (bind c (fun x => k))
  (at level 61, c at next level, right associativity) : run_scope.
Notation "c ;; k" := (bind c (fun _ => k))
  (at level 61, right associativity) : run_scope.

End Run.

(* ===================================================================== *)
(** ** src/extension.ts and the rest of src/utils/claudeSettingsWatcher.ts *)
(* ===================================================================== *)

(** The entry points of the extension: activation and deactivation, the
    commands, the listeners, the refresh timer; and the part of the watcher
    that opens the file watch and debounces its events. Each callback the
    code registers is a function of its own here; [dispatch] says which one
    the host runs on which occasion. *)
Module Extension.

Import Gate Host Run.
Local Open Scope run_scope.
Local Open Scope list_scope.

Section WithEnv.

Variable RelayUserData : Type.
Variable URL_protocol : jsstring -> option jsstring.

(** Helpers of [utils/configManager.ts], taken as they come. *)
Variable getVSCodeConfig : Settings -> option Config.
Variable compareConfigs : Config -> option Config -> bool.
Variable maskApiKey : jsstring -> jsstring.
Variable hasConfig : Settings -> bool.

(** [getClaudeSettingsPath()]: the home directory joined with
    [.claude/settings.json]. *)
Variable settingsPath : jsstring.

(** [String(error)] on a thrown value. *)
Variable String_ : Thrown -> jsstring.

(** The functions passed to [startWatching]: both call sites pass
    [updateStats]. *)
Inductive Callback : Type := updateStats_.

(** The steps of activation that only build the user interface. *)
Inductive SetupStep : Type :=
| initializeLogging
| createStatusBarItem
| createReloadButton
| setStatusBarText (text : jsstring)
| showStatusBarItem
| showReloadButton
| registerCommands
| registerConfigurationListener
| registerWindowFocusListener.

(** What the host observes: the events of the poller and the reconciler,
    and those only the code below causes. *)
Inductive Effect : Type :=
| Core (e : Event RelayUserData)
| ShowWarningMessage (msg : jsstring) (items : list jsstring)
| ShowModalMessage (msg : jsstring) (items : list jsstring)
| ConfigUpdate (key value : jsstring)
| SetInterval (handle : nat) (ms : Formatter.number)
| ClearTimer (handle : nat)
| SetTimeout (ms : Z)
| ExistsSync (path : jsstring)
| FsWatch (path : jsstring) (opened : bool)
| OpenExternal (url : jsstring)
| Setup (step : SetupStep).

(** The answers of the platform: those of [Host.Env], whether the file is
    there at the k-th file-system call, and whether the k-th call, when it
    is [fs.watch], throws. *)
Record Platform : Type := mkPlatform {
  host : Env RelayUserData;
  file_exists : nat -> bool;
  watch_error : nat -> option Thrown
}.

Variable pf : Platform.

(** The module-level variables of [extension.ts] ([refreshTimer],
    [isWindowFocused]) and of the watcher ([refreshCallback]; its two
    handles are in [core]), the [relayMeter.refreshInterval] setting, and
    what the host keeps: the interval timers that are running, the next
    timer handle, the number of file-system calls answered. *)
Record Globals : Type := mkGlobals {
  core : State;
  refreshTimer : option nat;
  isWindowFocused : bool;
  refreshCallback : option Callback;
  refreshIntervalSetting : Formatter.number;
  timers : list nat;
  next_timer : nat;
  fs_calls : nat
}.

Definition with_core (s : State) (g : Globals) : Globals :=
  mkGlobals s (refreshTimer g) (isWindowFocused g) (refreshCallback g)
            (refreshIntervalSetting g) (timers g) (next_timer g) (fs_calls g).

Definition with_refreshTimer (t : option nat) (g : Globals) : Globals :=
  mkGlobals (core g) t (isWindowFocused g) (refreshCallback g)
            (refreshIntervalSetting g) (timers g) (next_timer g) (fs_calls g).

Definition with_isWindowFocused (b : bool) (g : Globals) : Globals :=
  mkGlobals (core g) (refreshTimer g) b (refreshCallback g)
            (refreshIntervalSetting g) (timers g) (next_timer g) (fs_calls g).

Definition with_refreshCallback (c : option Callback) (g : Globals)
  : Globals :=
  mkGlobals (core g) (refreshTimer g) (isWindowFocused g) c
            (refreshIntervalSetting g) (timers g) (next_timer g) (fs_calls g).

Definition with_timers (l : list nat) (g : Globals) : Globals :=
  mkGlobals (core g) (refreshTimer g) (isWindowFocused g) (refreshCallback g)
            (refreshIntervalSetting g) l (next_timer g) (fs_calls g).

(** An assignment to one of the watcher's handles. *)
Definition set_fileWatcher (b : bool) (s : State) : State :=
  mkState (settings s) b (debounceTimer s) (posts s) (prompts s) (writes s).

Definition set_debounceTimer (b : bool) (s : State) : State :=
  mkState (settings s) (fileWatcher s) b (posts s) (prompts s) (writes s).

Definition on_core (f : State -> State) (g : Globals) : Globals :=
  with_core (f (core g)) g.

Definition count_fs (g : Globals) : Globals :=
  mkGlobals (core g) (refreshTimer g) (isWindowFocused g) (refreshCallback g)
            (refreshIntervalSetting g) (timers g) (next_timer g)
            (S (fs_calls g)).

(** The state right after the modules are loaded. *)
Definition initial (st : Settings) (interval : Formatter.number) : Globals :=
  mkGlobals (mkState st false false 0 0 0) None true None interval [] 0 0.

Local Abbreviation X := (Run.T Globals Effect).

(** A computation of the poller or the reconciler, run on [core]. *)
Definition lift {A} (m : Host.M RelayUserData A) : X A :=
  fun g =>
    match m (core g) with
    | (r, s, evs) => (r, with_core s g, map Core evs)
    end.

(** [log(msg)], [log(msg, true)] *)
Definition log (msg : jsstring) : X unit := emit (Core (Log msg false)).
Definition log_error (msg : jsstring) : X unit := emit (Core (Log msg true)).

(** [error instanceof Error ? error.message : String(error)] *)
Definition errorMessage_of (error : Thrown) : jsstring :=
  if instanceof_Error error then of_opt (message_of error) else String_ error.

Definition updateStats : X unit :=
  lift (Poller.updateStats URL_protocol (host pf)).

Definition run_callback (c : Callback) : Host.M RelayUserData unit :=
  match c with
  | updateStats_ => Poller.updateStats URL_protocol (host pf)
  end.

(** *** claudeSettingsWatcher.ts *)

Definition stopWatching : X unit := lift (Watcher.stopWatching RelayUserData).

Definition checkAndHandleConfigChange : X unit :=
  fun g =>
    lift (Watcher.checkAndHandleConfigChange
            (host pf) getVSCodeConfig compareConfigs maskApiKey
            (option_map run_callback (refreshCallback g))) g.

(** [fs.existsSync(path)] *)
Definition fs_existsSync (path : jsstring) : X bool :=
  fun g => (Ret (file_exists pf (fs_calls g)), count_fs g, [ExistsSync path]).

(** [fileWatcher = fs.watch(path, listener)]: the call throws, or returns
    the watcher that is then stored. *)
Definition fs_watch (path : jsstring) : X unit :=
  fun g =>
    match watch_error pf (fs_calls g) with
    | Some e => (Throw e, count_fs g, [FsWatch path false])
    | None =>
        (Ret tt, count_fs (on_core (set_fileWatcher true) g),
         [FsWatch path true])
    end.

Definition startWatching (onRefresh : option Callback) : X unit :=
  modify (with_refreshCallback onRefresh) ;;
  g <- get ;;
  (if fileWatcher (core g) then stopWatching else ret tt) ;;
  log (js "[Settings Watcher] 尝试启动文件监听: " ++ settingsPath) ;;
  fileExists <- fs_existsSync settingsPath ;;
  log (js "[Settings Watcher] 文件存在性检查: "
       ++ (if fileExists then js "文件存在" else js "文件不存在")) ;;
  if negb fileExists then
    let warningMsg := js "Claude Settings 文件不存在: " ++ settingsPath in
    log_error (js "[Settings Watcher] " ++ warningMsg) ;;
    emit (ShowWarningMessage
            (js "无法启动 Claude Settings 文件监听:" ++ [10%N] ++ warningMsg
             ++ [10%N; 10%N] ++ js "请确保 Claude Code 已正确配置。")
            [])
  else
    try_catch
      (fs_watch settingsPath ;;
       log (js "[Settings Watcher] 文件监听已成功启动"))
      (fun error =>
         if instanceof_Error error then
           log_error (js "[Settings Watcher] 启动文件监听失败: "
                      ++ of_opt (message_of error)) ;;
           emit (Core (ShowErrorMessage
                         (js "无法启动 Claude Settings 文件监听: "
                          ++ of_opt (message_of error)) []))
         else ret tt).

(** [DEBOUNCE_DELAY] *)
Definition DEBOUNCE_DELAY : Z := 300.

Definition handleFileChange : X unit :=
  g <- get ;;
  (if debounceTimer (core g) then emit (Core ClearTimeout) else ret tt) ;;
  emit (SetTimeout DEBOUNCE_DELAY) ;;
  modify (on_core (set_debounceTimer true)).

(** The listener given to [fs.watch]. *)
Definition watch_listener (eventType : jsstring) (filename : option jsstring)
  : X unit :=
  log (js "[Settings Watcher] 文件事件: type=" ++ eventType ++ js ", file="
       ++ Watcher.or_default filename (js "unknown")) ;;
  if eqb eventType (js "change") || eqb eventType (js "rename") then
    log (js "[Settings Watcher] 检测到文件变更") ;;
    handleFileChange
  else ret tt.

(** The callback of the debounce timer. *)
Definition debounce_callback : X unit := checkAndHandleConfigChange.

(** The listener of the watcher's ['error'] event. *)
Definition watch_error_listener (message : jsstring) : X unit :=
  log_error (js "[Settings Watcher] 文件监听运行时错误: " ++ message) ;;
  emit (Core (ShowErrorMessage
                (js "Claude Settings 文件监听出错: " ++ message ++ [10%N]
                 ++ js "监听已自动停止。") [])) ;;
  stopWatching.

(** *** extension.ts: the refresh timer *)

(** [getConfiguration().refreshInterval] *)
Definition refreshInterval (g : Globals) : Formatter.number :=
  Formatter.Math_max (refreshIntervalSetting g) (Formatter.lit 10).

Definition getRefreshIntervalMs (g : Globals) : Formatter.number :=
  Formatter.mul (refreshInterval g) (Formatter.lit 1000).



(** [clearInterval(h)], [clearTimeout(h)]: either cancels the timer. *)
Definition clear_timer (h : nat) : X unit :=
  fun g =>
    (Ret tt, with_timers (remove Nat.eq_dec h (timers g)) g, [ClearTimer h]).

(** [setInterval(callback, ms)]: [ms] is the delay as the code hands it
    over; the period the host then gives the timer is [timer_period ms]. *)
Definition set_interval (ms : Formatter.number) : X nat :=
  fun g =>
    let h := next_timer g in
    (Ret h,
     mkGlobals (core g) (refreshTimer g) (isWindowFocused g)
               (refreshCallback g) (refreshIntervalSetting g)
               (h :: timers g) (S h) (fs_calls g),
     [SetInterval h ms]).

Definition stopRefreshTimer : X unit :=
  g <- get ;;
  match refreshTimer g with
  | Some h =>
      clear_timer h ;;
      modify (with_refreshTimer None) ;;
      log (js "[定时器] 已停止定时刷新")
  | None => ret tt
  end.

Definition startRefreshTimer : X unit :=
  stopRefreshTimer ;;
  g <- get ;;
  let intervalMs :=
    Formatter.mul (refreshInterval g) (Formatter.lit 1000) in
  log (js "[日志] 启动定时刷新，间隔：" ++ Formatter.toString (refreshInterval g)
       ++ js " 秒") ;;
  h <- set_interval intervalMs ;;
  modify (with_refreshTimer (Some h)).

(** The callback given to [setInterval]. *)
Definition refreshTimer_callback : X unit :=
  g <- get ;;
  if isWindowFocused g then
    log (js "[定时器] 执行定时更新...") ;;
    updateStats
  else log (js "[定时器] 窗口无焦点，跳过此次更新").

(** *** extension.ts: the listeners *)

(** The listener of [onDidChangeWindowState]. The refresh it starts is not
    awaited; the cycle and [startRefreshTimer] share no state, so running
    the cycle to its end first changes only the order of the record. *)
Definition windowState_listener (focused : bool) : X unit :=
  g <- get ;;
  let wasFocused := isWindowFocused g in
  modify (with_isWindowFocused focused) ;;
  if focused && negb wasFocused then
    log (js "[日志] 窗口获得焦点，刷新数据") ;;
    updateStats ;;
    startRefreshTimer
  else ret tt.

(** The listener of [onDidChangeConfiguration]; the two flags are what
    [event.affectsConfiguration] answers for ['relayMeter'] and for
    ['relayMeter.watchClaudeSettings']. *)
Definition configuration_listener (relayMeter watchClaudeSettings : bool)
  : X unit :=
  if relayMeter then
    log (js "[日志] 配置变更，刷新数据") ;;
    (if watchClaudeSettings then
       g <- get ;;
       if Watcher.isWatchEnabled (core g) then
         startWatching (Some updateStats_) ;;
         log (js "[配置变更] 文件监听已开启")
       else
         stopWatching ;;
         log (js "[配置变更] 文件监听已关闭")
     else ret tt) ;;
    startRefreshTimer ;;
    updateStats
  else ret tt.

(** *** extension.ts: the commands *)

Definition refreshStats_command : X unit :=
  log (js "[日志] 手动刷新统计数据") ;;
  updateStats.

Definition openSettings_command : X unit :=
  log (js "[日志] 打开设置") ;;
  emit (Core (ExecuteCommand (js "workbench.action.openSettings")
                             (js "relayMeter"))).

(** [args?: { url: string }], taken as the URL when [args] is given. *)
Definition openWebDashboard_command (args : option jsstring) : X unit :=
  match args with
  | Some (c :: r) =>
      log (js "[命令] 打开网页仪表板：" ++ (c :: r)) ;;
      emit (OpenExternal (c :: r))
  | _ => ret tt
  end.

(** [await config.update(key, value, true)]: one write to the settings
    store, which rejects or takes effect. *)
Definition config_update (key value : jsstring)
  (f : Settings -> Settings) : X unit :=
  fun g =>
    let s := core g in
    match write_error (host pf) (writes s) with
    | Some e =>
        (Throw e, with_core (Watcher.count_write s) g,
         [ConfigUpdate key value])
    | None =>
        (Ret tt,
         with_core (Watcher.count_write
                      (Watcher.set_settings (f (settings s)) s)) g,
         [ConfigUpdate key value])
    end.

Definition reloadClaudeConfig_command : X unit :=
  log (js "[日志] 重新加载 Claude Settings 配置...") ;;
  try_catch
    (claudeSettings <- lift (Watcher.readClaudeSettings (host pf)) ;;
     if Watcher.absent (cs_apiKey claudeSettings)
        && Watcher.absent (cs_apiUrl claudeSettings)
     then
       emit (ShowWarningMessage (js "Claude Settings 文件中未找到有效配置") [])
     else
       (match cs_apiKey claudeSettings with
        | Some (c :: r) =>
            config_update (js "apiKey") (c :: r)
              (fun st => mkSettings (apiUrl st) (apiId st) (c :: r)
                                    (watchClaudeSettings st))
        | _ => ret tt
        end) ;;
       (match cs_apiUrl claudeSettings with
        | Some (c :: r) =>
            config_update (js "apiUrl") (c :: r)
              (fun st => mkSettings (c :: r) (apiId st) (apiKey st)
                                    (watchClaudeSettings st))
        | _ => ret tt
        end) ;;
       log (js "[日志] Claude Settings 配置已重新加载") ;;
       emit (Core (ShowInformationMessage
                     (js "配置已从 Claude Settings 重新加载") [])) ;;
       updateStats)
    (fun error =>
       let errorMessage := errorMessage_of error in
       emit (Core (LogError (js "[命令] 重载配置失败：" ++ errorMessage) None)) ;;
       emit (Core (ShowErrorMessage (js "重载配置失败: " ++ errorMessage) []))).

(** The source writes [\\n] in this message: a backslash and an [n], not a
    line break. *)
Definition backslash_n : jsstring := [92%N; 110%N].

Definition manual_message (newConfig : Config) (currentConfig : option Config)
  : jsstring :=
  js "检测到 ~/.claude/settings.json 配置变更:" ++ backslash_n ++ backslash_n
  ++ js "当前: API URL: "
  ++ Watcher.or_default (option_map cfg_apiUrl currentConfig) (js "无")
  ++ js " | Key: "
  ++ maskApiKey (Watcher.or_default (option_map cfg_apiKey currentConfig) [])
  ++ backslash_n ++ js "新配置: API URL: " ++ cfg_apiUrl newConfig
  ++ js " | Key: " ++ maskApiKey (cfg_apiKey newConfig)
  ++ backslash_n ++ backslash_n ++ js "是否使用新配置?".

(** [await vscode.window.showInformationMessage(message, { modal: true },
    ...items)] *)
Definition ask_modal (message : jsstring) (items : list jsstring)
  : X (option jsstring) :=
  fun g =>
    (Ret (click (host pf) (prompts (core g))),
     with_core (Watcher.count_prompt (core g)) g,
     [ShowModalMessage message items]).

Definition handleManualReloadConfig : X unit :=
  try_catch
    (log (js "[手动更新] 开始读取 Claude Settings...") ;;
     claudeSettings <- lift (Watcher.readClaudeSettings (host pf)) ;;
     if Watcher.absent (cs_apiKey claudeSettings)
        || Watcher.absent (cs_apiUrl claudeSettings)
     then
       emit (ShowWarningMessage (js "Claude Settings 文件中未找到有效配置") [])
     else
       g <- get ;;
       let currentConfig := getVSCodeConfig (settings (core g)) in
       let newConfig :=
         mkConfig (Watcher.or_default (cs_apiKey claudeSettings) [])
                  (Watcher.or_default (cs_apiUrl claudeSettings) []) in
       if compareConfigs newConfig currentConfig then
         emit (Core (ShowInformationMessage (js "配置已是最新，无需更新") [])) ;;
         log (js "[手动更新] 配置相同，无需更新")
       else
         choice <- ask_modal (manual_message newConfig currentConfig)
                     [Watcher.useNewConfigButton;
                      Watcher.keepCurrentConfigButton;
                      Watcher.openSettingsButton] ;;
         if Watcher.chose choice Watcher.useNewConfigButton then
           log (js "[手动更新] 用户选择：使用新配置") ;;
           lift (Watcher.updateVSCodeConfig (host pf) (cfg_apiKey newConfig)
                                            (cfg_apiUrl newConfig)) ;;
           emit (Core (ShowInformationMessage (js "配置已更新") [])) ;;
           updateStats
         else if Watcher.chose choice Watcher.keepCurrentConfigButton then
           log (js "[手动更新] 用户选择：保持当前配置")
         else if Watcher.chose choice Watcher.openSettingsButton then
           log (js "[手动更新] 用户选择：打开设置") ;;
           emit (Core (ExecuteCommand (js "workbench.action.openSettings")
                                      (js "relayMeter")))
         else ret tt)
    (fun error =>
       let errorMessage := errorMessage_of error in
       log_error (js "[手动更新] 更新配置失败：" ++ errorMessage) ;;
       emit (Core (ShowErrorMessage (js "更新配置失败: " ++ errorMessage) []))).

Definition manualReloadConfig_command : X unit :=
  log (js "[命令] 手动更新配置（从 Tooltip 触发）") ;;
  handleManualReloadConfig.

(** *** extension.ts: activation and deactivation *)

Definition initializeConfigFromClaudeSettings : X unit :=
  g <- get ;;
  if hasConfig (settings (core g)) then
    log (js "[初始化] 已有配置,跳过从 Claude Settings 初始化")
  else
    claudeSettings <- lift (Watcher.readClaudeSettings (host pf)) ;;
    if Watcher.absent (cs_apiKey claudeSettings)
       || Watcher.absent (cs_apiUrl claudeSettings)
    then log (js "[初始化] Claude Settings 中没有有效配置")
    else
      try_catch
        (lift (Watcher.updateVSCodeConfig (host pf)
                 (Watcher.or_default (cs_apiKey claudeSettings) [])
                 (Watcher.or_default (cs_apiUrl claudeSettings) [])) ;;
         log (js "[初始化] 从 Claude Settings 自动填入配置成功"))
        (fun error =>
           if instanceof_Error error then
             log_error (js "[初始化] 从 Claude Settings 填入配置失败: "
                        ++ of_opt (message_of error))
           else ret tt).

(** [s ? '已配置' : '未配置'] *)
Definition configured (s : jsstring) : jsstring :=
  if falsy s then js "未配置" else js "已配置".

(** [activate(context)]. The [.then] continuation of the warning runs
    after activation has returned and is not part of it. *)
Definition activate : X unit :=
  try_catch
    (emit (Setup initializeLogging) ;;
     log (js "[日志] Claude Relay Meter 插件激活中...") ;;
     emit (Setup createStatusBarItem) ;;
     emit (Setup createReloadButton) ;;
     emit (Setup (setStatusBarText
                    (js "$(sync~spin) Claude Relay Meter 初始化中..."))) ;;
     emit (Setup showStatusBarItem) ;;
     emit (Setup showReloadButton) ;;
     log (js "[日志] 状态栏项已创建并显示") ;;
     emit (Setup registerCommands) ;;
     emit (Setup registerConfigurationListener) ;;
     emit (Setup registerWindowFocusListener) ;;
     initializeConfigFromClaudeSettings ;;
     g <- get ;;
     let config := settings (core g) in
     log (js "[配置] API URL: " ++ configured (apiUrl config)
          ++ js ", API ID: " ++ configured (apiId config)
          ++ js ", API Key: " ++ configured (apiKey config)) ;;
     let validation :=
       validateApiConfig URL_protocol (apiUrl config) (apiId config)
                         (Some (apiKey config)) in
     (if negb (valid validation) then
        log (js "[日志] 配置无效 - " ++ Poller.message_or_empty validation) ;;
        emit (Core (ShowConfigPrompt (missingConfig validation))) ;;
        emit (ShowWarningMessage
                (js "Claude Relay Meter: "
                 ++ Poller.message_or_empty validation)
                [js "立即配置"; js "稍后"])
      else
        log (js "[日志] 配置有效，开始获取数据...") ;;
        emit (Core ShowLoadingStatus) ;;
        updateStats ;;
        startRefreshTimer) ;;
     g <- get ;;
     (if Watcher.isWatchEnabled (core g) then
        startWatching (Some updateStats_) ;;
        log (js "[激活] 文件监听已启动")
      else log (js "[激活] 文件监听已禁用")) ;;
     log (js "[日志] 插件激活完成"))
    (fun error =>
       let errorMessage := errorMessage_of error in
       emit (Core (LogError (js "[激活] ✗ 插件激活失败") (Some error))) ;;
       emit (Core (ShowErrorMessage
                     (js "Claude Relay Meter 激活失败：" ++ errorMessage) [])) ;;
       throw error).

Definition deactivate : X unit :=
  log (js "[停用] 插件开始停用...") ;;
  g <- get ;;
  (match refreshTimer g with
   | Some h =>
       clear_timer h ;;
       modify (with_refreshTimer None) ;;
       log (js "[停用] 已清理定时器")
   | None => ret tt
   end) ;;
  stopWatching ;;
  log (js "[停用] 插件停用完成").

(** *** What the host runs, and when *)

(** The occasions on which the host calls into the extension, and the user
    editing the settings, which calls nothing by itself. *)
Inductive Trigger : Type :=
| Activate
| Deactivate
| IntervalElapsed
| WindowState (focused : bool)
| ConfigurationChanged (relayMeter watchClaudeSettings : bool)
| SettingsEdited (st : Settings) (interval : Formatter.number)
| RefreshStats
| OpenSettings
| OpenWebDashboard (args : option jsstring)
| ReloadClaudeConfig
| ManualReloadConfig
| FileEvent (eventType : jsstring) (filename : option jsstring)
| DebounceElapsed
| WatcherFailed (message : jsstring).

(** A timer callback runs only if a timer has been set and a file event is
    delivered only to an open watcher; whether the timer is still pending
    is not tracked, so [dispatch] runs the debounce callback whenever the
    handle is set. *)
Definition dispatch (t : Trigger) : X unit :=
  match t with
  | Activate => activate
  | Deactivate => deactivate
  | IntervalElapsed =>
      g <- get ;;
      match timers g with
      | [] => ret tt
      | _ :: _ => refreshTimer_callback
      end
  | WindowState focused => windowState_listener focused
  | ConfigurationChanged a b => configuration_listener a b
  | SettingsEdited st interval =>
      modify (fun g =>
                mkGlobals (Watcher.set_settings st (core g))
                          (refreshTimer g) (isWindowFocused g)
                          (refreshCallback g) interval (timers g)
                          (next_timer g) (fs_calls g))
  | RefreshStats => refreshStats_command
  | OpenSettings => openSettings_command
  | OpenWebDashboard args => openWebDashboard_command args
  | ReloadClaudeConfig => reloadClaudeConfig_command
  | ManualReloadConfig => manualReloadConfig_command
  | FileEvent eventType filename =>
      g <- get ;;
      if fileWatcher (core g) then watch_listener eventType filename
      else ret tt
  | DebounceElapsed =>
      g <- get ;;
      if debounceTimer (core g) then debounce_callback else ret tt
  | WatcherFailed message =>
      g <- get ;;
      if fileWatcher (core g) then watch_error_listener message else ret tt
  end.

(** The triggers of a session, each handler run to its end before the
    next; an error a handler throws is the host's to report. *)
Fixpoint session (ts : list Trigger) : X unit :=
  match ts with
  | [] => ret tt
  | t :: rest =>
      try_catch (dispatch t) (fun _ => ret tt) ;;
      session rest
  end.

(** *** Reading a session *)

(** The events of the poller and the reconciler among the effects. *)
Definition core_events (effs : list Effect) : list (Event RelayUserData) :=
  flat_map (fun e => match e with
                     | Core c => [c]
                     | _ => []
                     end) effs.

(** The delays handed to [setInterval], in order. *)
Definition intervals_of (effs : list Effect) : list Formatter.number :=
  flat_map (fun e => match e with
                     | SetInterval _ ms => [ms]
                     | _ => []
                     end) effs.

(** What an effect does to the number of open file watchers. *)
Definition watcher_delta (e : Effect) : Z :=
  match e with
  | FsWatch _ true => 1
  | Core WatcherClose => -1
  | _ => 0
  end.

(** The file watchers a run opened, less those it closed. *)
Definition open_watchers (effs : list Effect) : Z :=
  fold_right (fun e n => watcher_delta e + n) 0 effs.

(** The timers and watchers of the host are accounted for: the interval
    timers that run are the one [refreshTimer] holds, if any, and [n], the
    number of open file watchers, is one or zero as [fileWatcher] is set or
    not. *)
Definition accounted (g : Globals) (n : Z) : Prop :=
  timers g = match refreshTimer g with
             | Some h => [h]
             | None => []
             end
  /\ n = Z.b2z (fileWatcher (core g)).

(** A computation that keeps them so. *)
Definition keeps {A} (c : X A) : Prop :=
  forall g n,
    accounted g n ->
    match c g with
    | (_, g', effs) => accounted g' (n + open_watchers effs)
    end.

(** The same on the poller's and the reconciler's side: what a run does to
    [fileWatcher] is what it closes. *)
Definition core_keeps {A} (m : Host.M RelayUserData A) : Prop :=
  forall s,
    match m s with
    | (_, s', evs) =>
        Z.b2z (fileWatcher s')
        = Z.b2z (fileWatcher s) + open_watchers (map Core evs)
    end.

(** The file watchers of a run, followed one effect at a time. Starting
    with a watcher open or not, as [opened] says: [Some b] when every
    [fs.watch] that succeeded found none open and every [close] found one
    open, [b] telling whether one is open at the end; [None] as soon as a
    watcher is opened beside another, or closed when none is open. *)
Fixpoint watcher_track (opened : bool) (effs : list Effect) : option bool :=
  match effs with
  | [] => Some opened
  | FsWatch _ true :: rest =>
      if opened then None else watcher_track true rest
  | Core WatcherClose :: rest =>
      if opened then watcher_track false rest else None
  | _ :: rest => watcher_track opened rest
  end.

(** A computation whose effects open and close in turn, from what
    [fileWatcher] says before to what it says after. *)
Definition tracks {A} (c : X A) : Prop :=
  forall g,
    match c g with
    | (_, g', effs) =>
        watcher_track (fileWatcher (core g)) effs
        = Some (fileWatcher (core g'))
    end.

Definition core_tracks {A} (m : Host.M RelayUserData A) : Prop :=
  forall s,
    match m s with
    | (_, s', evs) =>
        watcher_track (fileWatcher s) (map Core evs) = Some (fileWatcher s')
    end.

(** The warnings shown, in order. *)
Definition warnings_of (effs : list Effect) : list jsstring :=
  flat_map (fun e => match e with
                     | ShowWarningMessage msg _ => [msg]
                     | _ => []
                     end) effs.

(** The settings written one key at a time, in order. *)
Definition config_updates_of (effs : list Effect)
  : list (jsstring * jsstring) :=
  flat_map (fun e => match e with
                     | ConfigUpdate key value => [(key, value)]
                     | _ => []
                     end) effs.



End WithEnv.

Arguments ShowWarningMessage {RelayUserData} msg items.
Arguments ShowModalMessage {RelayUserData} msg items.
Arguments ConfigUpdate {RelayUserData} key value.
Arguments SetInterval {RelayUserData} handle ms.
Arguments ClearTimer {RelayUserData} handle.
Arguments SetTimeout {RelayUserData} ms.
Arguments ExistsSync {RelayUserData} path.
Arguments FsWatch {RelayUserData} path opened.
Arguments OpenExternal {RelayUserData} url.
Arguments Setup {RelayUserData} step.

End Extension.

(* ===================================================================== *)
(** ** Reading a run, continued *)
(* ===================================================================== *)

Module Observe.

Import Host.
Local Open Scope list_scope.

Section WithPayload.

Variable RelayUserData : Type.

Local Abbreviation Event := (Host.Event RelayUserData).

(** What a run shows the user, in order. *)
Definition shown (evs : list Event) : list Event :=
  filter (@Trace.is_user_facing RelayUserData) evs.

(** A run that shows the user nothing and writes no setting: it only
    logs, posts and waits. *)
Definition network_only (evs : list Event) : Prop :=
  shown evs = [] /\ Trace.writes_of evs = [].

(** The state with another key in the settings store, and a run's outcome
    with its final state so changed. *)
Definition with_apiKey (key : jsstring) (s : State) : State :=
  mkState
    (mkSettings (apiUrl (settings s)) (apiId (settings s)) key
                (watchClaudeSettings (settings s)))
    (fileWatcher s) (debounceTimer s) (posts s) (prompts s) (writes s).

Definition rekeyed {A : Type} (key : jsstring)
  (o : Res A * State * list Event) : Res A * State * list Event :=
  let '(r, s1, evs) := o in (r, with_apiKey key s1, evs).

(** A computation that runs the same whatever key the settings hold. *)
Definition key_blind {A : Type} (m : M RelayUserData A) : Prop :=
  forall key s, m (with_apiKey key s) = rekeyed key (m s).

End WithPayload.

(** The ID an [axios.post] to the key endpoint delivers when
    [getApiIdFromKey] accepts it: status 200, a body, [success] true and a
    non-empty [data.id]. *)
Definition key_payload (r : Settled ApiKeyResponse) : option jsstring :=
  match r with
  | Fulfilled status (Some (mkApiKeyResponse true (Some (c :: id)))) =>
      if (status =? 200)%Z then Some (c :: id) else None
  | _ => None
  end.

End Observe.

(* ===================================================================== *)
(** ** src/utils/formatter.ts, continued: large numbers and durations *)
(* ===================================================================== *)

Module FormatterMore.

Import Formatter.
Local Open Scope Q_scope.
Local Open Scope list_scope.

(** [x <= y] and [x < y]: false when either side is [NaN]. *)
Definition le (x y : number) : bool :=
  match x, y with
  | NaN, _ => false
  | _, NaN => false
  | _, _ => leb x y
  end.

Definition lt (x y : number) : bool :=
  match x, y with
  | NaN, _ => false
  | _, NaN => false
  | _, _ => negb (leb y x)
  end.

Definition Math_floor (x : number) : number :=
  match x with
  | Fin q => Fin (inject_Z (Qfloor q))
  | _ => x
  end.

(** The integer part of [q], rounding towards zero. *)
Definition truncate (q : Q) : Z :=
  if Qle_bool 0 q then Qfloor q else Qceiling q.

(** [x % y]: what is left of [x] after taking out [y] as many whole times
    as fit, counted towards zero. *)
Definition rem (x y : number) : number :=
  match x, y with
  | Fin a, Fin b =>
      if Qeq_bool b 0 then NaN
      else fin (a - inject_Z (truncate (a / b)) * b)
  | Fin _, Infinity _ => x
  | _, _ => NaN
  end.

(** [Math.pow(10, d)] for a count of decimals. *)
Definition Math_pow10 (d : nat) : number := lit (10 ^ Z.of_nat d).

(** The units of [formatLargeNumber], largest first. *)
Definition units : list (number * jsstring) :=
  [(lit 1000000000, js "B"); (lit 1000000, js "M"); (lit 1000, js "K")].

(** [decimals] and [rounded] in the body of the loop. *)
Definition decimals_for (value : number) : nat :=
  if lt value (lit 10) then 2%nat else 1%nat.

Definition rounded_for (value : number) : number :=
  let decimals := decimals_for value in
  div (Math_round (mul value (Math_pow10 decimals))) (Math_pow10 decimals).

(** The [for] loop of [formatLargeNumber]: the first unit the number
    reaches decides; [None] when the loop ends without returning. *)
Fixpoint scale (num : number) (us : list (number * jsstring))
  : option jsstring :=
  match us with
  | [] => None
  | (threshold, suffix) :: rest =>
      if le threshold num then
        let value := div num threshold in
        let decimals := decimals_for value in
        let rounded := rounded_for value in
        let formatted := toString (Number_ (toFixed rounded decimals)) in
        Some (formatted ++ suffix)
      else scale num rest
  end.

Definition formatLargeNumber (num : number) : jsstring :=
  if lt num (lit 1000) then toString num
  else
    match scale num units with
    | Some s => s
    | None => toString num
    end.

(** The four fields of [formatRemainingTime]. *)
Definition days_of (seconds : number) : number :=
  Math_floor (div seconds (lit 86400)).
Definition hours_of (seconds : number) : number :=
  Math_floor (div (rem seconds (lit 86400)) (lit 3600)).
Definition minutes_of (seconds : number) : number :=
  Math_floor (div (rem seconds (lit 3600)) (lit 60)).
Definition secs_of (seconds : number) : number :=
  Math_floor (rem seconds (lit 60)).

(** [if (n > 0) parts.push(`${n}unit`)] *)
Definition push_if_positive (n : number) (unit : jsstring)
  (parts : list jsstring) : list jsstring :=
  if lt (lit 0) n then parts ++ [toString n ++ unit] else parts.

Definition formatRemainingTime (seconds : number) : jsstring :=
  if le seconds (lit 0) then js "已过期"
  else
    let days := days_of seconds in
    let hours := hours_of seconds in
    let minutes := minutes_of seconds in
    let secs := secs_of seconds in
    let parts := [] in
    let parts := push_if_positive days (js "天") parts in
    let parts := push_if_positive hours (js "小时") parts in
    let parts := push_if_positive minutes (js "分") parts in
    let parts :=
      if lt (lit 0) secs || (List.length parts =? 0)%nat
      then parts ++ [toString secs ++ js "秒"]
      else parts in
    List.concat parts.

End FormatterMore.

(* ===================================================================== *)
(** ** src/handlers/statusBar.ts: the cost statistics *)
(* ===================================================================== *)

Module StatusBar.

Import Formatter.

(** [CostStats] *)
Record CostStats : Type := mkCostStats {
  used : number;
  limit : number;
  percentage : number;
  formattedUsed : jsstring;
  formattedLimit : jsstring;
  formattedPercentage : jsstring
}.

Definition calculateCostStats (used limit : number) : CostStats :=
  let percentage :=
    if FormatterMore.lt (lit 0) limit
    then mul (div used limit) (lit 100)
    else lit 0 in
  let clampedPercentage :=
    Math_max (lit 0) (Math_min (lit 100) percentage) in
  mkCostStats used limit clampedPercentage (formatCost used)
              (formatCost limit) (formatPercentage used limit).

(** The last line of [formatPercentage], on a percentage already
    clamped. *)
Definition render_percentage (clamped : number) : jsstring :=
  let rounded := div (Math_round (mul clamped (lit 100))) (lit 100) in
  toString (Number_ (toFixed rounded 2)).

End StatusBar.

(* ===================================================================== *)
(** ** scripts/release.js: the version bump *)
(* ===================================================================== *)

Module Release.

Import Formatter.
Local Open Scope list_scope.

(** [s.split(sep)] for a separator of one code unit; [cur] is the piece
    being read, reversed. *)
Fixpoint split_from (sep : N) (s cur : jsstring) : list jsstring :=
  match s with
  | [] => [rev cur]
  | c :: r =>
      if (c =? sep)%N then rev cur :: split_from sep r []
      else split_from sep r (c :: cur)
  end.

Definition split (s : jsstring) (sep : N) : list jsstring :=
  split_from sep s [].

(** [x + y] on numbers. *)
Definition add (x y : number) : number :=
  match x, y with
  | NaN, _ => NaN
  | _, NaN => NaN
  | Fin a, Fin b => fin (a + b)
  | Infinity s, Fin _ => Infinity s
  | Fin _, Infinity s => Infinity s
  | Infinity s, Infinity t => if Bool.eqb s t then Infinity s else NaN
  end.

(** [x + 1] and [`${x}`] on an array element that may be [undefined]. *)
Definition plus_one (x : option number) : number :=
  match x with
  | Some n => add n (lit 1)
  | None => NaN
  end.

Definition template (x : option number) : jsstring :=
  match x with
  | Some n => toString n
  | None => js "undefined"
  end.

(** What a run of [updateVersion] leaves: the value returned, the version
    written to [package.json], the line printed. *)
Record Bump : Type := mkBump {
  returned : jsstring;
  written : jsstring;
  printed : jsstring
}.

(** [updateVersion(type)], given the version [package.json] holds. The
    line is printed after [packageJson.version] has been assigned. *)
Definition updateVersion (type version : jsstring) : Bump :=
  let parts := map Number_ (split version 46%N) in
  let major := nth_error parts 0 in
  let minor := nth_error parts 1 in
  let patch := nth_error parts 2 in
  let newVersion :=
    if eqb type (js "major") then
      toString (plus_one major) ++ js ".0.0"
    else if eqb type (js "minor") then
      template major ++ js "." ++ toString (plus_one minor) ++ js ".0"
    else
      template major ++ js "." ++ template minor ++ js "."
      ++ toString (plus_one patch) in
  let packageJson_version := newVersion in
  mkBump newVersion packageJson_version
         (js "✅ 版本号已更新: " ++ packageJson_version ++ js " -> "
          ++ newVersion).

End Release.

(* ===================================================================== *)
(** ** More sample hosts *)
(* ===================================================================== *)

Module MoreSamples.

Import Host.

(** Settings with the given URL, the sample ID and the key "sk-1"; the
    watcher running, no debounce pending. *)
Definition with_id (url : jsstring) : State :=
  mkState (mkSettings url Samples.an_id Samples.sk_1 true) true false 0 0 0.

Definition settings_path : jsstring :=
  Eval vm_compute in js "/home/dev/.claude/settings.json".


(** Stand-ins for [ConfigManager.hasConfig] and for [String(error)]. *)
Definition hasConfig (st : Settings) : bool :=
  negb (falsy (apiUrl st)) && negb (falsy (apiKey st)).

Definition String_ (e : Thrown) : jsstring := of_opt (message_of e).

(** The healthy server of [Samples.env_up]; the credentials file is
    there and can be watched. *)
Definition platform_up : Extension.Platform unit :=
  Extension.mkPlatform Samples.env_up (fun _ => true) (fun _ => None).

(** The same, the credentials file holding a key but no URL. *)
Definition platform_partial : Extension.Platform unit :=
  Extension.mkPlatform Samples.env_up_partial (fun _ => true) (fun _ => None).


(** The extension running on [Samples.key_only]: watching, no timer. *)
Definition watching : Extension.Globals :=
  Extension.mkGlobals (Samples.key_only Samples.url_x) None true
    (Some Extension.updateStats_) (Formatter.lit 60) [] 0 0.

(** The healthy server of [Samples.env_up], the user clicking "use new
    configuration" on every prompt. *)
Definition env_up_accept : Env unit :=
  mkEnv (fun _ => Samples.stats_ok) (fun _ => Samples.key_ok)
        (fun _ => Some Watcher.useNewConfigButton) (fun _ => None)
        Samples.file_with_both.

(** Settings with a URL, an ID and a key, and with none of them. *)
Definition settings_full : Settings :=
  mkSettings Samples.url_x Samples.an_id Samples.sk_1 true.


End MoreSamples.

(* ===================================================================== *)
(** * Properties *)
(* ===================================================================== *)

Unset Implicit Arguments.

Arguments js : simpl never.
Arguments JsString.of_Z : simpl never.

(* ===================================================================== *)
(** ** Strings *)
(* ===================================================================== *)

Lemma eqb_eq a b : eqb a b = true <-> a = b.
Proof.
  unfold eqb; destruct (list_eq_dec N.eq_dec a b); split; congruence.
Qed.

Lemma eqb_refl a : eqb a a = true.
Proof. apply eqb_eq; reflexivity. Qed.

Lemma trimStart_all_white s : forallb is_white s = true -> trimStart s = [].
Proof.
  induction s as [|c r IH]; simpl; [reflexivity|].
  destruct (is_white c); simpl; [exact IH | discriminate].
Qed.

Lemma trimStart_nil_all_white s : trimStart s = [] -> forallb is_white s = true.
Proof.
  induction s as [|c r IH]; simpl; [reflexivity|].
  destruct (is_white c); simpl; [exact IH | discriminate].
Qed.

Lemma trimStart_head s c r : trimStart s = c :: r -> is_white c = false.
Proof.
  induction s as [|x s IH]; simpl; [discriminate|].
  destruct (is_white x) eqn:Ex; [exact IH|].
  intros H; injection H as -> _; exact Ex.
Qed.

(** A string trims to the empty string exactly when it is all white. *)
Lemma trim_nil_iff s : trim s = [] <-> forallb is_white s = true.
Proof.
  unfold trim, trimEnd. split.
  - intros H. apply trimStart_nil_all_white.
    apply (f_equal (@rev N)) in H. rewrite rev_involutive in H. simpl in H.
    apply trimStart_nil_all_white in H.
    destruct (trimStart s) as [|c r] eqn:E; [reflexivity|].
    apply trimStart_head in E.
    rewrite forallb_forall in H.
    rewrite (H c) in E; [discriminate|].
    apply in_rev. rewrite rev_involutive. left; reflexivity.
  - intros H. rewrite (trimStart_all_white _ H). reflexivity.
Qed.

Lemma includes_middle (a t b : jsstring) : includes (a ++ t ++ b) t.
Proof. exists a, b; reflexivity. Qed.

Lemma includes_suffix (a t : jsstring) : includes (a ++ t) t.
Proof. exists a, []; rewrite app_nil_r; reflexivity. Qed.

(* ===================================================================== *)
(** ** The configuration gate *)
(* ===================================================================== *)

Section GateFacts.

Import Gate.

Variable URL_protocol : jsstring -> option jsstring.

(** "Missing" is "empty or blank": every code unit is white space. *)
Lemma missing_iff_blank s : missing s = true <-> forallb is_white s = true.
Proof.
  unfold missing. rewrite orb_true_iff, eqb_eq, trim_nil_iff.
  split; [intros [H|H]; [|exact H] | intros H; right; exact H].
  destruct s; [reflexivity | discriminate].
Qed.

Lemma missing_false_iff s : missing s = false <-> forallb is_white s = false.
Proof.
  destruct (missing s) eqn:E, (forallb is_white s) eqn:F; split; try congruence.
  - apply missing_iff_blank in E; congruence.
  - intros _. apply missing_iff_blank in F; congruence.
Qed.

(** The branch taken when the URL is missing. *)
Lemma validateApiConfig_url_missing apiUrl apiId apiKey :
  missing apiUrl = true ->
  validateApiConfig URL_protocol apiUrl apiId apiKey =
  if missing apiId && missing_opt apiKey
  then invalid "API URL 和 API ID/Key 都未配置，请在设置中配置" both_
  else invalid "API URL 不能为空，请在设置中配置" apiUrl_.
Proof. intros H. unfold validateApiConfig. rewrite H. reflexivity. Qed.

(** C3. URL-first precedence: with an empty URL, empty ID and empty key the
    gate reports 'both'; with an empty URL and ID "x" it reports 'apiUrl';
    and whenever the URL is empty or blank the result is invalid and names
    'both' if ID and key are both missing as well, 'apiUrl' otherwise. *)
Theorem validateApiConfig_url_first :
  (let r := validateApiConfig URL_protocol (js "") (js "") (Some (js "")) in
   valid r = false /\ missingConfig r = Some both_)
  /\ (let r := validateApiConfig URL_protocol (js "") (js "x") (Some (js "")) in
      valid r = false /\ missingConfig r = Some apiUrl_)
  /\ (forall apiUrl apiId apiKey,
        forallb is_white apiUrl = true ->
        let r := validateApiConfig URL_protocol apiUrl apiId apiKey in
        valid r = false
        /\ missingConfig r =
           Some (if missing apiId && missing_opt apiKey then both_ else apiUrl_)).
Proof.
  split; [|split].
  - split; reflexivity.
  - split; reflexivity.
  - intros apiUrl apiId apiKey H. apply missing_iff_blank in H.
    cbv zeta. rewrite (validateApiConfig_url_missing apiUrl apiId apiKey H).
    destruct (missing apiId && missing_opt apiKey); split; reflexivity.
Qed.

(** Past the URL-missing branch, a URL that does not parse, or whose
    protocol does not begin with "http", is reported as 'apiUrl'. *)
Lemma validateApiConfig_url_rejected apiUrl apiId apiKey :
  missing apiUrl = false ->
  match URL_protocol apiUrl with
  | None => True
  | Some p => startsWith p (js "http") = false
  end ->
  let r := validateApiConfig URL_protocol apiUrl apiId apiKey in
  valid r = false /\ missingConfig r = Some apiUrl_.
Proof.
  intros Hm Hp. unfold validateApiConfig. rewrite Hm.
  destruct (URL_protocol apiUrl) as [p|]; [|split; reflexivity].
  rewrite Hp. split; reflexivity.
Qed.

(** Past the URL-missing branch, a URL that parses with a protocol
    beginning with "http" passes the URL check: what remains is the
    ID-or-key check and the shape of the ID. *)
Lemma validateApiConfig_url_accepted apiUrl apiId apiKey p :
  missing apiUrl = false ->
  URL_protocol apiUrl = Some p ->
  startsWith p (js "http") = true ->
  validateApiConfig URL_protocol apiUrl apiId apiKey =
  if missing apiId && missing_opt apiKey then
    invalid "API ID 或 API Key 至少需要配置一个，请在设置中配置" apiId_
  else if negb (missing apiId) && negb (uuidRegex_test apiId) then
    invalid
      "API ID 格式无效，应为 UUID 格式（例如：34arr92a-cb42-58op-56op-ggy15rt9878c）"
      apiId_
  else mkValidation true None None.
Proof.
  intros Hm Hp Hs. unfold validateApiConfig. rewrite Hm, Hp, Hs. reflexivity.
Qed.

(** The URL check as a whole. For a URL that is not blank: if it fails to
    parse, or parses with a protocol that does not begin with "http", the
    gate returns invalid with 'apiUrl'; if it parses with protocol "http:"
    or "https:" the URL check passes and the result is valid or names
    'apiId'. A blank URL, empty or not, never reaches the parser. *)
Theorem validateApiConfig_url_format apiUrl apiId apiKey :
  let r := validateApiConfig URL_protocol apiUrl apiId apiKey in
  (forallb is_white apiUrl = false ->
   match URL_protocol apiUrl with
   | None => valid r = false /\ missingConfig r = Some apiUrl_
   | Some p =>
       (startsWith p (js "http") = false ->
        valid r = false /\ missingConfig r = Some apiUrl_)
       /\ (p = js "http:" \/ p = js "https:" ->
           missingConfig r = (if valid r then None else Some apiId_))
   end)
  /\ (forallb is_white apiUrl = true ->
      valid r = false
      /\ missingConfig r =
         Some (if missing apiId && missing_opt apiKey then both_ else apiUrl_)).
Proof.
  cbv zeta. split.
  - intros Hb. apply missing_false_iff in Hb.
    destruct (URL_protocol apiUrl) as [p|] eqn:Hp.
    + split.
      * intros Hs.
        apply (validateApiConfig_url_rejected apiUrl apiId apiKey Hb).
        rewrite Hp. exact Hs.
      * intros Hs.
        assert (Hh : startsWith p (js "http") = true)
          by (destruct Hs as [-> | ->]; reflexivity).
        rewrite (validateApiConfig_url_accepted apiUrl apiId apiKey p Hb Hp Hh).
        destruct (missing apiId && missing_opt apiKey); [reflexivity|].
        destruct (negb (missing apiId) && negb (uuidRegex_test apiId));
          reflexivity.
    + apply (validateApiConfig_url_rejected apiUrl apiId apiKey Hb).
      rewrite Hp. exact I.
  - intros Hb. apply missing_iff_blank in Hb.
    rewrite (validateApiConfig_url_missing apiUrl apiId apiKey Hb).
    destruct (missing apiId && missing_opt apiKey); split; reflexivity.
Qed.

End GateFacts.

(** The gate run on the scheme scanner: blank and ill-formed URLs. *)
Lemma validateApiConfig_url_first_witness :
  let r := Gate.validateApiConfig Whatwg.protocol_of (js "  ") (js "x") None in
  Gate.valid r = false /\ Gate.missingConfig r = Some Gate.apiUrl_.
Proof.
  apply (proj2 (proj2 (validateApiConfig_url_first Whatwg.protocol_of))
               (js "  ") (js "x") None).
  reflexivity.
Defined.

Lemma validateApiConfig_url_format_witness :
  let r := Gate.validateApiConfig Whatwg.protocol_of (js "ftp://example.com")
             (js "") (Some (js "sk-1")) in
  Gate.valid r = false /\ Gate.missingConfig r = Some Gate.apiUrl_.
Proof.
  exact (proj1
           (proj1 (validateApiConfig_url_format Whatwg.protocol_of
                     (js "ftp://example.com") (js "") (Some (js "sk-1")))
                  eq_refl)
           eq_refl).
Defined.

(** C6. The code breaks the claim on a scheme that merely begins with
    "http". The protocol test is [url.protocol.startsWith('http')], so the
    URL "httpx://example.com", which parses with protocol "httpx:", passes
    it, and with a well-formed ID the gate says valid. The claim allows
    http and https only, and so does the gate's own message for this
    branch: "API URL 必须是有效的 HTTP 或 HTTPS 地址". *)
Lemma validateApiConfig_accepts_httpx :
  Whatwg.protocol_of (js "httpx://example.com") = Some (js "httpx:")
  /\ Gate.validateApiConfig Whatwg.protocol_of (js "httpx://example.com")
       (js "12345678-1234-1234-1234-123456789abc") None
     = Gate.mkValidation true None None.
Proof. split; reflexivity. Qed.

(* ===================================================================== *)
(** ** The poller *)
(* ===================================================================== *)

Section PollerFacts.

Import Gate Host Poller Trace.
Local Open Scope list_scope.

Variable RelayUserData : Type.
Variable URL_protocol : jsstring -> option jsstring.
Variable env : Env RelayUserData.

Local Abbreviation Event := (Host.Event RelayUserData).

Lemma posts_of_app (a b : list Event) :
  posts_of (a ++ b) = posts_of a ++ posts_of b.
Proof. apply flat_map_app. Qed.

Lemma posts_of_cons (e : Event) (l : list Event) :
  posts_of (e :: l) = posts_of [e] ++ posts_of l.
Proof. cbn [posts_of flat_map]. rewrite app_nil_r. reflexivity. Qed.

Lemma waits_of_app (a b : list Event) :
  waits_of (a ++ b) = waits_of a ++ waits_of b.
Proof. apply flat_map_app. Qed.

Lemma logs_no_posts (l : list Event) :
  forallb (@is_log RelayUserData) l = true -> posts_of l = [] /\ waits_of l = [].
Proof.
  induction l as [|e l IH]; simpl; [split; reflexivity|].
  rewrite andb_true_iff. intros [He Hl]. destruct (IH Hl) as [IH1 IH2].
  destruct e; try discriminate; simpl; rewrite ?IH1, ?IH2; split; reflexivity.
Qed.

(** One call of [fetchRelayStats]: exactly one request, to the stats
    endpoint and carrying the ID, no wait; it returns the payload when the
    reply is acceptable and throws otherwise. *)
Lemma fetchRelayStats_run apiUrl apiId s :
  exists r evs,
    fetchRelayStats env apiUrl apiId s = (r, count_post s, evs)
    /\ posts_of evs
       = [(apiUrl ++ js "/apiStats/api/user-stats", body_apiId apiId)]
    /\ waits_of evs = []
    /\ match reply_payload (stats_reply env (posts s)) with
       | Some d => r = Ret d
       | None => exists e, r = Throw e
       end.
Proof.
  unfold fetchRelayStats, try_catch, bind, axios_post_stats, log, emit,
    reply_payload.
  destruct (stats_reply env (posts s)) as [status [d|] | e].
  - destruct (status =? 200)%Z eqn:E200; cbn.
    + destruct (success d); cbn.
      * do 2 eexists. repeat split.
      * do 2 eexists. repeat split. eexists; reflexivity.
    + do 2 eexists. repeat split. eexists; reflexivity.
  - destruct (status =? 200)%Z eqn:E200; cbn.
    + do 2 eexists. repeat split. eexists; reflexivity.
    + do 2 eexists. repeat split. eexists; reflexivity.
  - destruct e as [m | m [st|] [|] | ]; cbn;
      do 2 eexists; repeat split; eexists; reflexivity.
Qed.

Lemma backoff_S d m : backoff d (S m) = d :: backoff (d * 2) m.
Proof.
  unfold backoff. simpl. f_equal; [ring|].
  rewrite <- seq_shift, map_map. apply map_ext. intros k.
  rewrite Nat2Z.inj_succ, Z.pow_succ_r by lia. ring.
Qed.

Lemma backoff_length d m : List.length (backoff d m) = m.
Proof. unfold backoff. rewrite length_map, length_seq. reflexivity. Qed.

(** The k-th wait, counting from 1, lasts [d * 2^(k-1)]. *)
Lemma backoff_nth d m k :
  (1 <= k <= m)%nat ->
  nth_error (backoff d m) (k - 1) = Some (d * 2 ^ (Z.of_nat k - 1)).
Proof.
  intros Hk. unfold backoff.
  rewrite nth_error_map, nth_error_seq.
  destruct (Nat.ltb_spec (k - 1) m); [|lia]. simpl.
  do 3 f_equal. lia.
Qed.

Lemma posts_iter k s : posts (Nat.iter k count_post s) = (posts s + k)%nat.
Proof.
  induction k as [|k IH]; simpl; [lia|]. rewrite IH. lia.
Qed.

Lemma iter_count_post k s :
  Nat.iter k count_post (count_post s) = Nat.iter (S k) count_post s.
Proof. induction k as [|k IH]; simpl; [reflexivity|]. rewrite IH. reflexivity. Qed.

Section Retry.

Variables apiUrl apiId : jsstring.
Variable maxRetries : Z.

Let stats_post : jsstring * Body :=
  (apiUrl ++ js "/apiStats/api/user-stats", body_apiId apiId).

(** When the next [fuel] replies are all unacceptable, the loop makes [fuel]
    requests, waits between consecutive ones with doubling delays, and
    ends in the statement after the loop with the last error caught. *)
Lemma retry_loop_all_fail fuel : forall attempt retryDelay lastError s,
  attempt + Z.of_nat fuel = maxRetries + 1 ->
  (forall k, (k < fuel)%nat ->
             reply_payload (stats_reply env (posts s + k)) = None) ->
  exists evs last,
    retry_loop env fuel apiUrl apiId maxRetries attempt retryDelay lastError s
    = (Throw (retries_exhausted maxRetries last),
       Nat.iter fuel count_post s, evs)
    /\ posts_of evs = repeat stats_post fuel
    /\ waits_of evs = backoff retryDelay (fuel - 1)
    /\ match fuel with
       | O => last = lastError
       | S m =>
           exists e s_last evs_last,
             fetchRelayStats env apiUrl apiId (Nat.iter m count_post s)
             = (Throw e, s_last, evs_last)
             /\ last = Some e
       end.
Proof.
  induction fuel as [|fuel IH]; intros attempt retryDelay lastError s Hfuel Hfail.
  - exists [], lastError. simpl. repeat split.
  - cbn [retry_loop].
    destruct (Z.leb_spec attempt maxRetries) as [Hle|Hgt]; [|lia].
    destruct (fetchRelayStats_run apiUrl apiId s)
      as (r & ev1 & Hrun & Hposts & Hwaits & Hres).
    rewrite <- (Nat.add_0_r (posts s)), (Hfail 0%nat) in Hres by lia.
    destruct Hres as [e ->].
    assert (Hfail' : forall k, (k < fuel)%nat ->
              reply_payload (stats_reply env (posts (count_post s) + k)) = None).
    { intros k Hk.
      replace (posts (count_post s) + k)%nat with (posts s + S k)%nat
        by (cbn [posts count_post]; lia).
      apply Hfail. lia. }
    unfold bind at 1, try_catch at 1, log at 1, emit at 1.
    rewrite Hrun. unfold bind at 1, logError at 1, emit at 1.
    destruct (Z.ltb_spec attempt maxRetries) as [Hlt|Hge].
    + destruct (IH (attempt + 1) (retryDelay * 2) (Some e) (count_post s))
        as (ev2 & last & Hloop & Hp2 & Hw2 & Hlast); [lia | exact Hfail' |].
      unfold bind, log, sleep, emit. rewrite Hloop.
      rewrite iter_count_post.
      eexists; exists last. split; [reflexivity|].
      destruct fuel as [|m]; [lia|].
      split; [|split].
      * rewrite !posts_of_app, Hposts, Hp2. reflexivity.
      * rewrite !waits_of_app, Hwaits, Hw2. cbn [waits_of flat_map app].
        replace (S (S m) - 1)%nat with (S (S m - 1)) by lia.
        rewrite backoff_S. reflexivity.
      * rewrite iter_count_post in Hlast. exact Hlast.
    + assert (fuel = 0%nat) by lia. subst fuel. cbn [retry_loop Nat.iter].
      unfold throw.
      eexists; exists (Some e). split; [reflexivity|].
      split; [|split].
      * rewrite !posts_of_app, Hposts. reflexivity.
      * rewrite !waits_of_app, Hwaits. reflexivity.
      * do 3 eexists. split; [exact Hrun | reflexivity].
Qed.

(** When the first [j] replies are unacceptable and the next one is
    acceptable, the loop returns its payload after [j + 1] requests and
    [j] waits. *)
Lemma retry_loop_success j : forall fuel attempt retryDelay lastError s p,
  (j < fuel)%nat ->
  attempt + Z.of_nat fuel = maxRetries + 1 ->
  (forall k, (k < j)%nat ->
             reply_payload (stats_reply env (posts s + k)) = None) ->
  reply_payload (stats_reply env (posts s + j)) = Some p ->
  exists evs,
    retry_loop env fuel apiUrl apiId maxRetries attempt retryDelay lastError s
    = (Ret p, Nat.iter (S j) count_post s, evs)
    /\ posts_of evs = repeat stats_post (S j)
    /\ waits_of evs = backoff retryDelay j.
Proof.
  induction j as [|j IH];
    intros fuel attempt retryDelay lastError s p Hj Hfuel Hfail Hok;
    (destruct fuel as [|fuel]; [lia|]); cbn [retry_loop];
    (destruct (Z.leb_spec attempt maxRetries) as [Hle|Hgt]; [|lia]);
    destruct (fetchRelayStats_run apiUrl apiId s)
      as (r & ev1 & Hrun & Hposts & Hwaits & Hres);
    unfold try_catch at 1, bind at 1, log at 1, emit at 1; rewrite Hrun.
  - rewrite Nat.add_0_r in Hok. rewrite Hok in Hres. subst r.
    eexists. split; [reflexivity|]. split.
    + rewrite !posts_of_app, Hposts. reflexivity.
    + rewrite !waits_of_app, Hwaits. reflexivity.
  - rewrite <- (Nat.add_0_r (posts s)), (Hfail 0%nat) in Hres by lia.
    destruct Hres as [e ->].
    unfold bind at 1, logError at 1, emit at 1.
    destruct (Z.ltb_spec attempt maxRetries) as [Hlt|Hge]; [|lia].
    destruct (IH fuel (attempt + 1) (retryDelay * 2) (Some e) (count_post s) p)
      as (ev2 & Hloop & Hp2 & Hw2); [lia | lia | | |].
    + intros k Hk.
      replace (posts (count_post s) + k)%nat with (posts s + S k)%nat
        by (cbn [posts count_post]; lia).
      apply Hfail. lia.
    + replace (posts (count_post s) + j)%nat with (posts s + S j)%nat
        by (cbn [posts count_post]; lia).
      exact Hok.
    + unfold bind, log, sleep, emit. rewrite Hloop, iter_count_post.
      eexists. split; [reflexivity|]. split.
      * rewrite !posts_of_app, Hposts, Hp2. reflexivity.
      * rewrite !waits_of_app, Hwaits, Hw2. cbn [waits_of flat_map app].
        rewrite backoff_S. reflexivity.
Qed.

(** The loop throws only after every one of its remaining attempts has
    failed. *)
Lemma retry_loop_throw_inv fuel :
  forall attempt retryDelay lastError s err s' evs,
  attempt + Z.of_nat fuel = maxRetries + 1 ->
  retry_loop env fuel apiUrl apiId maxRetries attempt retryDelay lastError s
  = (Throw err, s', evs) ->
  forall k, (k < fuel)%nat ->
            reply_payload (stats_reply env (posts s + k)) = None.
Proof.
  induction fuel as [|fuel IH];
    intros attempt retryDelay lastError s err s' evs Hfuel Hrun k Hk; [lia|].
  cbn [retry_loop] in Hrun.
  destruct (Z.leb_spec attempt maxRetries) as [Hle|Hgt]; [|lia].
  destruct (fetchRelayStats_run apiUrl apiId s)
    as (r & ev1 & Hfetch & _ & _ & Hres).
  unfold try_catch at 1, bind at 1, log at 1, emit at 1 in Hrun.
  rewrite Hfetch in Hrun.
  destruct (reply_payload (stats_reply env (posts s))) as [d|] eqn:Hrep.
  - subst r. discriminate Hrun.
  - destruct Hres as [e ->].
    destruct k as [|k]; [rewrite Nat.add_0_r; exact Hrep|].
    unfold bind at 1, logError at 1, emit at 1 in Hrun.
    replace (posts s + S k)%nat with (posts (count_post s) + k)%nat
      by (cbn [posts count_post]; lia).
    destruct (Z.ltb_spec attempt maxRetries) as [Hlt|Hge].
    + unfold bind, log, sleep, emit in Hrun.
      destruct (retry_loop env fuel apiUrl apiId maxRetries (attempt + 1)
                  (retryDelay * 2) (Some e) (count_post s))
        as [[r2 s2] ev2] eqn:Hloop.
      destruct r2 as [d|e2]; [discriminate Hrun|].
      eapply (IH (attempt + 1)); [ | exact Hloop | ]; lia.
    + lia.
Qed.

(** C1. With [maxRetries = n >= 1] and initial delay [d]: if every attempt
    fails, the call makes exactly [n] requests and exactly [n - 1] waits,
    the k-th wait lasting [d * 2^(k-1)] ms, and throws; if the first [j]
    attempts fail and the next succeeds, it returns that attempt's payload
    after [j + 1] requests and [j] waits, and nothing further is requested
    or waited for. *)
Theorem fetchRelayStatsWithRetry_backoff retryDelay s r s' evs :
  1 <= maxRetries ->
  fetchRelayStatsWithRetry env apiUrl apiId maxRetries retryDelay s
  = (r, s', evs) ->
  let n := Z.to_nat maxRetries in
  ((forall k, (k < n)%nat ->
              reply_payload (stats_reply env (posts s + k)) = None) ->
   (exists e, r = Throw e)
   /\ posts_of evs
      = repeat (apiUrl ++ js "/apiStats/api/user-stats", body_apiId apiId) n
   /\ List.length (waits_of evs) = (n - 1)%nat
   /\ (forall k, (1 <= k <= n - 1)%nat ->
                 nth_error (waits_of evs) (k - 1)
                 = Some (retryDelay * 2 ^ (Z.of_nat k - 1)))
   /\ posts s' = (posts s + n)%nat)
  /\ (forall j p,
        (j < n)%nat ->
        (forall k, (k < j)%nat ->
                   reply_payload (stats_reply env (posts s + k)) = None) ->
        reply_payload (stats_reply env (posts s + j)) = Some p ->
        r = Ret p
        /\ posts_of evs
           = repeat (apiUrl ++ js "/apiStats/api/user-stats", body_apiId apiId)
                    (S j)
        /\ waits_of evs = backoff retryDelay j
        /\ posts s' = (posts s + S j)%nat).
Proof.
  intros Hn Hrun n. unfold fetchRelayStatsWithRetry in Hrun. fold n in Hrun.
  assert (Hfuel : 1 + Z.of_nat n = maxRetries + 1) by (unfold n; lia).
  split.
  - intros Hfail.
    destruct (retry_loop_all_fail n 1 retryDelay None s Hfuel Hfail)
      as (evs0 & last & Hloop & Hp & Hw & _).
    rewrite Hloop in Hrun. injection Hrun as <- <- <-.
    split; [eexists; reflexivity|].
    split; [exact Hp|].
    split; [rewrite Hw; apply backoff_length|].
    split; [intros k Hk; rewrite Hw; apply backoff_nth; exact Hk|].
    apply posts_iter.
  - intros j p Hj Hfail Hok.
    destruct (retry_loop_success j n 1 retryDelay None s p Hj Hfuel Hfail Hok)
      as (evs0 & Hloop & Hp & Hw).
    rewrite Hloop in Hrun. injection Hrun as <- <- <-.
    split; [reflexivity|]. split; [exact Hp|]. split; [exact Hw|].
    apply (posts_iter (S j)).
Qed.

(** C7. When all [maxRetries] attempts fail the call throws an [Error]
    whose message contains the attempt count and the message of the error
    the last attempt threw; and whenever the call throws, all [maxRetries]
    attempts have been made and have failed. *)
Theorem fetchRelayStatsWithRetry_exhausted retryDelay s r s' evs :
  1 <= maxRetries ->
  fetchRelayStatsWithRetry env apiUrl apiId maxRetries retryDelay s
  = (r, s', evs) ->
  let n := Z.to_nat maxRetries in
  ((forall k, (k < n)%nat ->
              reply_payload (stats_reply env (posts s + k)) = None) ->
   exists e s_last evs_last msg,
     fetchRelayStats env apiUrl apiId (Nat.iter (n - 1) count_post s)
     = (Throw e, s_last, evs_last)
     /\ r = Throw (JsError msg)
     /\ msg = js "API 请求失败，已重试 " ++ JsString.of_Z maxRetries
              ++ js " 次。最后错误：" ++ of_opt (message_of e)
     /\ includes msg (JsString.of_Z maxRetries)
     /\ includes msg (of_opt (message_of e)))
  /\ (forall err, r = Throw err ->
        List.length (posts_of evs) = n
        /\ forall k, (k < n)%nat ->
                     reply_payload (stats_reply env (posts s + k)) = None).
Proof.
  intros Hn Hrun n. unfold fetchRelayStatsWithRetry in Hrun. fold n in Hrun.
  assert (Hfuel : 1 + Z.of_nat n = maxRetries + 1) by (unfold n; lia).
  assert (Hall : (forall k, (k < n)%nat ->
              reply_payload (stats_reply env (posts s + k)) = None) ->
      List.length (posts_of evs) = n /\
      exists e s_last evs_last,
        fetchRelayStats env apiUrl apiId (Nat.iter (n - 1) count_post s)
        = (Throw e, s_last, evs_last)
        /\ r = Throw (retries_exhausted maxRetries (Some e))).
  { intros Hfail.
    destruct (retry_loop_all_fail n 1 retryDelay None s Hfuel Hfail)
      as (evs0 & last & Hloop & Hp & _ & Hlast).
    rewrite Hloop in Hrun. injection Hrun as <- <- <-.
    split; [rewrite Hp; apply repeat_length|].
    destruct n as [|m] eqn:En; [lia|].
    destruct Hlast as (e & s_last & evs_last & Hfetch & ->).
    replace (S m - 1)%nat with m by lia.
    exists e, s_last, evs_last. split; [exact Hfetch | reflexivity]. }
  split.
  - intros Hfail.
    destruct (Hall Hfail) as (_ & e & s_last & evs_last & Hfetch & ->).
    exists e, s_last, evs_last. eexists.
    split; [exact Hfetch|]. split; [reflexivity|]. split; [reflexivity|].
    split.
    + apply includes_middle.
    + rewrite !app_assoc. apply includes_suffix.
  - intros err ->.
    assert (Hfail := retry_loop_throw_inv n 1 retryDelay None s err s' evs
                       Hfuel Hrun).
    split; [apply (Hall Hfail) | exact Hfail].
Qed.

End Retry.

(** Whatever the replies, the retrying fetch makes between one and
    [maxRetries] requests, all of them the same stats request. *)
Lemma retry_loop_posts apiUrl apiId maxRetries fuel :
  forall attempt retryDelay lastError s,
  attempt + Z.of_nat fuel = maxRetries + 1 ->
  exists r s' evs m,
    retry_loop env fuel apiUrl apiId maxRetries attempt retryDelay lastError s
    = (r, s', evs)
    /\ posts_of evs
       = repeat (apiUrl ++ js "/apiStats/api/user-stats", body_apiId apiId) m
    /\ (m <= fuel)%nat /\ (fuel <> 0%nat -> m <> 0%nat).
Proof.
  induction fuel as [|fuel IH]; intros attempt retryDelay lastError s Hfuel.
  - do 3 eexists. exists 0%nat.
    split; [reflexivity|]. split; [reflexivity|]. split; [lia | intros H; exact H].
  - cbn [retry_loop].
    destruct (Z.leb_spec attempt maxRetries) as [Hle|Hgt]; [|lia].
    destruct (fetchRelayStats_run apiUrl apiId s)
      as (r & ev1 & Hrun & Hposts & _ & _).
    unfold try_catch at 1, bind at 1, log at 1, emit at 1. rewrite Hrun.
    destruct r as [d|e].
    + do 3 eexists. exists 1%nat. split; [reflexivity|].
      split; [|lia]. rewrite !posts_of_app, Hposts. reflexivity.
    + unfold bind at 1, logError at 1, emit at 1.
      destruct (Z.ltb_spec attempt maxRetries) as [Hlt|Hge].
      * destruct (IH (attempt + 1) (retryDelay * 2) (Some e) (count_post s))
          as (r2 & s2 & ev2 & m & Hloop & Hp2 & Hm & _); [lia|].
        unfold bind, log, sleep, emit. rewrite Hloop.
        do 3 eexists. exists (S m). split; [reflexivity|].
        split; [|lia]. rewrite !posts_of_app, Hposts, Hp2. reflexivity.
      * destruct (IH (attempt + 1) retryDelay (Some e) (count_post s))
          as (r2 & s2 & ev2 & m & Hloop & Hp2 & Hm & _); [lia|].
        rewrite Hloop.
        do 3 eexists. exists (S m). split; [reflexivity|].
        split; [|lia]. rewrite !posts_of_app, Hposts, Hp2. reflexivity.
Qed.

(** One call of [getApiIdFromKey]: exactly one request, to the key
    endpoint and carrying the key. *)
Lemma getApiIdFromKey_run apiUrl apiKey s :
  exists r evs,
    getApiIdFromKey env apiUrl apiKey s = (r, count_post s, evs)
    /\ posts_of evs
       = [(apiUrl ++ js "/apiStats/api/get-key-id", body_apiKey apiKey)].
Proof.
  unfold getApiIdFromKey, try_catch, bind, axios_post_key, log, emit.
  destruct (key_reply env (posts s)) as [status d | e].
  - destruct (status =? 200)%Z eqn:E200; cbn.
    + destruct d as [[[|] [[|c id]|]]|]; cbn; do 2 eexists; repeat split.
    + do 2 eexists; repeat split.
  - destruct e as [m | m [st|] [|] | ]; cbn; do 2 eexists; repeat split.
Qed.

(** The condition under which [updateStats] exchanges the key for an ID. *)
Lemma resolve_condition id key :
  (falsy id || eqb (trim id) []) && negb (falsy key) && negb (eqb (trim key) [])
  = missing id && negb (missing key).
Proof.
  unfold missing. rewrite negb_orb, andb_assoc. reflexivity.
Qed.

(** A configuration the gate accepts has an ID or a key. *)
Lemma valid_has_id_or_key url id key :
  valid (validateApiConfig URL_protocol url id (Some key)) = true ->
  missing id = true -> missing key = false.
Proof.
  unfold validateApiConfig. intros Hv Hid. rewrite Hid in Hv.
  destruct (missing url); [destruct (true && missing_opt (Some key)); discriminate|].
  destruct (URL_protocol url) as [p|]; [|discriminate].
  destruct (negb (startsWith p (js "http"))); [discriminate|].
  cbn [missing_opt andb] in Hv.
  destruct (missing key); [discriminate | reflexivity].
Qed.

Lemma bind_inv {A B} (m : M RelayUserData A) (k : A -> M RelayUserData B)
  s r s' evs :
  bind m k s = (r, s', evs) ->
  (exists a s1 e1 e2,
      m s = (Ret a, s1, e1) /\ k a s1 = (r, s', e2) /\ evs = e1 ++ e2)
  \/ (exists e, m s = (Throw e, s', evs) /\ r = Throw e).
Proof.
  unfold bind. destruct (m s) as [[[a|e] s1] e1].
  - destruct (k a s1) as [[r2 s2] e2] eqn:Hk. intros H; injection H as <- <- <-.
    left. exists a, s1, e1, e2. repeat split. exact Hk.
  - intros H; injection H as <- <- <-. right. exists e. split; reflexivity.
Qed.

Lemma try_catch_inv {A} (m : M RelayUserData A) (h : Thrown -> M RelayUserData A)
  s r s' evs :
  try_catch m h s = (r, s', evs) ->
  (exists a, m s = (Ret a, s', evs) /\ r = Ret a)
  \/ (exists e s1 e1 e2,
        m s = (Throw e, s1, e1) /\ h e s1 = (r, s', e2) /\ evs = e1 ++ e2).
Proof.
  unfold try_catch. destruct (m s) as [[[a|e] s1] e1].
  - intros H; injection H as <- <- <-. left. exists a. split; reflexivity.
  - destruct (h e s1) as [[r2 s2] e2] eqn:Hh. intros H; injection H as <- <- <-.
    right. exists e, s1, e1, e2. repeat split. exact Hh.
Qed.

(** The key-to-id step: when the ID is missing and the key is not, one
    request to the key endpoint, the ID being what [getApiIdFromKey]
    returns; otherwise no request and the configured ID. *)
Lemma resolveApiId_run cfg s :
  exists r s1 ev,
    resolveApiId env cfg s = (r, s1, ev)
    /\ if missing (apiId cfg) && negb (missing (apiKey cfg)) then
         posts_of ev
         = [(apiUrl cfg ++ js "/apiStats/api/get-key-id",
             body_apiKey (apiKey cfg))]
         /\ match getApiIdFromKey env (apiUrl cfg) (apiKey cfg) s with
            | (Ret id, _, _) => r = Ret id
            | (Throw _, _, _) => exists e, r = Throw e
            end
       else r = Ret (apiId cfg) /\ ev = [].
Proof.
  unfold resolveApiId. rewrite resolve_condition.
  destruct (missing (apiId cfg) && negb (missing (apiKey cfg))).
  - destruct (getApiIdFromKey_run (apiUrl cfg) (apiKey cfg) s)
      as (r1 & evk & Hk & Hpk).
    unfold try_catch, bind, log, logError, emit, ret, throw. rewrite Hk.
    destruct r1 as [id|e].
    + do 3 eexists. split; [reflexivity|]. split; [|reflexivity].
      rewrite !posts_of_app, Hpk. reflexivity.
    + do 3 eexists. split; [reflexivity|]. split; [|eexists; reflexivity].
      rewrite !posts_of_app, Hpk. reflexivity.
  - do 3 eexists. split; [reflexivity|]. split; reflexivity.
Qed.

(** What follows the key-to-id step in [updateStats]: between one and three
    stats requests carrying the ID in use. *)
Lemma fetch_and_render_run url id s :
  exists r s1 ev m,
    bind (showLoadingStatus RelayUserData)
      (fun _ =>
         bind (fetchRelayStatsWithRetry env url id 3 1000)
           (fun d =>
              bind (updateStatusBar d url id)
                (fun _ => log RelayUserData (js "[日志] 统计数据更新成功")))) s
    = (r, s1, ev)
    /\ (1 <= m <= 3)%nat
    /\ posts_of ev
       = repeat (url ++ js "/apiStats/api/user-stats", body_apiId id) m.
Proof.
  destruct (retry_loop_posts url id 3 3 1 1000 None s eq_refl)
    as (r & s1 & ev & m & Hloop & Hp & Hm & Hm0).
  unfold bind, showLoadingStatus, updateStatusBar, log, emit,
    fetchRelayStatsWithRetry.
  change (Z.to_nat 3) with 3%nat. rewrite Hloop.
  assert (m <> 0%nat) by (apply Hm0; discriminate).
  assert (1 <= m <= 3)%nat by lia.
  destruct r as [d|e].
  - do 3 eexists. exists m. split; [reflexivity|]. split; [assumption|].
    rewrite !posts_of_app, Hp. cbn. rewrite app_nil_r. reflexivity.
  - do 3 eexists. exists m. split; [reflexivity|]. split; [assumption|].
    rewrite !posts_of_app, Hp. reflexivity.
Qed.

Lemma updateStats_catch_run error s :
  exists evs,
    updateStats_catch RelayUserData error s = (Ret tt, s, evs)
    /\ posts_of evs = [].
Proof. eexists. split; reflexivity. Qed.

(** C4, as the code has it. A refresh cycle always completes. If the gate
    rejects the configuration, it makes no request at all. If the gate
    accepts it and the ID is missing, its first request is the one
    identifier-resolution call (to [{apiUrl}/apiStats/api/get-key-id] with
    the key); when that call returns an ID, every request after it is a
    stats request carrying that ID, and when it fails there is no other
    request. If the ID is present, every request is a stats request
    carrying the configured ID. *)
Theorem updateStats_resolution s r s' evs :
  updateStats URL_protocol env s = (r, s', evs) ->
  let cfg := settings s in
  let v := validateApiConfig URL_protocol (apiUrl cfg) (apiId cfg)
                             (Some (apiKey cfg)) in
  let key_post :=
    (apiUrl cfg ++ js "/apiStats/api/get-key-id", body_apiKey (apiKey cfg)) in
  let stats_post id :=
    (apiUrl cfg ++ js "/apiStats/api/user-stats", body_apiId id) in
  r = Ret tt
  /\ (valid v = false -> posts_of evs = [])
  /\ (valid v = true -> missing (apiId cfg) = true ->
      match getApiIdFromKey env (apiUrl cfg) (apiKey cfg) s with
      | (Ret id, _, _) =>
          exists m, (1 <= m <= 3)%nat
                    /\ posts_of evs = key_post :: repeat (stats_post id) m
      | (Throw _, _, _) => posts_of evs = [key_post]
      end)
  /\ (valid v = true -> missing (apiId cfg) = false ->
      exists m, (1 <= m <= 3)%nat
                /\ posts_of evs = repeat (stats_post (apiId cfg)) m).
Proof.
  intros Hrun cfg v key_post stats_post.
  assert (Hbody : exists rb sb eb,
             updateStats_try URL_protocol env s = (rb, sb, eb)
             /\ r = Ret tt /\ posts_of evs = posts_of eb).
  { apply try_catch_inv in Hrun.
    destruct Hrun as [(a & Hb & ->) | (e & s1 & e1 & e2 & Hb & Hc & ->)].
    - destruct a. do 3 eexists. split; [exact Hb|]. split; reflexivity.
    - destruct (updateStats_catch_run e s1) as (ec & Hc' & Hpc).
      rewrite Hc' in Hc. injection Hc as <- <- <-.
      do 3 eexists. split; [exact Hb|]. split; [reflexivity|].
      rewrite posts_of_app, Hpc, app_nil_r. reflexivity. }
  destruct Hbody as (rb & sb & eb & Hb & -> & ->).
  split; [reflexivity|]. clear Hrun.
  unfold updateStats_try in Hb.
  unfold bind at 1, log at 1, emit at 1 in Hb.
  unfold bind at 1, getConfiguration at 1 in Hb.
  unfold bind at 1, get at 1, ret at 1 in Hb.
  cbn iota beta in Hb. fold cfg in Hb. fold v in Hb.
  destruct (valid v) eqn:Hv; cbn [negb] in Hb.
  - split; [discriminate|].
    destruct (resolveApiId_run cfg s) as (r1 & s1 & ev1 & Hres & Hspec).
    unfold bind at 1 in Hb. rewrite Hres in Hb.
    split.
    + intros _ Hid.
      rewrite Hid, (valid_has_id_or_key _ _ _ Hv Hid) in Hspec.
      cbn [andb negb] in Hspec. destruct Hspec as [Hp1 Hr1].
      destruct (getApiIdFromKey env (apiUrl cfg) (apiKey cfg) s)
        as [[[id|e] sk] ek].
      * subst r1.
        destruct (fetch_and_render_run (apiUrl cfg) id s1)
          as (r2 & s2 & ev2 & m & Hrest & Hm & Hp2).
        rewrite Hrest in Hb. injection Hb as <- <- <-.
        exists m. split; [exact Hm|].
        rewrite posts_of_cons, !posts_of_app, Hp1, Hp2. reflexivity.
      * destruct Hr1 as [e' ->]. injection Hb as <- <- <-.
        rewrite posts_of_cons, Hp1. reflexivity.
    + intros _ Hid. rewrite Hid in Hspec. cbn [andb] in Hspec.
      destruct Hspec as [-> ->].
      destruct (fetch_and_render_run (apiUrl cfg) (apiId cfg) s1)
        as (r2 & s2 & ev2 & m & Hrest & Hm & Hp2).
      rewrite Hrest in Hb. injection Hb as <- <- <-.
      exists m. split; [exact Hm|].
      rewrite posts_of_cons, ?posts_of_app, Hp2. reflexivity.
  - split; [|split; discriminate].
    intros _. injection Hb as <- <- <-. reflexivity.
Qed.

End PollerFacts.

(** The poller on the sample hosts. *)
Lemma fetchRelayStatsWithRetry_backoff_witness :
  let evs :=
    snd (Poller.fetchRelayStatsWithRetry Samples.env_down Samples.url_x
           Samples.an_id 3 1000 (Samples.key_only Samples.url_x)) in
  List.length (Trace.waits_of evs) = 2%nat
  /\ nth_error (Trace.waits_of evs) 0 = Some 1000
  /\ nth_error (Trace.waits_of evs) 1 = Some 2000.
Proof.
  destruct (Poller.fetchRelayStatsWithRetry Samples.env_down Samples.url_x
              Samples.an_id 3 1000 (Samples.key_only Samples.url_x))
    as [[r s'] evs] eqn:Hrun.
  cbv zeta. cbn [snd].
  destruct (proj1 (fetchRelayStatsWithRetry_backoff unit Samples.env_down
                     Samples.url_x Samples.an_id 3 1000
                     (Samples.key_only Samples.url_x) r s' evs
                     ltac:(lia) Hrun)
                  (fun k _ => eq_refl))
    as (_ & _ & Hlen & Hnth & _).
  split; [exact Hlen|]. split.
  - exact (Hnth 1%nat ltac:(cbn; lia)).
  - exact (Hnth 2%nat ltac:(cbn; lia)).
Defined.

Lemma fetchRelayStatsWithRetry_exhausted_witness :
  exists msg,
    fst (fst (Poller.fetchRelayStatsWithRetry Samples.env_down Samples.url_x
                Samples.an_id 3 1000 (Samples.key_only Samples.url_x)))
    = Host.Throw (Host.JsError msg)
    /\ includes msg (JsString.of_Z 3).
Proof.
  destruct (Poller.fetchRelayStatsWithRetry Samples.env_down Samples.url_x
              Samples.an_id 3 1000 (Samples.key_only Samples.url_x))
    as [[r s'] evs] eqn:Hrun.
  cbn [fst].
  destruct (proj1 (fetchRelayStatsWithRetry_exhausted unit Samples.env_down
                     Samples.url_x Samples.an_id 3 1000
                     (Samples.key_only Samples.url_x) r s' evs
                     ltac:(lia) Hrun)
                  (fun k _ => eq_refl))
    as (e & s_last & evs_last & msg & _ & Hr & _ & Hn & _).
  exists msg. split; [exact Hr | exact Hn].
Defined.

Lemma updateStats_resolution_witness :
  let s := Samples.key_only Samples.url_x in
  let evs := snd (Poller.updateStats Whatwg.protocol_of Samples.env_up s) in
  exists m,
    (1 <= m <= 3)%nat
    /\ Trace.posts_of evs
       = (Host.apiUrl (Host.settings s) ++ js "/apiStats/api/get-key-id",
          Host.body_apiKey (Host.apiKey (Host.settings s)))
         :: repeat (Host.apiUrl (Host.settings s)
                    ++ js "/apiStats/api/user-stats",
                    Host.body_apiId Samples.an_id) m.
Proof.
  intros s evs. subst evs.
  destruct (Poller.updateStats Whatwg.protocol_of Samples.env_up s)
    as [[r s'] evs] eqn:Hrun.
  cbn [snd].
  exact (proj1 (proj2 (proj2 (updateStats_resolution unit Whatwg.protocol_of
                                Samples.env_up s r s' evs Hrun)))
               eq_refl eq_refl).
Defined.

(** C4 as stated fails when the URL is present and not blank but is not a
    URL: with URL "example.com", key "sk-1" and no ID, the refresh cycle
    stops at the gate and makes no request, hence no resolution call. *)
Lemma updateStats_no_resolution_on_bad_url :
  let s := Samples.key_only Samples.not_a_url in
  Gate.missing (Host.apiUrl (Host.settings s)) = false
  /\ Gate.missing (Host.apiKey (Host.settings s)) = false
  /\ Host.apiId (Host.settings s) = []
  /\ Trace.posts_of
       (snd (Poller.updateStats Whatwg.protocol_of Samples.env_up s)) = [].
Proof. vm_compute. repeat split. Qed.

(* ===================================================================== *)
(** ** The refresh cycle as a whole *)
(* ===================================================================== *)

Section CycleFacts.

Import Gate Host Poller Trace Observe.
Local Open Scope list_scope.

Variable RelayUserData : Type.
Variable URL_protocol : jsstring -> option jsstring.
Variable env : Env RelayUserData.

Local Abbreviation Event := (Host.Event RelayUserData).

Lemma writes_of_app (a b : list Event) :
  writes_of (a ++ b) = writes_of a ++ writes_of b.
Proof. apply flat_map_app. Qed.

Lemma waits_of_log msg b (l : list Event) :
  waits_of (Log msg b :: l) = waits_of l.
Proof. reflexivity. Qed.

Lemma waits_of_logError msg e (l : list Event) :
  waits_of (LogError msg e :: l) = waits_of l.
Proof. reflexivity. Qed.

Lemma waits_of_wait ms (l : list Event) :
  waits_of (Wait ms :: l) = ms :: waits_of l.
Proof. reflexivity. Qed.

Local Abbreviation shown := (@shown RelayUserData).
Local Abbreviation network_only := (@network_only RelayUserData).

Lemma network_only_app (a b : list Event) :
  network_only a -> network_only b -> network_only (a ++ b).
Proof.
  intros [Ha1 Ha2] [Hb1 Hb2]. split.
  - unfold Observe.shown in *. rewrite filter_app, Ha1, Hb1. reflexivity.
  - rewrite writes_of_app, Ha2, Hb2. reflexivity.
Qed.

Lemma network_only_nil : network_only [].
Proof. split; reflexivity. Qed.

Lemma network_only_log msg b (l : list Event) :
  network_only l -> network_only (Log msg b :: l).
Proof. intros [H1 H2]. split; cbn; assumption. Qed.

Lemma network_only_logError msg e (l : list Event) :
  network_only l -> network_only (LogError msg e :: l).
Proof. intros [H1 H2]. split; cbn; assumption. Qed.

Lemma network_only_wait ms (l : list Event) :
  network_only l -> network_only (Wait ms :: l).
Proof. intros [H1 H2]. split; cbn; assumption. Qed.

Lemma network_only_post url b (l : list Event) :
  network_only l -> network_only (AxiosPost url b :: l).
Proof. intros [H1 H2]. split; cbn; assumption. Qed.

(** One call of [fetchRelayStats] shows the user nothing and writes
    nothing. *)
Lemma fetchRelayStats_network_only apiUrl apiId s :
  network_only (snd (fetchRelayStats env apiUrl apiId s)).
Proof.
  unfold fetchRelayStats, try_catch, bind, axios_post_stats, log, emit.
  destruct (stats_reply env (posts s)) as [status [d|] | e].
  - destruct (status =? 200)%Z; cbn; [destruct (success d); cbn|];
      split; reflexivity.
  - destruct (status =? 200)%Z; cbn; split; reflexivity.
  - destruct e as [m | m [st|] [|] | ]; cbn; split; reflexivity.
Qed.

Lemma getApiIdFromKey_outcome apiUrl apiKey s :
  exists r evs,
    getApiIdFromKey env apiUrl apiKey s = (r, count_post s, evs)
    /\ posts_of evs
       = [(apiUrl ++ js "/apiStats/api/get-key-id", body_apiKey apiKey)]
    /\ waits_of evs = []
    /\ network_only evs
    /\ match key_payload (key_reply env (posts s)) with
       | Some id => r = Ret id
       | None => exists e, r = Throw e
       end.
Proof.
  unfold getApiIdFromKey, try_catch, bind, axios_post_key, log, emit,
    key_payload.
  destruct (key_reply env (posts s)) as [status d | e].
  - destruct (status =? 200)%Z eqn:E200; cbn.
    + destruct d as [[[|] [[|c id]|]]|]; cbn; do 2 eexists;
        repeat split; eexists; reflexivity.
    + destruct d as [[[|] [[|c id]|]]|]; do 2 eexists; repeat split;
        eexists; reflexivity.
  - destruct e as [m | m [st|] [|] | ]; cbn; do 2 eexists; repeat split;
      eexists; reflexivity.
Qed.

(** The retry loop, whatever the replies: [m] requests, all the same,
    [m - 1] waits with doubling delays; nothing written, nothing shown;
    only the count of requests answered changes in the state. *)
Lemma retry_loop_shape apiUrl apiId maxRetries fuel :
  forall attempt retryDelay lastError s,
  attempt + Z.of_nat fuel = maxRetries + 1 ->
  exists r evs m,
    retry_loop env fuel apiUrl apiId maxRetries attempt retryDelay lastError s
    = (r, Nat.iter m count_post s, evs)
    /\ posts_of evs
       = repeat (apiUrl ++ js "/apiStats/api/user-stats", body_apiId apiId) m
    /\ waits_of evs = backoff retryDelay (m - 1)
    /\ network_only evs
    /\ (m <= fuel)%nat /\ (fuel <> 0%nat -> m <> 0%nat).
Proof.
  induction fuel as [|fuel IH]; intros attempt retryDelay lastError s Hfuel.
  - exists (Throw (retries_exhausted maxRetries lastError)), [], 0%nat.
    repeat split; try reflexivity; lia.
  - cbn [retry_loop].
    destruct (Z.leb_spec attempt maxRetries) as [Hle|Hgt]; [|lia].
    destruct (fetchRelayStats_run RelayUserData env apiUrl apiId s)
      as (r & ev1 & Hrun & Hposts & Hwaits & _).
    assert (Hq := fetchRelayStats_network_only apiUrl apiId s).
    rewrite Hrun in Hq. cbn [snd] in Hq.
    unfold try_catch at 1, bind at 1, log at 1, emit at 1. rewrite Hrun.
    destruct r as [d|e].
    + exists (Ret d), ([Log (js "[API] 尝试请求数据（第 " ++ JsString.of_Z attempt
                             ++ js "/" ++ JsString.of_Z maxRetries ++ js " 次）")
                            false] ++ ev1), 1%nat.
      split; [reflexivity|].
      split; [rewrite posts_of_app, Hposts; reflexivity|].
      split; [rewrite waits_of_app, Hwaits; reflexivity|].
      split; [apply network_only_log; exact Hq|]. lia.
    + unfold bind at 1, logError at 1, emit at 1.
      destruct (Z.ltb_spec attempt maxRetries) as [Hlt|Hge].
      * destruct (IH (attempt + 1) (retryDelay * 2) (Some e) (count_post s))
          as (r2 & ev2 & m & Hloop & Hp2 & Hw2 & Hq2 & Hm & Hm0); [lia|].
        unfold bind, log, sleep, emit. rewrite Hloop.
        assert (m <> 0%nat) by (apply Hm0; lia).
        do 2 eexists. exists (S m). split.
        { rewrite iter_count_post. reflexivity. }
        split; [rewrite !posts_of_app, Hposts, Hp2; reflexivity|].
        split.
        { rewrite !waits_of_app, Hwaits, Hw2. cbn [waits_of flat_map app].
          replace (S m - 1)%nat with (S (m - 1)) by lia.
          rewrite backoff_S. reflexivity. }
        split; [|lia].
        repeat apply network_only_app; try assumption; split; reflexivity.
      * destruct (IH (attempt + 1) retryDelay (Some e) (count_post s))
          as (r2 & ev2 & m & Hloop & Hp2 & Hw2 & Hq2 & Hm & Hm0); [lia|].
        rewrite Hloop.
        assert (fuel = 0%nat) by lia. subst fuel.
        assert (m = 0%nat) by lia. subst m.
        do 2 eexists. exists 1%nat. split; [reflexivity|].
        split; [rewrite !posts_of_app, Hposts, Hp2; reflexivity|].
        split.
        { rewrite !waits_of_app, Hwaits, Hw2. reflexivity. }
        split; [|lia].
        repeat apply network_only_app; try assumption; split; reflexivity.
Qed.

(** The key-to-id step makes at most one request and no wait. *)
Lemma resolveApiId_shape cfg s :
  exists r ev k,
    resolveApiId env cfg s = (r, Nat.iter k count_post s, ev)
    /\ List.length (posts_of ev) = k /\ (k <= 1)%nat
    /\ waits_of ev = [] /\ network_only ev.
Proof.
  unfold resolveApiId.
  destruct ((falsy (apiId cfg) || eqb (trim (apiId cfg)) [])
            && negb (falsy (apiKey cfg))
            && negb (eqb (trim (apiKey cfg)) [])).
  - destruct (getApiIdFromKey_outcome (apiUrl cfg) (apiKey cfg) s)
      as (r1 & evk & Hk & Hpk & Hwk & Hqk & _).
    unfold try_catch, bind, log, logError, emit, ret, throw. rewrite Hk.
    destruct r1 as [id|e].
    + do 2 eexists. exists 1%nat. split; [reflexivity|].
      split; [rewrite !posts_of_app, Hpk; reflexivity|].
      split; [lia|].
      split; [rewrite !waits_of_app, Hwk; reflexivity|].
      repeat apply network_only_app; try assumption; split; reflexivity.
    + do 2 eexists. exists 1%nat. split; [reflexivity|].
      split; [rewrite !posts_of_app, Hpk; reflexivity|].
      split; [lia|].
      split; [rewrite !waits_of_app, Hwk; reflexivity|].
      repeat apply network_only_app; try assumption; split; reflexivity.
  - exists (Ret (apiId cfg)), [], 0%nat.
    repeat split; try reflexivity; lia.
Qed.

(** One refresh cycle, whatever the settings and the replies. *)
Lemma updateStats_shape s :
  exists evs k m,
    updateStats URL_protocol env s = (Ret tt, Nat.iter k count_post s, evs)
    /\ List.length (posts_of evs) = k /\ (k <= 4)%nat
    /\ (m <= 2)%nat /\ waits_of evs = backoff 1000 m
    /\ writes_of evs = [].
Proof.
  unfold updateStats, try_catch, updateStats_try.
  unfold bind at 1, log at 1, emit at 1.
  unfold bind at 1, getConfiguration at 1.
  unfold bind at 1, get at 1, ret at 1. cbn iota beta.
  set (cfg := settings s).
  destruct (valid (validateApiConfig URL_protocol (apiUrl cfg) (apiId cfg)
                                     (Some (apiKey cfg)))); cbn [negb].
  - destruct (resolveApiId_shape cfg s)
      as (r1 & ev1 & k1 & Hres & Hp1 & Hk1 & Hw1 & [_ Hq1]).
    unfold bind at 1. rewrite Hres.
    destruct r1 as [id|e].
    + destruct (retry_loop_shape (apiUrl cfg) id 3 3 1 1000 None
                  (Nat.iter k1 count_post s) eq_refl)
        as (r2 & ev2 & m2 & Hloop & Hp2 & Hw2 & [_ Hq2] & Hm2 & Hm0).
      assert (m2 <> 0%nat) by (apply Hm0; discriminate).
      unfold bind at 1, showLoadingStatus at 1, emit at 1.
      unfold bind at 1, fetchRelayStatsWithRetry.
      change (Z.to_nat 3) with 3%nat. rewrite Hloop.
      rewrite <- Nat.iter_add.
      destruct r2 as [d|e].
      * unfold bind, updateStatusBar, log, emit.
        do 1 eexists. exists (m2 + k1)%nat, (m2 - 1)%nat.
        split; [reflexivity|].
        split.
        { rewrite !posts_of_app, Hp2. cbn [posts_of flat_map app].
          rewrite !length_app, Hp1, repeat_length. cbn. lia. }
        split; [lia|]. split; [lia|].
        split.
        { rewrite !waits_of_app, Hw1, Hw2.
          cbn [waits_of flat_map app]. rewrite !app_nil_r. reflexivity. }
        rewrite !writes_of_app, Hq1, Hq2. reflexivity.
      * unfold updateStats_catch, bind, logError, showErrorStatus, emit.
        do 1 eexists. exists (m2 + k1)%nat, (m2 - 1)%nat.
        split; [reflexivity|].
        split.
        { rewrite !posts_of_app, Hp2. cbn [posts_of flat_map app].
          rewrite !length_app, Hp1, repeat_length. cbn. lia. }
        split; [lia|]. split; [lia|].
        split.
        { rewrite !waits_of_app, Hw1, Hw2.
          cbn [waits_of flat_map app]. rewrite !app_nil_r. reflexivity. }
        rewrite !writes_of_app, Hq1, Hq2. reflexivity.
    + unfold updateStats_catch, bind, logError, showErrorStatus, emit.
      do 1 eexists. exists k1, 0%nat.
      split; [reflexivity|].
      split.
      { rewrite !posts_of_app. cbn [posts_of flat_map app].
        rewrite !length_app, Hp1. cbn. lia. }
      split; [lia|]. split; [lia|].
      split.
      { rewrite !waits_of_app, Hw1. reflexivity. }
      rewrite !writes_of_app, Hq1. reflexivity.
  - unfold bind, showConfigPrompt, emit.
    do 1 eexists. exists 0%nat, 0%nat. repeat split; try reflexivity; lia.
Qed.

Lemma iter_count_post_frame n s :
  settings (Nat.iter n count_post s) = settings s
  /\ watch_state (Nat.iter n count_post s) = watch_state s
  /\ prompts (Nat.iter n count_post s) = prompts s
  /\ writes (Nat.iter n count_post s) = writes s.
Proof.
  induction n as [|n IH]; [repeat split|].
  destruct IH as (H1 & H2 & H3 & H4). cbn [Nat.iter].
  unfold watch_state in *. cbn [count_post settings fileWatcher
    debounceTimer prompts writes]. repeat split; assumption.
Qed.

(** X1. A refresh cycle always returns normally, writes no setting, and
    leaves the settings, the watch state and the counts of prompts and
    writes as they were: all it changes is the count of requests answered,
    which grows by the number of requests it made. *)
Theorem updateStats_frame s :
  let '(r, s', evs) := updateStats URL_protocol env s in
  r = Ret tt
  /\ settings s' = settings s
  /\ watch_state s' = watch_state s
  /\ prompts s' = prompts s
  /\ writes s' = writes s
  /\ posts s' = (posts s + List.length (posts_of evs))%nat
  /\ writes_of evs = [].
Proof.
  destruct (updateStats_shape s) as (evs & k & m & -> & Hk & _ & _ & _ & Hw).
  destruct (iter_count_post_frame k s) as (H1 & H2 & H3 & H4).
  repeat split; try assumption.
  rewrite posts_iter, Hk. reflexivity.
Qed.

(** X2. A refresh cycle makes at most four requests and waits at most
    twice, first 1000 ms and then 2000 ms: it never sleeps longer than
    three seconds in all. *)
Theorem updateStats_bounded s :
  let evs := snd (updateStats URL_protocol env s) in
  (List.length (posts_of evs) <= 4)%nat
  /\ (exists m, waits_of evs = firstn m [1000; 2000])
  /\ fold_right Z.add 0 (waits_of evs) <= 3000.
Proof.
  destruct (updateStats_shape s) as (evs & k & m & -> & Hk & Hk4 & Hm & Hw & _).
  cbn [snd]. split; [lia|].
  assert (Hb : waits_of evs = firstn m [1000; 2000]).
  { rewrite Hw. destruct m as [|[|[|m]]]; try reflexivity; lia. }
  split; [exists m; exact Hb|].
  rewrite Hb. destruct m as [|[|[|m]]]; cbn; lia.
Qed.

Lemma shown_app (a b : list Event) : shown (a ++ b) = shown a ++ shown b.
Proof. apply filter_app. Qed.

(** X3. A failed key exchange is surfaced at once. When the gate accepts
    the configuration, the ID is missing and the reply to the key request
    is not an acceptable one, the cycle makes that one request and no
    other, never waits, never shows the loading state, and ends by showing
    the error state and one error message with the two buttons, whose text
    carries the message of the error [getApiIdFromKey] threw. *)
Theorem updateStats_resolution_failure s :
  let cfg := settings s in
  valid (validateApiConfig URL_protocol (apiUrl cfg) (apiId cfg)
                           (Some (apiKey cfg))) = true ->
  missing (apiId cfg) = true ->
  key_payload (key_reply env (posts s)) = None ->
  exists e sk ek s' evs,
    getApiIdFromKey env (apiUrl cfg) (apiKey cfg) s = (Throw e, sk, ek)
    /\ updateStats URL_protocol env s = (Ret tt, s', evs)
    /\ shown evs
       = [ShowErrorStatus (js "获取数据失败");
          ShowErrorMessage
            (js "Claude Relay Meter: 获取数据失败 - "
             ++ js "无法通过 API Key 获取 API ID：" ++ of_opt (message_of e))
            [js "重试"; js "打开设置"]]
    /\ posts_of evs
       = [(apiUrl cfg ++ js "/apiStats/api/get-key-id",
           body_apiKey (apiKey cfg))]
    /\ waits_of evs = [].
Proof.
  intros cfg Hv Hid Hkey.
  destruct (getApiIdFromKey_outcome (apiUrl cfg) (apiKey cfg) s)
    as (r1 & evk & Hk & Hpk & Hwk & [Hsk _] & Hout).
  rewrite Hkey in Hout. destruct Hout as [e ->].
  exists e, (count_post s), evk.
  unfold updateStats, try_catch, updateStats_try.
  unfold bind at 1, log at 1, emit at 1.
  unfold bind at 1, getConfiguration at 1.
  unfold bind at 1, get at 1, ret at 1. cbn iota beta.
  fold cfg. rewrite Hv. cbn [negb].
  unfold bind at 1, resolveApiId. rewrite resolve_condition.
  rewrite Hid, (valid_has_id_or_key URL_protocol _ _ _ Hv Hid).
  cbn [andb negb].
  unfold try_catch at 1, bind at 1, log at 1, emit at 1.
  unfold bind at 1. rewrite Hk.
  unfold bind, logError, throw, emit, updateStats_catch, showErrorStatus.
  do 2 eexists. split; [reflexivity|]. split; [reflexivity|].
  split.
  { rewrite !shown_app. fold (shown evk). rewrite Hsk. reflexivity. }
  split.
  { rewrite !posts_of_app, Hpk. reflexivity. }
  rewrite !waits_of_app, Hwk. reflexivity.
Qed.

(** X4. Exhausted retries are surfaced with the last error. When the gate
    accepts the configuration, an ID is configured and the next three
    replies are all unacceptable, the cycle shows the loading state, waits
    1000 ms and 2000 ms between the attempts, and ends by showing the
    error state and one error message with the two buttons, whose text
    names the three attempts and carries the message of the error the
    third attempt threw. *)
Theorem updateStats_exhausted_surfaced s :
  let cfg := settings s in
  valid (validateApiConfig URL_protocol (apiUrl cfg) (apiId cfg)
                           (Some (apiKey cfg))) = true ->
  missing (apiId cfg) = false ->
  (forall k, (k < 3)%nat ->
             reply_payload (stats_reply env (posts s + k)) = None) ->
  exists e s_last evs_last s' evs,
    fetchRelayStats env (apiUrl cfg) (apiId cfg) (Nat.iter 2 count_post s)
    = (Throw e, s_last, evs_last)
    /\ updateStats URL_protocol env s = (Ret tt, s', evs)
    /\ shown evs
       = [ShowLoadingStatus;
          ShowErrorStatus (js "获取数据失败");
          ShowErrorMessage
            (js "Claude Relay Meter: 获取数据失败 - "
             ++ js "API 请求失败，已重试 " ++ JsString.of_Z 3
             ++ js " 次。最后错误：" ++ of_opt (message_of e))
            [js "重试"; js "打开设置"]]
    /\ waits_of evs = [1000; 2000].
Proof.
  intros cfg Hv Hid Hfail.
  destruct (retry_loop_all_fail RelayUserData env (apiUrl cfg) (apiId cfg) 3
              3 1 1000 None s eq_refl Hfail)
    as (ev2 & last & Hloop & _ & Hw2 & (e & s_last & evs_last & Hlast & ->)).
  destruct (retry_loop_shape (apiUrl cfg) (apiId cfg) 3 3 1 1000 None s
              eq_refl)
    as (r2 & ev2' & m2 & Hloop' & _ & _ & [Hs2 _] & _).
  rewrite Hloop in Hloop'. injection Hloop' as _ _ <-.
  exists e, s_last, evs_last.
  unfold updateStats, try_catch, updateStats_try.
  unfold bind at 1, log at 1, emit at 1.
  unfold bind at 1, getConfiguration at 1.
  unfold bind at 1, get at 1, ret at 1. cbn iota beta.
  fold cfg. rewrite Hv. cbn [negb].
  unfold bind at 1, resolveApiId. rewrite resolve_condition.
  rewrite Hid. cbn [andb]. unfold ret at 1.
  unfold bind at 1, showLoadingStatus at 1, emit at 1.
  unfold bind at 1, fetchRelayStatsWithRetry.
  change (Z.to_nat 3) with 3%nat. rewrite Hloop.
  unfold updateStats_catch, bind, logError, showErrorStatus, emit.
  do 2 eexists. split; [exact Hlast|]. split; [reflexivity|].
  split.
  { rewrite !shown_app. fold (shown ev2). rewrite Hs2.
    unfold retries_exhausted. cbn [message_of of_opt].
    rewrite <- !app_assoc. reflexivity. }
  rewrite !waits_of_app, Hw2. reflexivity.
Qed.

End CycleFacts.

(** The refresh cycle on the sample hosts. *)
Lemma updateStats_resolution_failure_witness :
  let s := Samples.key_only Samples.url_x in
  exists e sk ek s' evs,
    Poller.getApiIdFromKey Samples.env_down (Host.apiUrl (Host.settings s))
      (Host.apiKey (Host.settings s)) s = (Host.Throw e, sk, ek)
    /\ Poller.updateStats Whatwg.protocol_of Samples.env_down s
       = (Host.Ret tt, s', evs)
    /\ Observe.shown evs
       = [Host.ShowErrorStatus (js "获取数据失败");
          Host.ShowErrorMessage
            (js "Claude Relay Meter: 获取数据失败 - "
             ++ js "无法通过 API Key 获取 API ID："
             ++ of_opt (Host.message_of e))
            [js "重试"; js "打开设置"]]
    /\ Trace.posts_of evs
       = [(Host.apiUrl (Host.settings s) ++ js "/apiStats/api/get-key-id",
           Host.body_apiKey (Host.apiKey (Host.settings s)))]
    /\ Trace.waits_of evs = [].
Proof.
  exact (updateStats_resolution_failure unit Whatwg.protocol_of
           Samples.env_down (Samples.key_only Samples.url_x)
           eq_refl eq_refl eq_refl).
Defined.

Lemma updateStats_exhausted_surfaced_witness :
  let s := MoreSamples.with_id Samples.url_x in
  exists e s_last evs_last s' evs,
    Poller.fetchRelayStats Samples.env_down (Host.apiUrl (Host.settings s))
      (Host.apiId (Host.settings s)) (Nat.iter 2 Poller.count_post s)
    = (Host.Throw e, s_last, evs_last)
    /\ Poller.updateStats Whatwg.protocol_of Samples.env_down s
       = (Host.Ret tt, s', evs)
    /\ Observe.shown evs
       = [Host.ShowLoadingStatus;
          Host.ShowErrorStatus (js "获取数据失败");
          Host.ShowErrorMessage
            (js "Claude Relay Meter: 获取数据失败 - "
             ++ js "API 请求失败，已重试 " ++ JsString.of_Z 3
             ++ js " 次。最后错误：" ++ of_opt (Host.message_of e))
            [js "重试"; js "打开设置"]]
    /\ Trace.waits_of evs = [1000; 2000].
Proof.
  exact (updateStats_exhausted_surfaced unit Whatwg.protocol_of
           Samples.env_down (MoreSamples.with_id Samples.url_x)
           eq_refl eq_refl (fun k _ => eq_refl)).
Defined.

(* ===================================================================== *)
(** ** The settings reconciler *)
(* ===================================================================== *)

Section WatcherFacts.

Import Gate Host Watcher Trace.
Local Open Scope list_scope.

Variable RelayUserData : Type.
Variable env : Env RelayUserData.
Variable getVSCodeConfig : Settings -> option Config.
Variable compareConfigs : Config -> option Config -> bool.
Variable maskApiKey : jsstring -> jsstring.
Variable refreshCallback : option (Host.M RelayUserData unit).

Local Abbreviation check :=
  (checkAndHandleConfigChange env getVSCodeConfig compareConfigs maskApiKey
     refreshCallback).
Local Abbreviation prompt := (promptUserChoice env maskApiKey refreshCallback).
Local Abbreviation Event := (Host.Event RelayUserData).

(** C8. Whatever reading the credentials file throws, the check returns
    normally in the state it started from; what it leaves behind is the
    opening log line and, for an [Error], one error log line carrying its
    message: nothing is shown to the user, nothing is written, and the
    watch state is as before. *)
Theorem check_absorbs_read_errors s e :
  claude_settings env = Throw e ->
  exists evs,
    check s = (Ret tt, s, evs)
    /\ evs = Log (js "[Settings Watcher] 开始检查配置变更...") false
             :: (if instanceof_Error e
                 then [Log (js "[Settings Watcher] 处理配置变更失败: "
                            ++ of_opt (message_of e)) true]
                 else [])
    /\ forallb (@is_log RelayUserData) evs = true
    /\ filter (@is_user_facing RelayUserData) evs = []
    /\ writes_of evs = [].
Proof.
  intros He.
  unfold checkAndHandleConfigChange.
  cbv beta iota zeta delta [try_catch bind Watcher.log emit readClaudeSettings].
  rewrite He. cbv beta iota zeta.
  destruct e as [m | m resp req | ]; cbn [instanceof_Error];
    eexists; (split; [reflexivity|]); repeat split.
Qed.

(** [!x] holds exactly for a field that is missing or the empty string. *)
Lemma absent_iff o : absent o = true <-> o = None \/ o = Some [].
Proof.
  destruct o as [[|c r]|]; cbn; split; intros H; try discriminate; auto;
    destruct H as [H|H]; discriminate.
Qed.

Lemma present_iff o : absent o = false <-> exists c r, o = Some (c :: r).
Proof.
  destruct o as [[|c r]|]; cbn; split; intros H; try discriminate.
  - destruct H as (c & r & H); discriminate.
  - exists c, r; reflexivity.
  - reflexivity.
  - destruct H as (c & r & H); discriminate.
Qed.

(** The check on a file that lacks a field: two log lines and nothing
    else. *)
Lemma check_incomplete s cs :
  claude_settings env = Ret cs ->
  absent (cs_apiKey cs) || absent (cs_apiUrl cs) = true ->
  check s
  = (Ret tt, s,
     [Log (js "[Settings Watcher] 开始检查配置变更...") false;
      Log (js "[Settings Watcher] Claude Settings 中没有有效配置,跳过处理") false]).
Proof.
  intros Hcs Habs.
  unfold checkAndHandleConfigChange.
  cbv beta iota zeta delta [try_catch bind Watcher.log emit readClaudeSettings].
  rewrite Hcs. cbv beta iota zeta. rewrite Habs. reflexivity.
Qed.

(** The prompt is the first thing [promptUserChoice] does. *)
Lemma prompt_head newConfig currentConfig s :
  exists r s' evs,
    prompt newConfig currentConfig s
    = (r, s',
       ShowInformationMessage (prompt_message maskApiKey newConfig currentConfig)
         [useNewConfigButton; keepCurrentConfigButton; openSettingsButton]
       :: evs).
Proof.
  destruct (prompt newConfig currentConfig s) as [[r s'] evs] eqn:H.
  unfold promptUserChoice in H. apply bind_inv in H.
  destruct H as [(a & s1 & e1 & e2 & Hask & _ & ->) | (e & Hask & _)];
    unfold ask in Hask.
  - injection Hask as <- <- <-. do 3 eexists. reflexivity.
  - discriminate Hask.
Qed.

(** The check on a file that has both fields: the diff is taken against
    the active configuration, and when it differs the prompt is what comes
    next. *)
Lemma check_complete s cs k u :
  claude_settings env = Ret cs ->
  cs_apiKey cs = Some k -> cs_apiUrl cs = Some u -> k <> [] -> u <> [] ->
  let newConfig := mkConfig k u in
  let currentConfig := getVSCodeConfig (settings s) in
  if compareConfigs newConfig currentConfig then
    check s
    = (Ret tt, s,
       [Log (js "[Settings Watcher] 开始检查配置变更...") false;
        Log (js "[Settings Watcher] 新配置与当前配置相同,跳过提示") false])
  else
    exists r s' evs,
      check s
      = (r, s',
         Log (js "[Settings Watcher] 开始检查配置变更...") false
         :: Log (js "[Settings Watcher] 检测到新的配置变更,准备提示用户") false
         :: ShowInformationMessage (prompt_message maskApiKey newConfig
                                      currentConfig)
              [useNewConfigButton; keepCurrentConfigButton;
               openSettingsButton]
         :: evs).
Proof.
  intros Hcs Hk Hu Hkn Hun newConfig currentConfig.
  unfold checkAndHandleConfigChange.
  cbv beta iota zeta
      delta [try_catch bind Watcher.log emit readClaudeSettings get ret].
  rewrite Hcs. cbv beta iota zeta. rewrite Hk, Hu.
  destruct k as [|ck rk]; [congruence|]. destruct u as [|cu ru]; [congruence|].
  cbn [absent falsy orb or_default].
  fold newConfig. fold currentConfig.
  destruct (compareConfigs newConfig currentConfig); [reflexivity|].
  destruct (prompt_head newConfig currentConfig s) as (r & s' & evs & HP).
  rewrite HP.
  destruct r as [a|e]; [do 3 eexists; reflexivity|].
  destruct (instanceof_Error e); do 3 eexists; reflexivity.
Qed.

(** C5. The check goes on to the diff only when the file gives both
    [apiKey] and [apiUrl], each non-empty. When either is missing or empty
    it returns in the state it started from, having written two log lines:
    no prompt, no settings write, the watch state untouched. When both are
    there and differ from the active configuration, the prompt is shown. *)
Theorem check_requires_both_fields s cs :
  claude_settings env = Ret cs ->
  ((cs_apiKey cs = None \/ cs_apiKey cs = Some []
    \/ cs_apiUrl cs = None \/ cs_apiUrl cs = Some []) ->
   exists evs,
     check s = (Ret tt, s, evs)
     /\ forallb (@is_log RelayUserData) evs = true
     /\ filter (@is_user_facing RelayUserData) evs = []
     /\ writes_of evs = [])
  /\ (forall r s' evs,
        check s = (r, s', evs) ->
        filter (@is_user_facing RelayUserData) evs <> []
        \/ writes_of evs <> [] \/ s' <> s ->
        exists k u,
          cs_apiKey cs = Some k /\ cs_apiUrl cs = Some u
          /\ k <> [] /\ u <> [])
  /\ (forall k u,
        cs_apiKey cs = Some k -> cs_apiUrl cs = Some u ->
        k <> [] -> u <> [] ->
        compareConfigs (mkConfig k u) (getVSCodeConfig (settings s)) = false ->
        exists r s' evs0 evs,
          check s = (r, s', evs0 ++ evs)
          /\ forallb (@is_log RelayUserData) evs0 = true
          /\ hd_error evs
             = Some (ShowInformationMessage
                       (prompt_message maskApiKey (mkConfig k u)
                          (getVSCodeConfig (settings s)))
                       [useNewConfigButton; keepCurrentConfigButton;
                        openSettingsButton])).
Proof.
  intros Hcs.
  assert (Hinc : absent (cs_apiKey cs) || absent (cs_apiUrl cs) = true ->
            exists evs,
              check s = (Ret tt, s, evs)
              /\ forallb (@is_log RelayUserData) evs = true
              /\ filter (@is_user_facing RelayUserData) evs = []
              /\ writes_of evs = []).
  { intros Habs. eexists. split; [exact (check_incomplete s cs Hcs Habs)|].
    repeat split. }
  split; [|split].
  - intros H. apply Hinc. apply orb_true_iff.
    destruct H as [H|[H|[H|H]]]; [left|left|right|right];
      apply absent_iff; auto.
  - intros r s' evs Hrun Hobs.
    destruct (absent (cs_apiKey cs) || absent (cs_apiUrl cs)) eqn:Habs.
    + exfalso. destruct (Hinc eq_refl) as (evs1 & Hrun1 & _ & Huf & Hw).
      rewrite Hrun1 in Hrun. injection Hrun as <- <- <-.
      destruct Hobs as [H|[H|H]]; auto.
    + apply orb_false_iff in Habs. destruct Habs as [Hk Hu].
      apply present_iff in Hk. apply present_iff in Hu.
      destruct Hk as (ck & rk & Hk). destruct Hu as (cu & ru & Hu).
      exists (ck :: rk), (cu :: ru). repeat split; auto; discriminate.
  - intros k u Hk Hu Hkn Hun Hdiff.
    pose proof (check_complete s cs k u Hcs Hk Hu Hkn Hun) as H.
    cbv zeta in H. rewrite Hdiff in H.
    destruct H as (r & s' & evs & H).
    exists r, s'. eexists [_; _]. eexists (_ :: evs).
    split; [exact H|]. split; reflexivity.
Qed.

Lemma buttons_differ :
  eqb keepCurrentConfigButton useNewConfigButton = false
  /\ eqb openSettingsButton useNewConfigButton = false
  /\ eqb openSettingsButton keepCurrentConfigButton = false
  /\ falsy keepCurrentConfigButton = false
  /\ falsy openSettingsButton = false.
Proof. vm_compute. repeat split. Qed.

(** [stopWatching] closes what is open and leaves both handles unset. *)
Lemma stopWatching_run s :
  stopWatching RelayUserData s
  = (Ret tt,
     mkState (settings s) false false (posts s) (prompts s) (writes s),
     (if fileWatcher s
      then [WatcherClose; Log (js "[Settings Watcher] 文件监听已停止") false]
      else [])
     ++ (if debounceTimer s then [ClearTimeout] else [])).
Proof.
  unfold stopWatching.
  cbv beta iota zeta delta [bind get put emit ret Watcher.log].
  destruct s as [st fw dt p q w]; cbn [fileWatcher debounceTimer settings
                                        posts prompts writes].
  destruct fw, dt; reflexivity.
Qed.

(** [disableWatching] when the flag can be written: the flag is cleared,
    the watcher stopped, the user told. *)
Lemma disableWatching_ok s :
  write_error env (writes s) = None ->
  exists evs,
    disableWatching env s
    = (Ret tt,
       mkState (mkSettings (apiUrl (settings s)) (apiId (settings s))
                           (apiKey (settings s)) false)
               false false (posts s) (prompts s) (S (writes s)),
       evs)
    /\ writes_of evs = [write_watchEnabled false]
    /\ (fileWatcher s = true -> In WatcherClose evs).
Proof.
  intros Hw. unfold disableWatching, try_catch, bind at 1, setWatchEnabled,
    settings_write. rewrite Hw.
  unfold bind at 1. rewrite stopWatching_run.
  cbv beta iota zeta delta [bind emit Watcher.log].
  destruct s as [st fw dt p q w];
    cbn [fileWatcher debounceTimer settings posts prompts writes
         count_write set_settings].
  eexists. split; [reflexivity|].
  destruct fw, dt; split; try reflexivity; intros H; try discriminate;
    cbn; auto.
Qed.

(** [disableWatching] when the flag cannot be written: nothing changes but
    the count of writes attempted. *)
Lemma disableWatching_failed s e :
  write_error env (writes s) = Some e ->
  exists evs,
    disableWatching env s = (Ret tt, count_write s, evs)
    /\ writes_of evs = [write_watchEnabled false].
Proof.
  intros Hw. unfold disableWatching, try_catch, bind at 1, setWatchEnabled,
    settings_write. rewrite Hw.
  cbv beta iota zeta delta [Watcher.log emit ret].
  destruct (instanceof_Error e); eexists; split; reflexivity.
Qed.

End WatcherFacts.

(* ===================================================================== *)
(** ** The prompt's answers *)
(* ===================================================================== *)

Section PromptFacts.

Import Gate Host Watcher Trace.
Local Open Scope list_scope.

Variable RelayUserData : Type.
Variable URL_protocol : jsstring -> option jsstring.
Variable env : Env RelayUserData.
Variable maskApiKey : jsstring -> jsstring.
Variable refreshCallback : option (Host.M RelayUserData unit).

Local Abbreviation prompt := (promptUserChoice env maskApiKey refreshCallback).
Local Abbreviation Event := (Host.Event RelayUserData).

(** "Use new configuration", whatever callback [startWatching] stored:
    the credentials are written; when the write took effect and there is a
    callback, the callback runs on the new settings, and what it writes and
    leaves behind is all that is added. *)
Lemma prompt_use_new cb newConfig currentConfig s :
  click env (prompts s) = Some useNewConfigButton ->
  let credentials :=
    write_credentials (cfg_apiKey newConfig) (cfg_apiUrl newConfig) in
  exists s' evs,
    promptUserChoice env maskApiKey cb newConfig currentConfig s
    = (Ret tt, s', evs)
    /\ match write_error env (writes s), cb with
       | None, Some refresh =>
           let '(_, s2, e2) :=
             refresh
               (count_write
                  (set_settings
                     (mkSettings (cfg_apiUrl newConfig) (apiId (settings s))
                                 (cfg_apiKey newConfig)
                                 (watchClaudeSettings (settings s)))
                     (count_prompt s))) in
           writes_of evs = credentials :: writes_of e2 /\ s' = s2
       | _, _ =>
           writes_of evs = [credentials]
           /\ watch_state s' = watch_state s
       end.
Proof.
  intros Hc. cbv zeta.
  unfold promptUserChoice, bind at 1, ask. rewrite Hc.
  cbn [chose]. rewrite eqb_refl.
  unfold bind at 1, Watcher.log at 1, emit at 1.
  unfold applyNewConfig, try_catch, bind at 1, updateVSCodeConfig,
    settings_write.
  change (writes (count_prompt s)) with (writes s).
  destruct (write_error env (writes s)) as [e|].
  - cbv beta iota zeta delta [Watcher.log emit ret bind].
    destruct cb; destruct (instanceof_Error e);
      do 2 eexists; (split; [reflexivity|]); repeat split.
  - change (settings (count_prompt s)) with (settings s).
    destruct cb as [refresh|].
    + unfold bind at 1, emit at 1. unfold bind at 1, Watcher.log at 1, emit at 1.
      destruct (refresh _) as [[[u|e] s2] e2].
      * destruct u. do 2 eexists. split; [reflexivity|].
        rewrite !writes_of_app. split; reflexivity.
      * cbv beta iota zeta delta [Watcher.log emit ret bind].
        destruct (instanceof_Error e); do 2 eexists;
          (split; [reflexivity|]); rewrite !writes_of_app;
          cbn [writes_of flat_map app]; rewrite ?app_nil_r;
          split; reflexivity.
    + cbv beta iota zeta delta [Watcher.log emit ret bind].
      do 2 eexists. split; [reflexivity|]. repeat split.
Qed.

(** C2, as the code has it. In the Prompting state an explicit "keep
    current" and a dismissal take the same branch: the credentials are
    kept, the only write attempted is the one clearing the watch-enabled
    flag, and when that write succeeds the flag is false and the watcher
    stopped; when it fails the watch state is as before. "Open settings"
    writes nothing and leaves the watch state alone. "Use new
    configuration" writes the new credentials and nothing else of its own:
    a write that follows is the refresh callback's, and [updateStats], the
    callback the extension stores, writes none and leaves the watch state
    alone. *)
Theorem prompt_keep_and_dismiss_disable newConfig currentConfig s :
  let choice := click env (prompts s) in
  let credentials :=
    write_credentials (cfg_apiKey newConfig) (cfg_apiUrl newConfig) in
  ((choice = Some keepCurrentConfigButton \/ choice = None) ->
   exists s' evs,
     prompt newConfig currentConfig s = (Ret tt, s', evs)
     /\ apiUrl (settings s') = apiUrl (settings s)
     /\ apiKey (settings s') = apiKey (settings s)
     /\ writes_of evs = [write_watchEnabled false]
     /\ match write_error env (writes s) with
        | None =>
            watch_state s' = (false, false, false)
            /\ (fileWatcher s = true -> In WatcherClose evs)
        | Some _ => watch_state s' = watch_state s
        end)
  /\ (choice = Some openSettingsButton ->
      exists s' evs,
        prompt newConfig currentConfig s = (Ret tt, s', evs)
        /\ writes_of evs = []
        /\ settings s' = settings s
        /\ watch_state s' = watch_state s)
  /\ (choice = Some useNewConfigButton ->
      exists s' evs,
        prompt newConfig currentConfig s = (Ret tt, s', evs)
        /\ match write_error env (writes s), refreshCallback with
           | None, Some refresh =>
               let '(_, s2, e2) :=
                 refresh
                   (count_write
                      (set_settings
                         (mkSettings (cfg_apiUrl newConfig)
                                     (apiId (settings s))
                                     (cfg_apiKey newConfig)
                                     (watchClaudeSettings (settings s)))
                         (count_prompt s))) in
               writes_of evs = credentials :: writes_of e2 /\ s' = s2
           | _, _ =>
               writes_of evs = [credentials]
               /\ watch_state s' = watch_state s
           end)
  /\ (choice = Some useNewConfigButton ->
      exists s' evs,
        promptUserChoice env maskApiKey
          (Some (Poller.updateStats URL_protocol env))
          newConfig currentConfig s
        = (Ret tt, s', evs)
        /\ writes_of evs = [credentials]
        /\ watch_state s' = watch_state s).
Proof.
  destruct (buttons_differ) as (Hku & Hou & Hok & Hkf & Hof).
  cbv zeta. split; [|split; [|split]].
  - intros Hc.
    assert (Hbranch :
      prompt newConfig currentConfig s
      = let '(r, s2, e2) :=
          bind (Watcher.log RelayUserData
                  (js "[Settings Watcher] 用户选择:保持当前配置并关闭监听") false)
               (fun _ => disableWatching env) (count_prompt s) in
        (r, s2,
         [ShowInformationMessage
            (prompt_message maskApiKey newConfig currentConfig)
            [useNewConfigButton; keepCurrentConfigButton; openSettingsButton]]
         ++ e2)).
    { unfold promptUserChoice, bind at 1, ask.
      destruct Hc as [-> | ->]; cbn [chose no_choice orb].
      - rewrite Hku, eqb_refl, orb_true_r. reflexivity.
      - reflexivity. }
    rewrite Hbranch. unfold bind, Watcher.log, emit.
    destruct (write_error env (writes s)) as [e|] eqn:Hw.
    + destruct (disableWatching_failed RelayUserData env (count_prompt s) e Hw)
        as (evs & Hd & Hwr).
      rewrite Hd. do 2 eexists. split; [reflexivity|].
      repeat split. exact Hwr.
    + destruct (disableWatching_ok RelayUserData env (count_prompt s) Hw)
        as (evs & Hd & Hwr & Hcl).
      rewrite Hd. do 2 eexists. split; [reflexivity|].
      repeat split; [exact Hwr|].
      intros Hf. right. right. apply Hcl. exact Hf.
  - intros Hc. unfold promptUserChoice, bind at 1, ask. rewrite Hc.
    cbn [chose no_choice]. rewrite Hou, Hok, Hof, eqb_refl.
    cbn [orb]. do 2 eexists. split; [reflexivity|]. repeat split.
  - intros Hc.
    exact (prompt_use_new refreshCallback newConfig currentConfig s Hc).
  - intros Hc.
    destruct (prompt_use_new (Some (Poller.updateStats URL_protocol env))
                newConfig currentConfig s Hc) as (s' & evs & Hrun & Hrest).
    exists s', evs. split; [exact Hrun|].
    destruct (write_error env (writes s)) as [e|]; [exact Hrest|].
    cbv zeta in Hrest.
    match type of Hrest with
    | context [Poller.updateStats URL_protocol env ?s1] =>
        destruct (updateStats_shape RelayUserData URL_protocol env s1)
          as (e2 & k & m & Hu & _ & _ & _ & _ & Hw2);
        destruct (iter_count_post_frame k s1)
          as (_ & Hws & _ & _);
        rewrite Hu in Hrest
    end.
    destruct Hrest as [Hwr ->]. rewrite Hwr, Hw2.
    split; [reflexivity|]. rewrite Hws. reflexivity.
Qed.

End PromptFacts.

(** The prompt on the sample hosts: dismissed, and answered with "use new
    configuration" while [updateStats] is the callback. *)
Lemma prompt_keep_and_dismiss_disable_witness :
  (exists s' evs,
     Watcher.promptUserChoice Samples.env_up_dismiss Samples.maskApiKey None
       (Host.mkConfig Samples.sk_2 Samples.url_y)
       (Some (Host.mkConfig Samples.sk_1 Samples.url_x))
       (Samples.key_only Samples.url_x)
     = (Host.Ret tt, s', evs)
     /\ Trace.watch_state s' = (false, false, false))
  /\ (exists s' evs,
        Watcher.promptUserChoice MoreSamples.env_up_accept Samples.maskApiKey
          (Some (Poller.updateStats Whatwg.protocol_of
                   MoreSamples.env_up_accept))
          (Host.mkConfig Samples.sk_2 Samples.url_y)
          (Some (Host.mkConfig Samples.sk_1 Samples.url_x))
          (Samples.key_only Samples.url_x)
        = (Host.Ret tt, s', evs)
        /\ Trace.writes_of evs
           = [Host.write_credentials Samples.sk_2 Samples.url_y]
        /\ Trace.watch_state s'
           = Trace.watch_state (Samples.key_only Samples.url_x)).
Proof.
  split.
  - destruct (proj1 (prompt_keep_and_dismiss_disable unit Whatwg.protocol_of
                       Samples.env_up_dismiss Samples.maskApiKey None
                       (Host.mkConfig Samples.sk_2 Samples.url_y)
                       (Some (Host.mkConfig Samples.sk_1 Samples.url_x))
                       (Samples.key_only Samples.url_x))
                    (or_intror eq_refl))
      as (s' & evs & Hrun & _ & _ & _ & Hws & _).
    exists s', evs. split; [exact Hrun | exact Hws].
  - exact (proj2 (proj2 (proj2
             (prompt_keep_and_dismiss_disable unit Whatwg.protocol_of
                MoreSamples.env_up_accept Samples.maskApiKey None
                (Host.mkConfig Samples.sk_2 Samples.url_y)
                (Some (Host.mkConfig Samples.sk_1 Samples.url_x))
                (Samples.key_only Samples.url_x))))
             eq_refl).
Defined.

(** The reconciler on the sample hosts. *)
Lemma check_absorbs_read_errors_witness :
  exists evs,
    Watcher.checkAndHandleConfigChange Samples.env_down Samples.getVSCodeConfig
      Samples.compareConfigs Samples.maskApiKey None
      (Samples.key_only Samples.url_x)
    = (Host.Ret tt, Samples.key_only Samples.url_x, evs)
    /\ forallb (@Trace.is_log unit) evs = true
    /\ List.length evs = 2%nat.
Proof.
  destruct (check_absorbs_read_errors unit Samples.env_down
              Samples.getVSCodeConfig Samples.compareConfigs
              Samples.maskApiKey None (Samples.key_only Samples.url_x)
              _ eq_refl)
    as (evs & Hrun & Hevs & Hlog & _).
  exists evs. split; [exact Hrun|]. split; [exact Hlog|].
  rewrite Hevs. reflexivity.
Defined.

Lemma check_requires_both_fields_witness :
  exists evs,
    Watcher.checkAndHandleConfigChange Samples.env_up_partial
      Samples.getVSCodeConfig Samples.compareConfigs Samples.maskApiKey None
      (Samples.key_only Samples.url_x)
    = (Host.Ret tt, Samples.key_only Samples.url_x, evs)
    /\ filter (@Trace.is_user_facing unit) evs = []
    /\ Trace.writes_of evs = [].
Proof.
  destruct (proj1 (check_requires_both_fields unit Samples.env_up_partial
                     Samples.getVSCodeConfig Samples.compareConfigs
                     Samples.maskApiKey None (Samples.key_only Samples.url_x)
                     _ eq_refl)
                  (or_intror (or_intror (or_introl eq_refl))))
    as (evs & Hrun & _ & Huf & Hw).
  exists evs. split; [exact Hrun|]. split; [exact Huf | exact Hw].
Defined.

(** C2 as stated fails on an explicit "keep current": the watcher is
    running and the flag set before the click; afterwards the flag is
    false and the watcher closed, exactly as on a dismissal. *)
Lemma prompt_keep_current_disables_watching :
  let s := Samples.key_only Samples.url_x in
  let '(r, s', evs) :=
    Watcher.promptUserChoice Samples.env_up Samples.maskApiKey None
      (Host.mkConfig Samples.sk_2 Samples.url_y)
      (Some (Host.mkConfig Samples.sk_1 Samples.url_x)) s in
  Watcher.chose (Host.click Samples.env_up (Host.prompts s))
                Watcher.keepCurrentConfigButton = true
  /\ Trace.watch_state s = (true, true, false)
  /\ Trace.watch_state s' = (false, false, false)
  /\ Trace.writes_of evs = [Host.write_watchEnabled false]
  /\ existsb (fun e => match e with
                       | Host.WatcherClose => true
                       | _ => false
                       end) evs = true.
Proof. vm_compute. repeat split. Qed.

(* ===================================================================== *)
(** ** The formatter *)
(* ===================================================================== *)

Section FormatterFacts.

Import Formatter.
Local Open Scope Q_scope.

(** Every number of hundredths from 0 to 10000 is rendered as a string
    that reads back as a value between 0 and 100 (checked one by one). *)
Lemma hundredths_checked :
  forallb (fun k => reads_as_percent (render_hundredths (Z.of_nat k)))
          (seq 0 (Z.to_nat 10001)) = true.
Proof. vm_compute. reflexivity. Qed.

Lemma render_hundredths_in_range k :
  (0 <= k <= 10000)%Z -> reads_as_percent (render_hundredths k) = true.
Proof.
  intros Hk. pose proof hundredths_checked as H.
  rewrite forallb_forall in H.
  rewrite <- (Z2Nat.id k) by lia. apply H. apply in_seq. lia.
Qed.

(** Clamping leaves a finite value between 0 and 100. *)
Lemma clamp_range p :
  exists c,
    Math_max (lit 0) (Math_min (lit 100) (Fin p)) = Fin c /\ 0 <= c <= 100.
Proof.
  unfold Math_min, Math_max, lit, leb.
  destruct (Qle_bool (inject_Z 100) p) eqn:E1.
  - exists (inject_Z 100). split; [reflexivity|].
    split; [discriminate | apply Qle_refl].
  - destruct (Qle_bool (inject_Z 0) p) eqn:E0.
    + exists p. split; [reflexivity|]. split.
      * apply (proj1 (Qle_bool_iff _ _)) in E0. exact E0.
      * apply Qlt_le_weak, Qnot_le_lt. intros H.
        apply (proj2 (Qle_bool_iff _ _)) in H.
        change (Qle_bool (inject_Z 100) p = true) in H. congruence.
    + exists (inject_Z 0). split; [reflexivity|].
      split; [apply Qle_refl | discriminate].
Qed.

(** Rounding a clamped value times 100 gives a whole number of hundredths
    from 0 to 10000. *)
Lemma round_range c :
  0 <= c <= 100 ->
  exists k,
    Math_round (mul (Fin c) (lit 100)) = Fin (inject_Z k)
    /\ (0 <= k <= 10000)%Z.
Proof.
  intros [H0 H100]. eexists. split; [reflexivity|].
  assert (Hc : 0 <= Qred (c * inject_Z 100) <= 10000).
  { rewrite Qred_correct. split.
    - apply Qmult_le_0_compat; [exact H0 | discriminate].
    - change 10000 with (100 * inject_Z 100).
      apply Qmult_le_compat_r; [exact H100 | discriminate]. }
  destruct Hc as [Hlo Hhi]. split.
  - change 0%Z with (Qfloor (0 + (1 # 2))).
    apply Qfloor_resp_le. apply Qplus_le_l. exact Hlo.
  - change 10000%Z with (Qfloor (10000 + (1 # 2))).
    apply Qfloor_resp_le. apply Qplus_le_l. exact Hhi.
Qed.

(** Away from a zero total, [formatPercentage] renders some whole number of
    hundredths between 0 and 10000. *)
Lemma formatPercentage_hundredths value total :
  ~ total == 0 ->
  exists k,
    (0 <= k <= 10000)%Z
    /\ formatPercentage (Fin value) (Fin total) = render_hundredths k.
Proof.
  intros Ht.
  assert (Hz : Qeq_bool total 0 = false).
  { destruct (Qeq_bool total 0) eqn:E; [|reflexivity].
    apply Qeq_bool_iff in E. contradiction. }
  unfold formatPercentage. cbn [is_zero]. rewrite Hz.
  cbn [div]. rewrite Hz. unfold fin at 1.
  cbn [mul lit]. unfold fin at 1.
  destruct (clamp_range (Qred (Qred (value / total) * inject_Z 100)))
    as (c & Hclamp & Hc).
  rewrite Hclamp.
  destruct (round_range c Hc) as (k & Hround & Hk).
  rewrite Hround.
  exists k. split; [exact Hk|]. reflexivity.
Qed.

(** C9. [formatPercentage] returns a string for every pair of reals: "0"
    when the total is zero, and otherwise a string that reads, as a number,
    as a value in the closed range from 0 to 100, whatever the sign of the
    value and however it compares to the total. *)
Theorem formatPercentage_in_range (value total : Q) :
  (total == 0 -> formatPercentage (Fin value) (Fin total) = js "0")
  /\ (~ total == 0 ->
      exists q,
        Number_ (formatPercentage (Fin value) (Fin total)) = Fin q
        /\ 0 <= q <= 100).
Proof.
  split.
  - intros Ht. unfold formatPercentage. cbn [is_zero].
    apply Qeq_bool_iff in Ht. rewrite Ht. reflexivity.
  - intros Ht.
    destruct (formatPercentage_hundredths value total Ht) as (k & Hk & ->).
    pose proof (render_hundredths_in_range k Hk) as H.
    unfold reads_as_percent in H.
    destruct (Number_ (render_hundredths k)) as [| |q]; try discriminate.
    exists q. split; [reflexivity|].
    apply andb_true_iff in H. destruct H as [H0 H1].
    split; apply Qle_bool_iff; assumption.
Qed.

(** C10. The status-bar text does not depend on the optional percentage:
    it is the two costs and the percentage recomputed from them. *)
Theorem formatStatusBarText_ignores_percentage
  (used limit : number) (p1 p2 : option number) :
  formatStatusBarText used limit p1 = formatStatusBarText used limit p2
  /\ formatStatusBarText used limit p1
     = (formatCost used ++ js "/" ++ formatCost limit ++ js " "
        ++ formatPercentage used limit ++ js "%")%list.
Proof. split; reflexivity. Qed.

End FormatterFacts.

(** The formatter on sample values. *)
Lemma formatPercentage_in_range_witness :
  exists q,
    Formatter.Number_
      (Formatter.formatPercentage (Formatter.Fin (250 # 1))
         (Formatter.Fin (100 # 1)))
    = Formatter.Fin q
    /\ (0 <= q <= 100)%Q.
Proof.
  exact (proj2 (formatPercentage_in_range (250 # 1) (100 # 1))
               ltac:(discriminate)).
Defined.

(** The examples of the doc comments of [formatter.ts], run. *)
Example formatPercentage_doc_examples :
  eqb (Formatter.formatPercentage (Formatter.Fin (396 # 100))
         (Formatter.Fin (100 # 1))) (js "3.96") = true
  /\ eqb (Formatter.formatPercentage (Formatter.Fin (5050 # 100))
            (Formatter.Fin (100 # 1))) (js "50.5") = true
  /\ eqb (Formatter.formatPercentage (Formatter.Fin (100 # 1))
            (Formatter.Fin (100 # 1))) (js "100") = true
  /\ eqb (Formatter.formatStatusBarText (Formatter.Fin (396 # 100))
            (Formatter.Fin (100 # 1)) None) (js "$3.96/$100 3.96%") = true.
Proof. vm_compute. repeat split. Qed.

(** Outside the reals the range is not kept: a [NaN] value is rendered as
    "NaN". *)
Example formatPercentage_of_NaN :
  eqb (Formatter.formatPercentage Formatter.NaN (Formatter.Fin (100 # 1)))
      (js "NaN") = true.
Proof. vm_compute. reflexivity. Qed.

(* ===================================================================== *)
(** * Further properties of the code *)
(* ===================================================================== *)

(* ===================================================================== *)
(** ** The key beside an ID *)
(* ===================================================================== *)

Section KeyFacts.

Import Gate Host Poller Trace Observe.
Local Open Scope list_scope.

Variable RelayUserData : Type.
Variable URL_protocol : jsstring -> option jsstring.
Variable env : Env RelayUserData.

Local Abbreviation blind := (key_blind (RelayUserData:=RelayUserData)).

Lemma key_blind_ret A (a : A) : blind (ret a).
Proof. intros key s. reflexivity. Qed.

Lemma key_blind_throw A e : blind (throw (A:=A) e).
Proof. intros key s. reflexivity. Qed.

Lemma key_blind_emit e : blind (emit e).
Proof. intros key s. reflexivity. Qed.

Lemma key_blind_bind A B (m : M RelayUserData A) (f : A -> M RelayUserData B) :
  blind m -> (forall a, blind (f a)) -> blind (bind m f).
Proof.
  intros Hm Hf key s. unfold bind. rewrite Hm.
  destruct (m s) as [[[a|e] s1] e1]; cbn [rekeyed]; [|reflexivity].
  rewrite Hf. destruct (f a s1) as [[r s2] e2]. reflexivity.
Qed.

Lemma key_blind_try_catch A (m : M RelayUserData A) h :
  blind m -> (forall e, blind (h e)) -> blind (try_catch m h).
Proof.
  intros Hm Hh key s. unfold try_catch. rewrite Hm.
  destruct (m s) as [[[a|e] s1] e1]; cbn [rekeyed]; [reflexivity|].
  rewrite Hh. destruct (h e s1) as [[r s2] e2]. reflexivity.
Qed.

Ltac blind_step :=
  lazymatch goal with
  | |- key_blind (Host.ret _) => apply key_blind_ret
  | |- key_blind (Host.throw _) => apply key_blind_throw
  | |- key_blind (Host.emit _) => apply key_blind_emit
  | |- key_blind (Host.bind _ _) => apply key_blind_bind; [|intros]
  | |- key_blind (Host.try_catch _ _) => apply key_blind_try_catch; [|intros]
  | |- key_blind (if ?b then _ else _) => destruct b
  | |- key_blind (match ?x with _ => _ end) => destruct x
  end.

Lemma key_blind_fetchRelayStats apiUrl apiId :
  blind (fetchRelayStats env apiUrl apiId).
Proof.
  unfold fetchRelayStats, fetchRelayStats_catch, log, logError.
  apply key_blind_try_catch; [|intros e; destruct e as [m|m [st|] [|]|];
                                 repeat blind_step].
  apply key_blind_bind; [blind_step|intros].
  apply key_blind_bind.
  - intros key s. unfold axios_post_stats.
    cbn [with_apiKey posts].
    destruct (stats_reply env (posts s)); reflexivity.
  - intros [status d]. repeat blind_step.
Qed.

Lemma key_blind_retry_loop apiUrl apiId maxRetries fuel :
  forall attempt retryDelay lastError,
    blind (retry_loop env fuel apiUrl apiId maxRetries attempt retryDelay
             lastError).
Proof.
  induction fuel as [|fuel IH]; intros; cbn [retry_loop].
  - blind_step.
  - unfold log, logError, sleep.
    repeat lazymatch goal with
           | |- key_blind (fetchRelayStats _ _ _) =>
               apply key_blind_fetchRelayStats
           | |- key_blind (retry_loop _ _ _ _ _ _ _ _) => apply IH
           | _ => blind_step
           end.
Qed.

(** The gate does not look at the key beside an ID. *)
Lemma validateApiConfig_beside_id apiUrl apiId key key' :
  missing apiId = false ->
  validateApiConfig URL_protocol apiUrl apiId key
  = validateApiConfig URL_protocol apiUrl apiId key'.
Proof. intros Hid. unfold validateApiConfig. rewrite Hid. reflexivity. Qed.

(** What a cycle does once the configuration is read is blind to the key
    when the ID is there. *)
Lemma updateStats_try_body cfg key' :
  missing (apiId cfg) = false ->
  exists body,
    updateStats_try URL_protocol env
    = bind (log RelayUserData (js "[日志] 开始刷新统计数据..."))
           (fun _ => bind (getConfiguration RelayUserData) body)
    /\ body (mkSettings (apiUrl cfg) (apiId cfg) key'
                        (watchClaudeSettings cfg))
       = body cfg
    /\ blind (body cfg).
Proof.
  intros Hid. eexists. split; [unfold updateStats_try; reflexivity|].
  cbv beta zeta. cbn [apiUrl apiId apiKey].
  rewrite (validateApiConfig_beside_id (apiUrl cfg) (apiId cfg)
             (Some key') (Some (apiKey cfg)) Hid).
  unfold resolveApiId. cbn [apiUrl apiId apiKey].
  change (falsy (apiId cfg) || eqb (trim (apiId cfg)) [])
    with (missing (apiId cfg)).
  rewrite Hid. cbn [andb].
  split; [reflexivity|].
  unfold showConfigPrompt, showLoadingStatus, updateStatusBar, log,
    fetchRelayStatsWithRetry.
  repeat lazymatch goal with
         | |- key_blind (retry_loop _ _ _ _ _ _ _ _) =>
             apply key_blind_retry_loop
         | _ => blind_step
         end.
Qed.

Lemma cycle_rekey (body : Settings -> M RelayUserData unit) msg handler key s :
  body (settings (with_apiKey key s)) = body (settings s) ->
  blind (body (settings s)) ->
  (forall e, blind (handler e)) ->
  try_catch (bind (log RelayUserData msg)
                  (fun _ => bind (getConfiguration RelayUserData) body))
            handler (with_apiKey key s)
  = rekeyed key
      (try_catch (bind (log RelayUserData msg)
                       (fun _ => bind (getConfiguration RelayUserData) body))
                 handler s).
Proof.
  intros Hsame Hblind Hcatch.
  cbv beta iota delta [try_catch bind log emit getConfiguration get ret].
  rewrite Hsame, (Hblind key s).
  destruct (body (settings s) s) as [[[a|e] s1] e1]; cbn [rekeyed];
    [reflexivity|].
  rewrite (Hcatch e key s1).
  destruct (handler e s1) as [[r s2] e2]. reflexivity.
Qed.

(** X5. With an ID in the settings the key plays no part in a refresh
    cycle: put any other key in its place and the cycle returns the same,
    logs, requests and shows the same, in the same order, and leaves the
    same state behind. In particular no request of such a cycle carries
    the key. *)
Theorem updateStats_ignores_key_beside_id key s :
  missing (apiId (settings s)) = false ->
  updateStats URL_protocol env (with_apiKey key s)
  = rekeyed key (updateStats URL_protocol env s).
Proof.
  intros Hid.
  destruct (updateStats_try_body (settings s) key Hid)
    as (body & Htry & Hsame & Hblind).
  unfold updateStats. rewrite Htry.
  apply cycle_rekey; [exact Hsame | exact Hblind |].
  intros e. unfold updateStats_catch, logError, showErrorStatus.
  repeat blind_step.
Qed.

End KeyFacts.

Lemma updateStats_ignores_key_beside_id_witness :
  Poller.updateStats Whatwg.protocol_of Samples.env_up
    (Observe.with_apiKey Samples.sk_2 (MoreSamples.with_id Samples.url_x))
  = Observe.rekeyed Samples.sk_2
      (Poller.updateStats Whatwg.protocol_of Samples.env_up
         (MoreSamples.with_id Samples.url_x)).
Proof.
  exact (updateStats_ignores_key_beside_id unit Whatwg.protocol_of
           Samples.env_up Samples.sk_2 (MoreSamples.with_id Samples.url_x)
           eq_refl).
Defined.

(* ===================================================================== *)
(** ** The connection test, the gate and the watcher's shutdown *)
(* ===================================================================== *)

Section ConnectionFacts.

Import Gate Host Poller Trace Observe Connection.
Local Open Scope list_scope.

Variable RelayUserData : Type.
Variable URL_protocol : jsstring -> option jsstring.
Variable env : Env RelayUserData.

(** X6. The connection test never throws. It answers [true] exactly when
    the gate accepts the configuration and the reply to its one request
    is acceptable; a configuration the gate rejects costs no request. The
    request carries the ID as given: the key is shown to the gate and
    never exchanged for an ID. *)
Theorem testApiConnection_probe apiUrl apiId apiKey s :
  let v := validateApiConfig URL_protocol apiUrl apiId apiKey in
  let '(r, s', evs) :=
    testApiConnection URL_protocol env apiUrl apiId apiKey s in
  r = Ret (valid v
           && match reply_payload (stats_reply env (posts s)) with
              | Some _ => true
              | None => false
              end)
  /\ posts_of evs
     = (if valid v
        then [(apiUrl ++ js "/apiStats/api/user-stats", body_apiId apiId)]
        else [])
  /\ waits_of evs = []
  /\ writes_of evs = []
  /\ shown evs = [].
Proof.
  intros v. unfold testApiConnection, try_catch.
  unfold bind at 1, log at 1, emit at 1. fold v.
  destruct (valid v); cbn [negb andb].
  - destruct (fetchRelayStats_run RelayUserData env apiUrl apiId s)
      as (r & ev1 & Hrun & Hp & Hw & Hout).
    assert (Hq := fetchRelayStats_network_only RelayUserData env apiUrl apiId s).
    rewrite Hrun in Hq. cbn [snd] in Hq. destruct Hq as [Hq1 Hq2].
    unfold bind at 1. rewrite Hrun.
    destruct (reply_payload (stats_reply env (posts s))) as [d|].
    + subst r. unfold bind, log, ret, emit.
      split; [reflexivity|].
      split; [rewrite !(posts_of_app RelayUserData), Hp; reflexivity|].
      split; [rewrite !(waits_of_app RelayUserData), Hw; reflexivity|].
      split; [rewrite !(writes_of_app RelayUserData), Hq2; reflexivity|].
      rewrite !(shown_app RelayUserData), Hq1. reflexivity.
    + destruct Hout as [e ->]. unfold bind, logError, ret, emit.
      split; [reflexivity|].
      split; [rewrite !(posts_of_app RelayUserData), Hp; reflexivity|].
      split; [rewrite !(waits_of_app RelayUserData), Hw; reflexivity|].
      split; [rewrite !(writes_of_app RelayUserData), Hq2; reflexivity|].
      rewrite !(shown_app RelayUserData), Hq1. reflexivity.
  - unfold bind, emit, ret. repeat split.
Qed.

End ConnectionFacts.

Section ShutdownFacts.

Import Gate Host Watcher Trace.
Local Open Scope list_scope.

Variable RelayUserData : Type.

(** X7. [stopWatching] closes the file watcher exactly when one is open
    and cancels the debounce timer exactly when one is set, touches
    nothing else, and leaves neither behind; called again, it does
    nothing at all. *)
Theorem stopWatching_idempotent s :
  let '(r, s1, evs) := stopWatching RelayUserData s in
  r = Ret tt
  /\ evs = (if fileWatcher s
            then [WatcherClose; Log (js "[Settings Watcher] 文件监听已停止") false]
            else [])
           ++ (if debounceTimer s then [ClearTimeout] else [])
  /\ s1 = mkState (settings s) false false (posts s) (prompts s) (writes s)
  /\ stopWatching RelayUserData s1 = (Ret tt, s1, []).
Proof.
  destruct s as [st fw dt p q w].
  destruct fw, dt; cbv [stopWatching bind get put emit ret log
    fileWatcher debounceTimer settings posts prompts writes app];
    repeat split.
Qed.

End ShutdownFacts.

(* ===================================================================== *)
(** ** Decimal digits: printing and reading whole numbers *)
(* ===================================================================== *)

Section DigitFacts.

Import Formatter.
Local Open Scope list_scope.

Lemma js_ascii a s :
  (N_of_ascii a <? 128)%N = true ->
  js (String a s) = N_of_ascii a :: js s.
Proof.
  intros Ha. unfold js. cbn [list_ascii_of_string map utf8_points].
  rewrite Ha. cbn [flat_map]. unfold utf16_units at 1.
  assert (Hlt : (N_of_ascii a <? 65536)%N = true).
  { apply N.ltb_lt. apply N.ltb_lt in Ha. lia. }
  rewrite Hlt. reflexivity.
Qed.

Ltac ascii_code :=
  repeat match goal with
         | |- context [N_of_ascii ?a] =>
             let v := eval vm_compute in (N_of_ascii a) in
             change (N_of_ascii a) with v
         end.

(** The digits of a decimal numeral are digit code units. *)
Lemma uint_digits d :
  forallb is_digit (js (DecimalString.NilEmpty.string_of_uint d)) = true.
Proof.
  induction d; cbn [DecimalString.NilEmpty.string_of_uint];
    [reflexivity | rewrite js_ascii by reflexivity; cbn [forallb];
                   rewrite IHd; reflexivity ..].
Qed.

(** Reading them from the left gives the value of the numeral. *)
Lemma uint_value_acc d :
  forall acc,
    fold_left (fun acc c => (acc * 10 + (Z.of_N c - 48))%Z)
              (js (DecimalString.NilEmpty.string_of_uint d)) (Z.pos acc)
    = Z.pos (Pos.of_uint_acc d acc).
Proof.
  induction d; intros acc;
    cbn [DecimalString.NilEmpty.string_of_uint Pos.of_uint_acc];
    [reflexivity | rewrite js_ascii by reflexivity; cbn [fold_left];
                   rewrite <- IHd; f_equal; ascii_code; lia ..].
Qed.

Lemma uint_value d :
  digits_value (js (DecimalString.NilEmpty.string_of_uint d))
  = Z.of_N (Pos.of_uint d).
Proof.
  unfold digits_value.
  induction d; cbn [DecimalString.NilEmpty.string_of_uint Pos.of_uint];
    [reflexivity | rewrite js_ascii by reflexivity; cbn [fold_left] ..].
  - ascii_code. exact IHd.
  - exact (uint_value_acc d 1).
  - exact (uint_value_acc d 2).
  - exact (uint_value_acc d 3).
  - exact (uint_value_acc d 4).
  - exact (uint_value_acc d 5).
  - exact (uint_value_acc d 6).
  - exact (uint_value_acc d 7).
  - exact (uint_value_acc d 8).
  - exact (uint_value_acc d 9).
Qed.

(** A whole number from 0 on is printed without sign, and its digits read
    back as the number. *)
Lemma digits_pos p :
  digits (Z.pos p) = js (DecimalString.NilEmpty.string_of_uint (Pos.to_uint p)).
Proof.
  unfold digits, JsString.of_Z. cbn [Z.to_int DecimalString.NilZero.string_of_int].
  unfold DecimalString.NilZero.string_of_uint.
  pose proof (DecimalPos.Unsigned.to_uint_nonnil p) as Hn.
  destruct (Pos.to_uint p); [contradiction | reflexivity ..].
Qed.

Lemma digits_zero : digits 0 = [48%N].
Proof. reflexivity. Qed.

Lemma digits_are_digits n :
  (0 <= n)%Z -> forallb is_digit (digits n) = true.
Proof.
  intros Hn. destruct n as [|p|p]; [reflexivity | | lia].
  rewrite digits_pos. apply uint_digits.
Qed.

Lemma digits_value_digits n :
  (0 <= n)%Z -> digits_value (digits n) = n.
Proof.
  intros Hn. destruct n as [|p|p]; [reflexivity | | lia].
  rewrite digits_pos, uint_value, DecimalPos.Unsigned.of_to. reflexivity.
Qed.

Lemma digits_nonempty n : (0 <= n)%Z -> digits n <> [].
Proof.
  intros Hn Hnil. destruct n as [|p|p]; [discriminate | | lia].
  rewrite digits_pos in Hnil.
  pose proof (DecimalPos.Unsigned.to_uint_nonnil p) as Hp.
  destruct (Pos.to_uint p); [contradiction|..];
    cbn [DecimalString.NilEmpty.string_of_uint] in Hnil;
    rewrite js_ascii in Hnil by reflexivity; discriminate.
Qed.

(** A positive number is printed without a leading zero, so a number
    below [10^k] has at most [k] digits. *)
Lemma to_uint_head p : forall d, Pos.to_uint p <> Decimal.D0 d.
Proof.
  intros d Hd.
  assert (Hn : Decimal.unorm (Pos.to_uint p) = Pos.to_uint p).
  { rewrite <- (DecimalPos.Unsigned.to_of (Pos.to_uint p)).
    rewrite DecimalPos.Unsigned.of_to. reflexivity. }
  unfold Decimal.unorm in Hn.
  destruct (Decimal.nzhead (Pos.to_uint p)) eqn:Hz.
  - apply (DecimalPos.Unsigned.to_uint_nonzero p). symmetry. exact Hn.
  - rewrite Hd in Hn. rewrite Hn in Hz.
    apply (DecimalFacts.nzhead_nonzero _ _ Hz).
  - rewrite <- Hn in Hd. discriminate.
  - rewrite <- Hn in Hd. discriminate.
  - rewrite <- Hn in Hd. discriminate.
  - rewrite <- Hn in Hd. discriminate.
  - rewrite <- Hn in Hd. discriminate.
  - rewrite <- Hn in Hd. discriminate.
  - rewrite <- Hn in Hd. discriminate.
  - rewrite <- Hn in Hd. discriminate.
  - rewrite <- Hn in Hd. discriminate.
Qed.

Lemma uint_length d :
  List.length (js (DecimalString.NilEmpty.string_of_uint d))
  = Decimal.nb_digits d.
Proof.
  induction d; cbn [DecimalString.NilEmpty.string_of_uint Decimal.nb_digits];
    [reflexivity | rewrite js_ascii by reflexivity; cbn [List.length];
                   rewrite IHd; reflexivity ..].
Qed.

Lemma of_uint_acc_lower d :
  forall acc,
    (Z.pos acc * 10 ^ Z.of_nat (Decimal.nb_digits d)
     <= Z.pos (Pos.of_uint_acc d acc))%Z.
Proof.
  induction d; intros acc; cbn [Decimal.nb_digits Pos.of_uint_acc];
    [cbn; lia | rewrite Nat2Z.inj_succ, Z.pow_succ_r by lia;
                etransitivity; [|apply IHd];
                rewrite Z.mul_assoc;
                apply Z.mul_le_mono_nonneg_r;
                [apply Z.pow_nonneg; lia | lia] ..].
Qed.

Lemma digits_length_bound n k :
  (0 <= n < 10 ^ Z.of_nat k)%Z -> (0 < k)%nat ->
  (List.length (digits n) <= k)%nat.
Proof.
  intros Hn Hk.
  destruct n as [|p|p]; [rewrite digits_zero; cbn; lia | | lia].
  rewrite digits_pos, uint_length.
  pose proof (DecimalPos.Unsigned.of_to p) as Hof.
  pose proof (to_uint_head p) as Hhead.
  pose proof (DecimalPos.Unsigned.to_uint_nonnil p) as Hnil.
  destruct (Pos.to_uint p) as [|d|d|d|d|d|d|d|d|d|d];
    [contradiction | exfalso; exact (Hhead d eq_refl) | ..];
    cbn [Pos.of_uint] in Hof; injection Hof as Hof;
    cbn [Decimal.nb_digits];
    match goal with
    | H : Pos.of_uint_acc d ?a = p |- _ =>
        pose proof (of_uint_acc_lower d a) as Hlow; rewrite H in Hlow
    end;
    (assert (Hpow : (10 ^ Z.of_nat (Decimal.nb_digits d)
                     < 10 ^ Z.of_nat k)%Z) by lia);
    apply Z.pow_lt_mono_r_iff in Hpow; lia.
Qed.

(** Taking the trailing zeros off and putting them back. *)
Lemma drop_zeros_split l :
  exists z, l = repeat 48%N z ++ drop_zeros l
            /\ List.length l = (z + List.length (drop_zeros l))%nat.
Proof.
  induction l as [|c l (z & IH1 & IH2)]; [exists 0%nat; split; reflexivity|].
  cbn [drop_zeros]. destruct (N.eqb_spec c 48) as [->|Hc].
  - exists (S z). cbn [repeat app List.length]. split; [f_equal; exact IH1 | lia].
  - exists 0%nat. split; reflexivity.
Qed.

Lemma trailing_zeros_restore l :
  rev (drop_zeros (rev l))
  ++ repeat 48%N (List.length l - List.length (rev (drop_zeros (rev l))))
  = l.
Proof.
  destruct (drop_zeros_split (rev l)) as (z & H1 & H2).
  rewrite length_rev in H2. rewrite length_rev.
  replace (List.length l - List.length (drop_zeros (rev l)))%nat with z by lia.
  assert (Hl : l = rev (rev l)) by (symmetry; apply rev_involutive).
  remember (rev l) as m eqn:Hm. remember (drop_zeros m) as dz eqn:Hdz.
  rewrite Hl, H1, rev_app_distr. f_equal.
  clear. induction z as [|z IH]; [reflexivity|].
  cbn [repeat rev]. rewrite <- IH. clear IH.
  induction z as [|z IH]; [reflexivity|]. cbn [repeat app]. f_equal. exact IH.
Qed.

Lemma Qred_whole q n : (q == inject_Z n)%Q -> Qred q = inject_Z n.
Proof.
  intros H. rewrite (Qred_complete _ _ H).
  unfold Qred, inject_Z.
  pose proof (Z.ggcd_gcd n 1) as Hg.
  pose proof (Z.ggcd_correct_divisors n 1) as Hd.
  destruct (Z.ggcd n 1) as [g [aa bb]]. cbn [fst snd] in *.
  rewrite Z.gcd_1_r in Hg. subst g. destruct Hd as [Ha Hb].
  assert (Haa : aa = n) by lia. assert (Hbb : bb = 1%Z) by lia.
  rewrite Haa, Hbb. reflexivity.
Qed.

(** Printing a whole number from 0 to just below [10^21]. *)
Lemma toString_whole n :
  (0 <= n < 10 ^ 21)%Z -> toString (lit n) = digits n.
Proof.
  intros Hn. unfold toString, lit.
  rewrite (Qred_whole (inject_Z n) n) by reflexivity.
  assert (Ha : Qabs (inject_Z n) = inject_Z n).
  { unfold Qabs, inject_Z. rewrite Z.abs_eq by lia. reflexivity. }
  rewrite Ha. cbn [find_scale].
  rewrite (Qred_whole (inject_Z n) n) by reflexivity.
  cbn [Qden inject_Z Pos.eqb].
  assert (HN : Qfloor (inject_Z n * pow10 0) = n).
  { unfold pow10. cbn [Z.of_nat Z.pow]. change (10 ^ 0)%Z with 1%Z.
    unfold Qmult, inject_Z, Qfloor. cbn [Qnum Qden].
    rewrite Z.mul_1_r. apply Z.div_1_r. }
  rewrite HN.
  destruct (Z.eqb_spec n 0) as [->|Hn0]; [reflexivity|].
  assert (Hneg : is_neg (inject_Z n) = false).
  { unfold is_neg. apply negb_false_iff. apply Qle_bool_iff.
    unfold Qle, inject_Z. cbn. lia. }
  rewrite Hneg. cbn [app].
  pose proof (digits_length_bound n 21 Hn ltac:(lia)) as Hlen.
  pose proof (drop_zeros_split (rev (digits n))) as (z & _ & Hz).
  rewrite length_rev in Hz.
  set (all := digits n) in *.
  set (ds := rev (drop_zeros (rev all))) in *.
  assert (Hds : List.length ds = List.length (drop_zeros (rev all)))
    by apply length_rev.
  replace ((Z.of_nat (List.length ds)
            <=? Z.of_nat (List.length all) - Z.of_nat 0)%Z
           && (Z.of_nat (List.length all) - Z.of_nat 0 <=? 21)%Z)
    with true.
  2:{ symmetry. apply andb_true_iff. split; apply Z.leb_le; lia. }
  replace (Z.to_nat (Z.of_nat (List.length all) - Z.of_nat 0
                     - Z.of_nat (List.length ds)))
    with (List.length all - List.length ds)%nat by lia.
  apply trailing_zeros_restore.
Qed.

(** Reading a string of digits. *)
Lemma digit_not_white c : is_digit c = true -> is_white c = false.
Proof.
  unfold is_digit. intros H. apply andb_true_iff in H. destruct H as [H1 H2].
  apply N.leb_le in H1. apply N.leb_le in H2.
  assert (Hc : (c = 48 \/ c = 49 \/ c = 50 \/ c = 51 \/ c = 52 \/ c = 53
               \/ c = 54 \/ c = 55 \/ c = 56 \/ c = 57)%N) by lia.
  repeat (destruct Hc as [->|Hc]; [reflexivity|]). subst c. reflexivity.
Qed.

Lemma trimStart_digits l : forallb is_digit l = true -> trimStart l = l.
Proof.
  destruct l as [|c l]; [reflexivity|]. cbn [forallb trimStart].
  intros H. apply andb_true_iff in H. destruct H as [Hc _].
  rewrite (digit_not_white c Hc). reflexivity.
Qed.

Lemma forallb_rev {A} (f : A -> bool) l :
  forallb f l = true -> forallb f (rev l) = true.
Proof.
  rewrite !forallb_forall. intros H x Hx. apply H. apply in_rev. exact Hx.
Qed.

Lemma trim_digits l : forallb is_digit l = true -> trim l = l.
Proof.
  intros H. unfold trim, trimEnd. rewrite (trimStart_digits l H).
  rewrite (trimStart_digits (rev l) (forallb_rev _ _ H)).
  apply rev_involutive.
Qed.

Lemma span_digits_app l r :
  forallb is_digit l = true ->
  match r with
  | c :: _ => is_digit c = false
  | [] => True
  end ->
  span_digits (l ++ r) = (l, r).
Proof.
  intros Hl Hr. induction l as [|c l IH]; cbn [app span_digits].
  - destruct r as [|c r]; [reflexivity|]. cbn [span_digits]. rewrite Hr.
    reflexivity.
  - cbn [forallb] in Hl. apply andb_true_iff in Hl. destruct Hl as [Hc Hl].
    rewrite Hc, (IH Hl). reflexivity.
Qed.

Lemma Number_digits_value l :
  l <> [] -> forallb is_digit l = true ->
  Number_ l = lit (digits_value l).
Proof.
  intros Hnil Hl. unfold Number_. rewrite (trim_digits l Hl).
  destruct l as [|c l]; [contradiction|].
  pose proof Hl as Hc. cbn [forallb] in Hc.
  apply andb_true_iff in Hc. destruct Hc as [Hc _].
  assert (Hsign : split_sign (c :: l) = (false, c :: l)).
  { unfold split_sign.
    destruct (N.eq_dec c 45) as [->|H45]; [discriminate|].
    destruct (N.eq_dec c 43) as [->|H43]; [discriminate|].
    destruct c as [|p]; [reflexivity|].
    do 6 (destruct p as [p|p|]; try reflexivity); try contradiction;
      destruct p; reflexivity || contradiction. }
  rewrite Hsign.
  assert (Hinf : eqb (c :: l) (js "Infinity") = false).
  { unfold eqb. destruct (list_eq_dec N.eq_dec (c :: l) (js "Infinity"))
      as [E|E]; [|reflexivity].
    rewrite js_ascii in E by reflexivity. injection E as E _. subst c.
    discriminate. }
  rewrite Hinf.
  unfold scan_decimal.
  rewrite <- (app_nil_r (c :: l)) at 1.
  rewrite (span_digits_app (c :: l) [] Hl I).
  cbn iota beta. rewrite app_nil_r. cbn [List.length].
  unfold signed, fin, lit. f_equal. apply Qred_whole.
  unfold pow10. cbn [Z.of_nat]. change (10 ^ 0)%Z with 1%Z.
  unfold Qdiv. change (/ inject_Z 1)%Q with (inject_Z 1).
  apply Qmult_1_r.
Qed.

Lemma Number_digits n : (0 <= n)%Z -> Number_ (digits n) = lit n.
Proof.
  intros Hn.
  rewrite (Number_digits_value (digits n) (digits_nonempty n Hn)
             (digits_are_digits n Hn)).
  rewrite (digits_value_digits n Hn). reflexivity.
Qed.

End DigitFacts.

(* ===================================================================== *)
(** ** The extension's timers and watchers *)
(* ===================================================================== *)

Section ExtensionFacts.

Import Gate Host Trace Extension.
Local Open Scope list_scope.

Variable RelayUserData : Type.
Variable URL_protocol : jsstring -> option jsstring.
Variable getVSCodeConfig : Settings -> option Config.
Variable compareConfigs : Config -> option Config -> bool.
Variable maskApiKey : jsstring -> jsstring.
Variable hasConfig : Settings -> bool.
Variable settingsPath : jsstring.
Variable String_ : Thrown -> jsstring.
Variable pf : Platform RelayUserData.

Local Abbreviation Event := (Host.Event RelayUserData).
Local Abbreviation Effect := (Extension.Effect RelayUserData).
Local Abbreviation X := (Run.T Globals Effect).
Local Abbreviation M := (Host.M RelayUserData).

Lemma open_watchers_app (a b : list Effect) :
  open_watchers (a ++ b) = open_watchers a + open_watchers b.
Proof.
  induction a as [|e a IH]; cbn [open_watchers fold_right app]; [reflexivity|].
  change (fold_right _ 0 (a ++ b)) with (open_watchers (a ++ b)).
  change (fold_right _ 0 a) with (open_watchers a).
  rewrite IH. ring.
Qed.

Lemma accounted_shift g g' n d :
  accounted g n ->
  timers g' = timers g -> refreshTimer g' = refreshTimer g ->
  Z.b2z (fileWatcher (core g')) = Z.b2z (fileWatcher (core g)) + d ->
  accounted g' (n + d).
Proof.
  intros [Ht Hn] H1 H2 H3. split.
  - rewrite H1, H2. exact Ht.
  - rewrite H3, Hn. reflexivity.
Qed.

(** *** The rules of [core_keeps] *)

Lemma core_keeps_ret {A} (a : A) : core_keeps (@Host.ret RelayUserData A a).
Proof. intros s. cbn. lia. Qed.

Lemma core_keeps_throw {A} e : core_keeps (@Host.throw RelayUserData A e).
Proof. intros s. cbn. lia. Qed.

Lemma core_keeps_emit (e : Event) :
  watcher_delta (Core e) = 0 -> core_keeps (Host.emit e).
Proof.
  intros He s. cbn [Host.emit map open_watchers fold_right].
  rewrite He. lia.
Qed.

Lemma core_keeps_get : core_keeps (@Host.get RelayUserData).
Proof. intros s. cbn. lia. Qed.

Lemma core_keeps_bind {A B} (m : M A) (k : A -> M B) :
  core_keeps m -> (forall a, core_keeps (k a)) -> core_keeps (Host.bind m k).
Proof.
  intros Hm Hk s. unfold Host.bind. specialize (Hm s).
  destruct (m s) as [[[a|e] s1] e1]; [|exact Hm].
  specialize (Hk a s1). destruct (k a s1) as [[r s2] e2].
  rewrite map_app, open_watchers_app. lia.
Qed.

Lemma core_keeps_try_catch {A} (m : M A) (h : Thrown -> M A) :
  core_keeps m -> (forall e, core_keeps (h e)) ->
  core_keeps (Host.try_catch m h).
Proof.
  intros Hm Hh s. unfold Host.try_catch. specialize (Hm s).
  destruct (m s) as [[[a|e] s1] e1]; [exact Hm|].
  specialize (Hh e s1). destruct (h e s1) as [[r s2] e2].
  rewrite map_app, open_watchers_app. lia.
Qed.

Ltac core_keeps_step :=
  lazymatch goal with
  | |- core_keeps (Host.ret _) => apply core_keeps_ret
  | |- core_keeps (Host.throw _) => apply core_keeps_throw
  | |- core_keeps Host.get => apply core_keeps_get
  | |- core_keeps (Host.emit _) => apply core_keeps_emit; reflexivity
  | |- core_keeps (Host.bind _ _) => apply core_keeps_bind; [|intros]
  | |- core_keeps (Host.try_catch _ _) => apply core_keeps_try_catch; [|intros]
  | |- core_keeps (if ?b then _ else _) => destruct b
  | |- core_keeps (match ?x with _ => _ end) => destruct x
  end.

Lemma core_keeps_fetchRelayStats env apiUrl apiId :
  core_keeps (Poller.fetchRelayStats (RelayUserData:=RelayUserData)
                env apiUrl apiId).
Proof.
  unfold Poller.fetchRelayStats, Poller.fetchRelayStats_catch, Poller.log,
    Poller.logError.
  apply core_keeps_try_catch; [|intros e; destruct e as [m|m [st|] [|]|];
                                  repeat core_keeps_step].
  apply core_keeps_bind; [core_keeps_step|intros].
  apply core_keeps_bind.
  - intros s. unfold Poller.axios_post_stats.
    destruct (stats_reply env (posts s)); cbn; lia.
  - intros [status d]. repeat core_keeps_step.
Qed.

Lemma core_keeps_getApiIdFromKey env apiUrl apiKey :
  core_keeps (Poller.getApiIdFromKey (RelayUserData:=RelayUserData)
                env apiUrl apiKey).
Proof.
  unfold Poller.getApiIdFromKey, Poller.getApiIdFromKey_catch, Poller.log,
    Poller.logError.
  apply core_keeps_try_catch; [|intros e; destruct e as [m|m [st|] [|]|];
                                  repeat core_keeps_step].
  apply core_keeps_bind; [core_keeps_step|intros].
  apply core_keeps_bind.
  - intros s. unfold Poller.axios_post_key.
    destruct (key_reply env (posts s)); cbn; lia.
  - intros [status d]. repeat core_keeps_step.
Qed.

Lemma core_keeps_retry_loop env apiUrl apiId maxRetries fuel :
  forall attempt retryDelay lastError,
    core_keeps (Poller.retry_loop (RelayUserData:=RelayUserData) env fuel
                  apiUrl apiId maxRetries attempt retryDelay lastError).
Proof.
  induction fuel as [|fuel IH]; intros; cbn [Poller.retry_loop].
  - core_keeps_step.
  - unfold Poller.log, Poller.logError, Poller.sleep.
    repeat lazymatch goal with
           | |- core_keeps (Poller.fetchRelayStats _ _ _) =>
               apply core_keeps_fetchRelayStats
           | |- core_keeps (Poller.retry_loop _ _ _ _ _ _ _ _) => apply IH
           | _ => core_keeps_step
           end.
Qed.

Lemma core_keeps_updateStats env :
  core_keeps (Poller.updateStats (RelayUserData:=RelayUserData)
                URL_protocol env).
Proof.
  unfold Poller.updateStats, Poller.updateStats_try, Poller.updateStats_catch,
    Poller.resolveApiId, Poller.fetchRelayStatsWithRetry,
    Poller.getConfiguration, Poller.showConfigPrompt,
    Poller.showLoadingStatus, Poller.updateStatusBar, Poller.showErrorStatus,
    Poller.log, Poller.logError.
  repeat lazymatch goal with
         | |- core_keeps (Poller.getApiIdFromKey _ _ _) =>
             apply core_keeps_getApiIdFromKey
         | |- core_keeps (Poller.retry_loop _ _ _ _ _ _ _ _) =>
             apply core_keeps_retry_loop
         | _ => core_keeps_step
         end.
Qed.

Lemma core_keeps_stopWatching : core_keeps (Watcher.stopWatching RelayUserData).
Proof.
  intros [st fw dt p q w]. destruct fw, dt; cbn; reflexivity.
Qed.

Lemma core_keeps_settings_write env w f :
  core_keeps (Watcher.settings_write (RelayUserData:=RelayUserData) env w f).
Proof.
  intros s. unfold Watcher.settings_write.
  destruct (write_error env (writes s)); cbn; lia.
Qed.

Lemma core_keeps_check env refresh :
  (forall c, refresh = Some c -> core_keeps c) ->
  core_keeps (Watcher.checkAndHandleConfigChange
                (RelayUserData:=RelayUserData) env getVSCodeConfig
                compareConfigs maskApiKey refresh).
Proof.
  intros Hrefresh.
  unfold Watcher.checkAndHandleConfigChange, Watcher.promptUserChoice,
    Watcher.applyNewConfig, Watcher.disableWatching, Watcher.log,
    Watcher.updateVSCodeConfig, Watcher.setWatchEnabled.
  repeat lazymatch goal with
         | |- core_keeps (Watcher.stopWatching _) =>
             apply core_keeps_stopWatching
         | |- core_keeps (Watcher.settings_write _ _ _) =>
             apply core_keeps_settings_write
         | |- core_keeps (Watcher.readClaudeSettings _) =>
             intros s; unfold Watcher.readClaudeSettings; cbn; lia
         | |- core_keeps (Watcher.ask _ _ _) =>
             intros s; unfold Watcher.ask; cbn; lia
         | |- core_keeps (match refresh with _ => _ end) =>
             destruct refresh as [c|]; [apply (Hrefresh c eq_refl)|]
         | _ => core_keeps_step
         end.
Qed.

(** *** The rules of [keeps] *)

Lemma keeps_ret {A} (a : A) : keeps (Run.ret a : X A).
Proof.
  intros g n H. cbn. apply (accounted_shift g g n 0 H); try reflexivity. lia.
Qed.

Lemma keeps_throw {A} e : keeps (Run.throw e : X A).
Proof.
  intros g n H. cbn. apply (accounted_shift g g n 0 H); try reflexivity. lia.
Qed.

Lemma keeps_get : keeps (Run.get : X Globals).
Proof.
  intros g n H. cbn. apply (accounted_shift g g n 0 H); try reflexivity. lia.
Qed.

Lemma keeps_emit (e : Effect) : watcher_delta e = 0 -> keeps (Run.emit e : X unit).
Proof.
  intros He g n H. cbn [Run.emit open_watchers fold_right]. rewrite He.
  apply (accounted_shift g g n _ H); try reflexivity. lia.
Qed.

Lemma keeps_modify (f : Globals -> Globals) :
  (forall g, timers (f g) = timers g /\ refreshTimer (f g) = refreshTimer g
             /\ fileWatcher (core (f g)) = fileWatcher (core g)) ->
  keeps (Run.modify f : X unit).
Proof.
  intros Hf g n H. cbn. destruct (Hf g) as (H1 & H2 & H3).
  apply (accounted_shift g (f g) n 0 H); try assumption. rewrite H3. lia.
Qed.

Lemma keeps_bind {A B} (m : X A) (k : A -> X B) :
  keeps m -> (forall a, keeps (k a)) -> keeps (Run.bind m k).
Proof.
  intros Hm Hk g n H. unfold Run.bind. specialize (Hm g n H).
  destruct (m g) as [[[a|e] g1] e1]; [|exact Hm].
  specialize (Hk a g1 _ Hm). destruct (k a g1) as [[r g2] e2].
  rewrite open_watchers_app, Z.add_assoc. exact Hk.
Qed.

Lemma keeps_try_catch {A} (m : X A) (h : Thrown -> X A) :
  keeps m -> (forall e, keeps (h e)) -> keeps (Run.try_catch m h).
Proof.
  intros Hm Hh g n H. unfold Run.try_catch. specialize (Hm g n H).
  destruct (m g) as [[[a|e] g1] e1]; [exact Hm|].
  specialize (Hh e g1 _ Hm). destruct (h e g1) as [[r g2] e2].
  rewrite open_watchers_app, Z.add_assoc. exact Hh.
Qed.

Lemma keeps_lift {A} (m : M A) : core_keeps m -> keeps (lift m).
Proof.
  intros Hm g n H. unfold lift. specialize (Hm (core g)).
  destruct (m (core g)) as [[r s] evs].
  apply (accounted_shift g (with_core s g) n _ H); try reflexivity.
  exact Hm.
Qed.

Ltac keeps_step :=
  lazymatch goal with
  | |- keeps (Run.ret _) => apply keeps_ret
  | |- keeps (Run.throw _) => apply keeps_throw
  | |- keeps Run.get => apply keeps_get
  | |- keeps (Run.emit _) => apply keeps_emit; reflexivity
  | |- keeps (Run.modify _) =>
      apply keeps_modify; intros; repeat split; reflexivity
  | |- keeps (Run.bind _ _) => apply keeps_bind; [|intros]
  | |- keeps (Run.try_catch _ _) => apply keeps_try_catch; [|intros]
  | |- keeps (let _ := _ in _) => cbv zeta
  | |- keeps (if ?b then _ else _) => destruct b
  | |- keeps (match ?x with _ => _ end) => destruct x
  end.

Lemma keeps_updateStats : keeps (updateStats URL_protocol pf).
Proof. apply keeps_lift, core_keeps_updateStats. Qed.

Lemma keeps_stopWatching : keeps (stopWatching RelayUserData).
Proof. apply keeps_lift, core_keeps_stopWatching. Qed.

Lemma keeps_check :
  keeps (checkAndHandleConfigChange URL_protocol getVSCodeConfig
           compareConfigs maskApiKey pf).
Proof.
  intros g n H. unfold checkAndHandleConfigChange.
  apply keeps_lift; [|exact H].
  apply core_keeps_check. intros c Hc.
  destruct (refreshCallback g) as [[]|]; [|discriminate].
  injection Hc as <-. apply core_keeps_updateStats.
Qed.

Ltac globals_simpl :=
  cbn [core refreshTimer isWindowFocused refreshCallback
       refreshIntervalSetting timers next_timer fs_calls app].

(** After the timer is stopped none runs; after it is started, one. *)
Lemma stopRefreshTimer_run g n :
  accounted g n ->
  match stopRefreshTimer RelayUserData g with
  | (r, g', effs) =>
      r = Ret tt /\ timers g' = [] /\ refreshTimer g' = None
      /\ core g' = core g /\ open_watchers effs = 0
      /\ intervals_of effs = []
  end.
Proof.
  intros [Ht Hn].
  cbv beta iota delta [stopRefreshTimer Run.bind Run.get Run.modify Run.emit
    Run.ret clear_timer log with_refreshTimer with_timers].
  destruct (refreshTimer g) as [h|] eqn:Hr.
  - globals_simpl. rewrite Ht.
    cbn [remove]. destruct (Nat.eq_dec h h); [|congruence].
    repeat split.
  - rewrite Ht. repeat split. exact Hr.
Qed.

Lemma keeps_stopRefreshTimer : keeps (stopRefreshTimer RelayUserData).
Proof.
  intros g n H. assert (Hs := stopRefreshTimer_run g n H).
  destruct (stopRefreshTimer RelayUserData g) as [[r g'] effs].
  destruct Hs as (_ & H1 & H2 & H3 & H4 & _). destruct H as [_ Hn].
  split; [rewrite H1, H2; reflexivity | rewrite H3, H4; lia].
Qed.

Lemma startRefreshTimer_run g n :
  accounted g n ->
  match startRefreshTimer RelayUserData g with
  | (r, g', effs) =>
      r = Ret tt /\ timers g' = [next_timer g]
      /\ refreshTimer g' = Some (next_timer g)
      /\ core g' = core g /\ open_watchers effs = 0
      /\ intervals_of effs = [getRefreshIntervalMs g]
  end.
Proof.
  intros H. assert (Hs := stopRefreshTimer_run g n H).
  unfold startRefreshTimer, Run.bind at 1.
  destruct (stopRefreshTimer RelayUserData g) as [[r g1] e1] eqn:Hstop.
  destruct Hs as (-> & H1 & H2 & H3 & H4 & H5).
  assert (Hi : refreshIntervalSetting g1 = refreshIntervalSetting g
               /\ next_timer g1 = next_timer g).
  { revert Hstop.
    cbv beta iota delta [stopRefreshTimer Run.bind Run.get Run.modify
      Run.emit Run.ret clear_timer log with_refreshTimer with_timers].
    destruct (refreshTimer g); intros Hstop; injection Hstop as <- _;
      split; reflexivity. }
  destruct Hi as [Hi1 Hi2].
  cbv beta iota zeta delta [Run.bind Run.get Run.modify Run.emit Run.ret
    set_interval log with_refreshTimer].
  globals_simpl. rewrite H1, Hi2.
  split; [reflexivity|]. split; [reflexivity|]. split; [reflexivity|].
  split; [exact H3|].
  rewrite !open_watchers_app, H4.
  unfold intervals_of. rewrite !flat_map_app.
  fold (intervals_of e1). rewrite H5.
  unfold getRefreshIntervalMs, refreshInterval. rewrite Hi1.
  split; reflexivity.
Qed.

Lemma keeps_startRefreshTimer : keeps (startRefreshTimer RelayUserData).
Proof.
  intros g n H. assert (Hs := startRefreshTimer_run g n H).
  destruct (startRefreshTimer RelayUserData g) as [[r g'] effs].
  destruct Hs as (_ & H1 & H2 & H3 & H4 & _). destruct H as [_ Hn].
  split; [rewrite H1, H2; reflexivity | rewrite H3, H4; lia].
Qed.

(** What [startWatching] leaves behind. *)
Lemma startWatching_run cb g :
  match startWatching settingsPath pf cb g with
  | (r, g', effs) =>
      r = Ret tt
      /\ refreshCallback g' = cb
      /\ fileWatcher (core g')
         = file_exists pf (fs_calls g)
           && match watch_error pf (S (fs_calls g)) with
              | None => true
              | Some _ => false
              end
      /\ debounceTimer (core g')
         = (if fileWatcher (core g) then false else debounceTimer (core g))
      /\ settings (core g') = settings (core g)
      /\ timers g' = timers g
      /\ refreshTimer g' = refreshTimer g
      /\ open_watchers effs
         = Z.b2z (fileWatcher (core g')) - Z.b2z (fileWatcher (core g))
  end.
Proof.
  destruct g as [[st fw dt p q w] rt foc rc iv tm nt fc].
  cbv beta iota zeta delta [startWatching Run.bind Run.modify Run.get
    Run.emit Run.ret Run.try_catch stopWatching lift log log_error
    fs_existsSync fs_watch with_refreshCallback with_core on_core
    set_fileWatcher count_fs Watcher.stopWatching Host.bind Host.get Host.put
    Host.emit Host.ret Watcher.log
    core refreshTimer isWindowFocused refreshCallback refreshIntervalSetting
    timers next_timer fs_calls settings fileWatcher debounceTimer posts
    prompts writes map app negb].
  destruct fw, dt, (file_exists pf fc);
    cbv beta iota zeta delta [negb map app andb
    core refreshTimer isWindowFocused refreshCallback refreshIntervalSetting
    timers next_timer fs_calls settings fileWatcher debounceTimer posts
    prompts writes];
    try (repeat split; reflexivity);
    destruct (watch_error pf (S fc)) as [[m|m st' rq|]|];
    cbv beta iota zeta delta [negb map app andb instanceof_Error
    Run.bind Run.emit Run.ret log_error
    core refreshTimer isWindowFocused refreshCallback refreshIntervalSetting
    timers next_timer fs_calls settings fileWatcher debounceTimer posts
    prompts writes];
    repeat split; reflexivity.
Qed.

Lemma keeps_startWatching cb : keeps (startWatching settingsPath pf cb).
Proof.
  intros g n [Ht Hn]. assert (Hs := startWatching_run cb g).
  destruct (startWatching settingsPath pf cb g) as [[r g'] effs].
  destruct Hs as (_ & _ & _ & _ & _ & H1 & H2 & H3).
  split; [rewrite H1, H2; exact Ht | rewrite H3; lia].
Qed.

Lemma keeps_ask_modal message items : keeps (ask_modal pf message items).
Proof.
  intros g n H. unfold ask_modal.
  apply (accounted_shift g _ n _ H); try reflexivity.
  cbn. lia.
Qed.

Lemma keeps_config_update key value f :
  keeps (config_update pf key value f).
Proof.
  intros g n H. unfold config_update.
  destruct (write_error (host pf) (writes (core g)));
    (apply (accounted_shift g _ n _ H); try reflexivity; cbn; lia).
Qed.

Ltac keeps_tac :=
  repeat lazymatch goal with
         | |- keeps (updateStats _ _) => apply keeps_updateStats
         | |- keeps (stopWatching _) => apply keeps_stopWatching
         | |- keeps (checkAndHandleConfigChange _ _ _ _ _) => apply keeps_check
         | |- keeps (startWatching _ _ _) => apply keeps_startWatching
         | |- keeps (startRefreshTimer _) => apply keeps_startRefreshTimer
         | |- keeps (stopRefreshTimer _) => apply keeps_stopRefreshTimer
         | |- keeps (log _ _) => apply keeps_emit; reflexivity
         | |- keeps (log_error _ _) => apply keeps_emit; reflexivity
         | |- keeps (lift (Watcher.readClaudeSettings _)) =>
             apply keeps_lift; intros s; unfold Watcher.readClaudeSettings;
             cbn; lia
         | |- keeps (lift (Watcher.updateVSCodeConfig _ _ _)) =>
             apply keeps_lift, core_keeps_settings_write
         | |- keeps (ask_modal _ _ _) => apply keeps_ask_modal
         | |- keeps (config_update _ _ _ _) => apply keeps_config_update
         | _ => keeps_step
         end.

Lemma keeps_handleFileChange : keeps (handleFileChange RelayUserData).
Proof. unfold handleFileChange. keeps_tac. Qed.

(** Deactivation leaves no timer and no watcher. *)
Lemma deactivate_run g n :
  accounted g n ->
  match deactivate RelayUserData g with
  | (r, g', effs) =>
      r = Ret tt
      /\ timers g' = [] /\ refreshTimer g' = None
      /\ fileWatcher (core g') = false /\ debounceTimer (core g') = false
      /\ n + open_watchers effs = 0
  end.
Proof.
  destruct g as [[st fw dt p q w] rt foc rc iv tm nt fc].
  intros [Ht Hn]. cbn [timers refreshTimer core fileWatcher] in Ht, Hn.
  subst tm n.
  cbv beta iota zeta delta [deactivate Run.bind Run.modify Run.get
    Run.emit Run.ret stopWatching lift log clear_timer with_refreshTimer
    with_timers with_core
    Watcher.stopWatching Host.bind Host.get Host.put
    Host.emit Host.ret Watcher.log
    core refreshTimer isWindowFocused refreshCallback refreshIntervalSetting
    timers next_timer fs_calls settings fileWatcher debounceTimer posts
    prompts writes map app].
  destruct rt as [h|], fw, dt;
    cbv beta iota zeta delta [map app remove
    core refreshTimer isWindowFocused refreshCallback refreshIntervalSetting
    timers next_timer fs_calls settings fileWatcher debounceTimer posts
    prompts writes];
    try (destruct (Nat.eq_dec h h); [|congruence]);
    repeat split; reflexivity.
Qed.

Lemma keeps_deactivate : keeps (deactivate RelayUserData).
Proof.
  intros g n H. assert (Hs := deactivate_run g n H).
  destruct (deactivate RelayUserData g) as [[r g'] effs].
  destruct Hs as (_ & H1 & H2 & H3 & _ & H4).
  split; [rewrite H1, H2; reflexivity | rewrite H3, H4; reflexivity].
Qed.

Lemma keeps_activate :
  keeps (activate URL_protocol hasConfig settingsPath String_ pf).
Proof. unfold activate, initializeConfigFromClaudeSettings. keeps_tac. Qed.

Lemma keeps_dispatch t :
  keeps (dispatch URL_protocol getVSCodeConfig compareConfigs maskApiKey
           hasConfig settingsPath String_ pf t).
Proof.
  destruct t; cbn [dispatch].
  - apply keeps_activate.
  - apply keeps_deactivate.
  - unfold refreshTimer_callback. keeps_tac.
  - unfold windowState_listener. keeps_tac.
  - unfold configuration_listener. keeps_tac.
  - apply keeps_modify. intros g. repeat split.
  - unfold refreshStats_command. keeps_tac.
  - unfold openSettings_command. keeps_tac.
  - unfold openWebDashboard_command. keeps_tac.
  - unfold reloadClaudeConfig_command. keeps_tac.
  - unfold manualReloadConfig_command, handleManualReloadConfig. keeps_tac.
  - unfold watch_listener. keeps_tac. apply keeps_handleFileChange.
  - unfold debounce_callback. keeps_tac.
  - unfold watch_error_listener. keeps_tac.
Qed.

Lemma keeps_session ts :
  keeps (session URL_protocol getVSCodeConfig compareConfigs maskApiKey
           hasConfig settingsPath String_ pf ts).
Proof.
  induction ts as [|t ts IH]; cbn [session]; [apply keeps_ret|].
  apply keeps_bind; [|intros; exact IH].
  apply keeps_try_catch; [apply keeps_dispatch | intros; apply keeps_ret].
Qed.

Local Abbreviation session :=
  (Extension.session URL_protocol getVSCodeConfig compareConfigs maskApiKey
     hasConfig settingsPath String_ pf).
Local Abbreviation dispatch :=
  (Extension.dispatch URL_protocol getVSCodeConfig compareConfigs maskApiKey
     hasConfig settingsPath String_ pf).

Lemma accounted_initial st interval : accounted (initial st interval) 0.
Proof. split; reflexivity. Qed.

Lemma session_app a b g :
  session (a ++ b) g
  = match session a g with
    | (_, g1, e1) =>
        match session b g1 with
        | (r, g2, e2) => (r, g2, e1 ++ e2)
        end
    end.
Proof.
  revert g. induction a as [|t a IH]; intros g.
  - cbn [app Extension.session Run.ret].
    destruct (session b g) as [[r g2] e2]. reflexivity.
  - cbn [app Extension.session]. unfold Run.bind.
    destruct (Run.try_catch (dispatch t) (fun _ => Run.ret tt) g)
      as [[[u|e] g1] e1] eqn:Ht.
    + rewrite IH. destruct (session a g1) as [[ra ga] ea].
      destruct (session b ga) as [[rb gb] eb].
      rewrite app_assoc. reflexivity.
    + exfalso. revert Ht. unfold Run.try_catch, Run.ret.
      destruct (dispatch t g) as [[[u|e'] g'] e'']; discriminate.
Qed.

(** X8. However the session goes, the interval timers that run are
    exactly the one [refreshTimer] holds, if it holds one: refresh timers
    never pile up, and none runs once the handle is cleared. *)
Theorem session_one_refresh_timer ts st interval :
  let '(_, g, _) := session ts (initial st interval) in
  timers g = match refreshTimer g with
             | Some h => [h]
             | None => []
             end.
Proof.
  assert (H := keeps_session ts _ _ (accounted_initial st interval)).
  destruct (session ts (initial st interval)) as [[r g] effs].
  exact (proj1 H).
Qed.

(** *** Opening and closing in turn *)

Lemma watcher_track_app (a b : list Effect) :
  forall opened,
    watcher_track opened (a ++ b)
    = match watcher_track opened a with
      | Some o => watcher_track o b
      | None => None
      end.
Proof.
  induction a as [|e a IH]; intros opened; [reflexivity|].
  destruct e as [c| | | | | | | |p o| |]; cbn [app watcher_track];
    try apply IH.
  - destruct c; try apply IH. destruct opened; [apply IH | reflexivity].
  - destruct o; [|apply IH]. destruct opened; [reflexivity | apply IH].
Qed.

Lemma watcher_track_neutral (e : Effect) opened :
  watcher_delta e = 0 -> watcher_track opened [e] = Some opened.
Proof.
  intros He. destruct e as [c| | | | | | | |p o| |]; try reflexivity.
  - destruct c; try reflexivity. discriminate He.
  - destruct o; [discriminate He | reflexivity].
Qed.

Lemma core_tracks_ret {A} (a : A) : core_tracks (@Host.ret RelayUserData A a).
Proof. intros s. reflexivity. Qed.

Lemma core_tracks_throw {A} e : core_tracks (@Host.throw RelayUserData A e).
Proof. intros s. reflexivity. Qed.

Lemma core_tracks_get : core_tracks (@Host.get RelayUserData).
Proof. intros s. reflexivity. Qed.

Lemma core_tracks_emit (e : Event) :
  watcher_delta (Core e) = 0 -> core_tracks (Host.emit e).
Proof.
  intros He s. cbn [Host.emit map].
  exact (watcher_track_neutral (Core e) (fileWatcher s) He).
Qed.

Lemma core_tracks_bind {A B} (m : M A) (k : A -> M B) :
  core_tracks m -> (forall a, core_tracks (k a)) ->
  core_tracks (Host.bind m k).
Proof.
  intros Hm Hk s. unfold Host.bind. specialize (Hm s).
  destruct (m s) as [[[a|e] s1] e1]; [|exact Hm].
  specialize (Hk a s1). destruct (k a s1) as [[r s2] e2].
  rewrite map_app, watcher_track_app, Hm. exact Hk.
Qed.

Lemma core_tracks_try_catch {A} (m : M A) (h : Thrown -> M A) :
  core_tracks m -> (forall e, core_tracks (h e)) ->
  core_tracks (Host.try_catch m h).
Proof.
  intros Hm Hh s. unfold Host.try_catch. specialize (Hm s).
  destruct (m s) as [[[a|e] s1] e1]; [exact Hm|].
  specialize (Hh e s1). destruct (h e s1) as [[r s2] e2].
  rewrite map_app, watcher_track_app, Hm. exact Hh.
Qed.

Ltac core_tracks_step :=
  lazymatch goal with
  | |- core_tracks (Host.ret _) => apply core_tracks_ret
  | |- core_tracks (Host.throw _) => apply core_tracks_throw
  | |- core_tracks Host.get => apply core_tracks_get
  | |- core_tracks (Host.emit _) => apply core_tracks_emit; reflexivity
  | |- core_tracks (Host.bind _ _) => apply core_tracks_bind; [|intros]
  | |- core_tracks (Host.try_catch _ _) =>
      apply core_tracks_try_catch; [|intros]
  | |- core_tracks (if ?b then _ else _) => destruct b
  | |- core_tracks (match ?x with _ => _ end) => destruct x
  end.

Lemma core_tracks_fetchRelayStats env apiUrl apiId :
  core_tracks (Poller.fetchRelayStats (RelayUserData:=RelayUserData)
                 env apiUrl apiId).
Proof.
  unfold Poller.fetchRelayStats, Poller.fetchRelayStats_catch, Poller.log,
    Poller.logError.
  apply core_tracks_try_catch; [|intros e; destruct e as [m|m [st|] [|]|];
                                   repeat core_tracks_step].
  apply core_tracks_bind; [core_tracks_step|intros].
  apply core_tracks_bind.
  - intros s. unfold Poller.axios_post_stats.
    destruct (stats_reply env (posts s)); reflexivity.
  - intros [status d]. repeat core_tracks_step.
Qed.

Lemma core_tracks_getApiIdFromKey env apiUrl apiKey :
  core_tracks (Poller.getApiIdFromKey (RelayUserData:=RelayUserData)
                 env apiUrl apiKey).
Proof.
  unfold Poller.getApiIdFromKey, Poller.getApiIdFromKey_catch, Poller.log,
    Poller.logError.
  apply core_tracks_try_catch; [|intros e; destruct e as [m|m [st|] [|]|];
                                   repeat core_tracks_step].
  apply core_tracks_bind; [core_tracks_step|intros].
  apply core_tracks_bind.
  - intros s. unfold Poller.axios_post_key.
    destruct (key_reply env (posts s)); reflexivity.
  - intros [status d]. repeat core_tracks_step.
Qed.

Lemma core_tracks_retry_loop env apiUrl apiId maxRetries fuel :
  forall attempt retryDelay lastError,
    core_tracks (Poller.retry_loop (RelayUserData:=RelayUserData) env fuel
                   apiUrl apiId maxRetries attempt retryDelay lastError).
Proof.
  induction fuel as [|fuel IH]; intros; cbn [Poller.retry_loop].
  - core_tracks_step.
  - unfold Poller.log, Poller.logError, Poller.sleep.
    repeat lazymatch goal with
           | |- core_tracks (Poller.fetchRelayStats _ _ _) =>
               apply core_tracks_fetchRelayStats
           | |- core_tracks (Poller.retry_loop _ _ _ _ _ _ _ _) => apply IH
           | _ => core_tracks_step
           end.
Qed.

Lemma core_tracks_updateStats env :
  core_tracks (Poller.updateStats (RelayUserData:=RelayUserData)
                 URL_protocol env).
Proof.
  unfold Poller.updateStats, Poller.updateStats_try, Poller.updateStats_catch,
    Poller.resolveApiId, Poller.fetchRelayStatsWithRetry,
    Poller.getConfiguration, Poller.showConfigPrompt,
    Poller.showLoadingStatus, Poller.updateStatusBar, Poller.showErrorStatus,
    Poller.log, Poller.logError.
  repeat lazymatch goal with
         | |- core_tracks (Poller.getApiIdFromKey _ _ _) =>
             apply core_tracks_getApiIdFromKey
         | |- core_tracks (Poller.retry_loop _ _ _ _ _ _ _ _) =>
             apply core_tracks_retry_loop
         | _ => core_tracks_step
         end.
Qed.

(** [stopWatching] closes only a watcher that is open. *)
Lemma core_tracks_stopWatching :
  core_tracks (Watcher.stopWatching RelayUserData).
Proof.
  intros [st fw dt p q w]. destruct fw, dt; reflexivity.
Qed.

Lemma core_tracks_settings_write env w f :
  core_tracks (Watcher.settings_write (RelayUserData:=RelayUserData) env w f).
Proof.
  intros s. unfold Watcher.settings_write.
  destruct (write_error env (writes s)); reflexivity.
Qed.

Lemma core_tracks_check env refresh :
  (forall c, refresh = Some c -> core_tracks c) ->
  core_tracks (Watcher.checkAndHandleConfigChange
                 (RelayUserData:=RelayUserData) env getVSCodeConfig
                 compareConfigs maskApiKey refresh).
Proof.
  intros Hrefresh.
  unfold Watcher.checkAndHandleConfigChange, Watcher.promptUserChoice,
    Watcher.applyNewConfig, Watcher.disableWatching, Watcher.log,
    Watcher.updateVSCodeConfig, Watcher.setWatchEnabled.
  repeat lazymatch goal with
         | |- core_tracks (Watcher.stopWatching _) =>
             apply core_tracks_stopWatching
         | |- core_tracks (Watcher.settings_write _ _ _) =>
             apply core_tracks_settings_write
         | |- core_tracks (Watcher.readClaudeSettings _) =>
             intros s; reflexivity
         | |- core_tracks (Watcher.ask _ _ _) =>
             intros s; reflexivity
         | |- core_tracks (match refresh with _ => _ end) =>
             destruct refresh as [c|]; [apply (Hrefresh c eq_refl)|]
         | _ => core_tracks_step
         end.
Qed.

Lemma tracks_ret {A} (a : A) : tracks (Run.ret a : X A).
Proof. intros g. reflexivity. Qed.

Lemma tracks_throw {A} e : tracks (Run.throw e : X A).
Proof. intros g. reflexivity. Qed.

Lemma tracks_get : tracks (Run.get : X Globals).
Proof. intros g. reflexivity. Qed.

Lemma tracks_emit (e : Effect) :
  watcher_delta e = 0 -> tracks (Run.emit e : X unit).
Proof.
  intros He g. cbn [Run.emit].
  exact (watcher_track_neutral e (fileWatcher (core g)) He).
Qed.

Lemma tracks_modify (f : Globals -> Globals) :
  (forall g, fileWatcher (core (f g)) = fileWatcher (core g)) ->
  tracks (Run.modify f : X unit).
Proof. intros Hf g. cbn [Run.modify watcher_track]. rewrite Hf. reflexivity. Qed.

Lemma tracks_bind {A B} (m : X A) (k : A -> X B) :
  tracks m -> (forall a, tracks (k a)) -> tracks (Run.bind m k).
Proof.
  intros Hm Hk g. unfold Run.bind. specialize (Hm g).
  destruct (m g) as [[[a|e] g1] e1]; [|exact Hm].
  specialize (Hk a g1). destruct (k a g1) as [[r g2] e2].
  rewrite watcher_track_app, Hm. exact Hk.
Qed.

Lemma tracks_try_catch {A} (m : X A) (h : Thrown -> X A) :
  tracks m -> (forall e, tracks (h e)) -> tracks (Run.try_catch m h).
Proof.
  intros Hm Hh g. unfold Run.try_catch. specialize (Hm g).
  destruct (m g) as [[[a|e] g1] e1]; [exact Hm|].
  specialize (Hh e g1). destruct (h e g1) as [[r g2] e2].
  rewrite watcher_track_app, Hm. exact Hh.
Qed.

Lemma tracks_lift {A} (m : M A) : core_tracks m -> tracks (lift m).
Proof.
  intros Hm g. unfold lift. specialize (Hm (core g)).
  destruct (m (core g)) as [[r s] evs]. exact Hm.
Qed.

Ltac tracks_step :=
  lazymatch goal with
  | |- tracks (Run.ret _) => apply tracks_ret
  | |- tracks (Run.throw _) => apply tracks_throw
  | |- tracks Run.get => apply tracks_get
  | |- tracks (Run.emit _) => apply tracks_emit; reflexivity
  | |- tracks (Run.modify _) => apply tracks_modify; intros; reflexivity
  | |- tracks (Run.bind _ _) => apply tracks_bind; [|intros]
  | |- tracks (Run.try_catch _ _) => apply tracks_try_catch; [|intros]
  | |- tracks (let _ := _ in _) => cbv zeta
  | |- tracks (if ?b then _ else _) => destruct b
  | |- tracks (match ?x with _ => _ end) => destruct x
  end.

Lemma tracks_check :
  tracks (checkAndHandleConfigChange URL_protocol getVSCodeConfig
            compareConfigs maskApiKey pf).
Proof.
  intros g. unfold checkAndHandleConfigChange.
  apply tracks_lift.
  apply core_tracks_check. intros c Hc.
  destruct (refreshCallback g) as [[]|]; [|discriminate].
  injection Hc as <-. apply core_tracks_updateStats.
Qed.

(** [startWatching] closes the watcher that is open before it opens
    another. *)
Lemma tracks_startWatching cb : tracks (startWatching settingsPath pf cb).
Proof.
  intros g. destruct g as [[st fw dt p q w] rt foc rc iv tm nt fc].
  cbv beta iota zeta delta [startWatching Run.bind Run.modify Run.get
    Run.emit Run.ret Run.try_catch stopWatching lift log log_error
    fs_existsSync fs_watch with_refreshCallback with_core on_core
    set_fileWatcher count_fs Watcher.stopWatching Host.bind Host.get Host.put
    Host.emit Host.ret Watcher.log
    core refreshTimer isWindowFocused refreshCallback refreshIntervalSetting
    timers next_timer fs_calls settings fileWatcher debounceTimer posts
    prompts writes map app negb].
  destruct fw, dt, (file_exists pf fc);
    cbv beta iota zeta delta [negb map app andb
    core refreshTimer isWindowFocused refreshCallback refreshIntervalSetting
    timers next_timer fs_calls settings fileWatcher debounceTimer posts
    prompts writes];
    try reflexivity;
    destruct (watch_error pf (S fc)) as [[m|m st' rq|]|];
    cbv beta iota zeta delta [negb map app andb instanceof_Error
    Run.bind Run.emit Run.ret log_error
    core refreshTimer isWindowFocused refreshCallback refreshIntervalSetting
    timers next_timer fs_calls settings fileWatcher debounceTimer posts
    prompts writes];
    reflexivity.
Qed.

Ltac tracks_tac :=
  repeat lazymatch goal with
         | |- tracks (updateStats _ _) =>
             apply tracks_lift, core_tracks_updateStats
         | |- tracks (stopWatching _) =>
             apply tracks_lift, core_tracks_stopWatching
         | |- tracks (checkAndHandleConfigChange _ _ _ _ _) =>
             apply tracks_check
         | |- tracks (startWatching _ _ _) => apply tracks_startWatching
         | |- tracks (log _ _) => apply tracks_emit; reflexivity
         | |- tracks (log_error _ _) => apply tracks_emit; reflexivity
         | |- tracks (clear_timer _ _) => intros g; reflexivity
         | |- tracks (set_interval _ _) => intros g; reflexivity
         | |- tracks (lift (Watcher.readClaudeSettings _)) =>
             apply tracks_lift; intros s; reflexivity
         | |- tracks (lift (Watcher.updateVSCodeConfig _ _ _)) =>
             apply tracks_lift, core_tracks_settings_write
         | |- tracks (ask_modal _ _ _) => intros g; reflexivity
         | |- tracks (config_update _ _ _ _) =>
             intros g; unfold config_update;
             destruct (write_error (host pf) (writes (core g))); reflexivity
         | _ => tracks_step
         end.

Lemma tracks_dispatch t :
  tracks (dispatch t).
Proof.
  destruct t; cbn [Extension.dispatch].
  - unfold activate, initializeConfigFromClaudeSettings, startRefreshTimer,
      stopRefreshTimer. tracks_tac.
  - unfold deactivate. tracks_tac.
  - unfold refreshTimer_callback. tracks_tac.
  - unfold windowState_listener, startRefreshTimer, stopRefreshTimer.
    tracks_tac.
  - unfold configuration_listener, startRefreshTimer, stopRefreshTimer.
    tracks_tac.
  - apply tracks_modify. intros g. reflexivity.
  - unfold refreshStats_command. tracks_tac.
  - unfold openSettings_command. tracks_tac.
  - unfold openWebDashboard_command. tracks_tac.
  - unfold reloadClaudeConfig_command. tracks_tac.
  - unfold manualReloadConfig_command, handleManualReloadConfig. tracks_tac.
  - unfold watch_listener, handleFileChange. tracks_tac.
  - unfold debounce_callback. tracks_tac.
  - unfold watch_error_listener. tracks_tac.
Qed.

Lemma tracks_session ts : tracks (session ts).
Proof.
  induction ts as [|t ts IH]; cbn [Extension.session]; [apply tracks_ret|].
  apply tracks_bind; [|intros; exact IH].
  apply tracks_try_catch; [apply tracks_dispatch | intros; apply tracks_ret].
Qed.

(** X9. However the session goes, its file watchers are opened and closed
    in turn: followed one effect at a time from the start, every
    [fs.watch] that succeeds finds no watcher open and every [close] finds
    one open, so a watcher is always closed before another is opened and
    none is closed twice. At the end one is open exactly when
    [isWatching()] holds, and the watchers opened outnumber those closed by
    one or by none accordingly. *)
Theorem session_one_file_watcher ts st interval :
  let '(_, g, effs) := session ts (initial st interval) in
  watcher_track false effs = Some (Watcher.isWatching (core g))
  /\ open_watchers effs = Z.b2z (Watcher.isWatching (core g)).
Proof.
  assert (H := keeps_session ts _ _ (accounted_initial st interval)).
  assert (T := tracks_session ts (initial st interval)).
  destruct (session ts (initial st interval)) as [[r g] effs].
  split; [exact T | exact (proj2 H)].
Qed.

(** X10. Deactivation releases everything: whatever happened before, once
    [deactivate] has run no interval timer is running, no file watcher is
    open and no handle is left set. *)
Theorem deactivate_releases ts st interval :
  let '(_, g, effs) := session (ts ++ [Deactivate]) (initial st interval) in
  timers g = [] /\ refreshTimer g = None
  /\ Watcher.isWatching (core g) = false
  /\ debounceTimer (core g) = false
  /\ open_watchers effs = 0.
Proof.
  rewrite session_app.
  assert (H := keeps_session ts _ _ (accounted_initial st interval)).
  destruct (session ts (initial st interval)) as [[r g1] e1].
  cbn [Extension.session]. unfold Run.bind, Run.try_catch, Run.ret.
  cbn [Extension.dispatch].
  assert (Hd := deactivate_run g1 _ H).
  destruct (deactivate RelayUserData g1) as [[rd g2] e2].
  destruct Hd as (-> & H1 & H2 & H3 & H4 & H5).
  rewrite !app_nil_r, open_watchers_app. unfold Watcher.isWatching.
  repeat split; try assumption; lia.
Qed.








Lemma core_events_app (a b : list Effect) :
  core_events (a ++ b) = core_events a ++ core_events b.
Proof. apply flat_map_app. Qed.







End ExtensionFacts.

(* ===================================================================== *)
(** ** The commands that reload the configuration, and activation *)
(* ===================================================================== *)

Section ReloadFacts.

Import Gate Host Trace Extension.
Local Open Scope list_scope.

Variable RelayUserData : Type.
Variable URL_protocol : jsstring -> option jsstring.
Variable getVSCodeConfig : Settings -> option Config.
Variable compareConfigs : Config -> option Config -> bool.
Variable maskApiKey : jsstring -> jsstring.
Variable hasConfig : Settings -> bool.
Variable settingsPath : jsstring.
Variable String_ : Thrown -> jsstring.
Variable pf : Platform RelayUserData.

Local Abbreviation Event := (Host.Event RelayUserData).
Local Abbreviation Effect := (Extension.Effect RelayUserData).

(** A refresh cycle run from the extension. *)
Lemma updateStats_lifted g :
  exists evs k,
    updateStats URL_protocol pf g
    = (Ret tt, with_core (Nat.iter k Poller.count_post (core g)) g,
       map (@Core RelayUserData) evs)
    /\ writes_of evs = []
    /\ open_watchers (map (@Core RelayUserData) evs) = 0.
Proof.
  destruct (updateStats_shape RelayUserData URL_protocol (host pf) (core g))
    as (evs & k & m & Heq & _ & _ & _ & _ & Hw).
  exists evs, k. unfold updateStats, lift. rewrite Heq.
  split; [reflexivity|]. split; [exact Hw|].
  assert (H := core_keeps_updateStats RelayUserData URL_protocol (host pf)
                 (core g)).
  rewrite Heq in H.
  destruct (iter_count_post_frame k (core g)) as (_ & Hws & _).
  unfold watch_state in Hws. injection Hws as _ Hfw _.
  rewrite Hfw in H. lia.
Qed.


Ltac xrun :=
  repeat progress (
  cbv beta iota zeta delta [Run.try_catch Run.bind Run.emit Run.ret Run.get
    Run.modify Run.throw log log_error lift Watcher.readClaudeSettings
    ask_modal config_update with_core with_refreshTimer with_timers
    with_isWindowFocused with_refreshCallback on_core set_fileWatcher
    set_debounceTimer count_fs Watcher.count_prompt Watcher.count_write
    Watcher.set_settings];
  cbn [core refreshTimer isWindowFocused refreshCallback
       refreshIntervalSetting timers next_timer fs_calls
       settings fileWatcher debounceTimer posts prompts writes
       cs_apiKey cs_apiUrl cfg_apiKey cfg_apiUrl]).


(** X16. The reload command applies whatever the file holds. When the
    file is read and the settings store accepts the writes, the command
    returns normally, having written the key if the file has one and then
    the URL if it has one, and left the other setting as it was; only a
    file with neither earns the warning, and then no request is made. A
    file with one of the two is thus half applied, where the watcher and
    the manual reload would have left the settings alone. *)
Theorem reload_command_applies_fields_present g cs :
  claude_settings (host pf) = Ret cs ->
  write_error (host pf) (writes (core g)) = None ->
  write_error (host pf) (S (writes (core g))) = None ->
  let key := Watcher.or_default (cs_apiKey cs) [] in
  let url := Watcher.or_default (cs_apiUrl cs) [] in
  let '(r, g', effs) := reloadClaudeConfig_command URL_protocol String_ pf g in
  r = Ret tt
  /\ config_updates_of effs
     = (if falsy key then [] else [(js "apiKey", key)])
       ++ (if falsy url then [] else [(js "apiUrl", url)])
  /\ apiKey (settings (core g'))
     = (if falsy key then apiKey (settings (core g)) else key)
  /\ apiUrl (settings (core g'))
     = (if falsy url then apiUrl (settings (core g)) else url)
  /\ warnings_of effs
     = (if falsy key && falsy url
        then [js "Claude Settings 文件中未找到有效配置"] else [])
  /\ (if falsy key && falsy url
      then posts_of (core_events effs) = [] else True).
Proof.
  destruct g as [[st fw dt p q w] rt foc rc iv tm nt fc].
  intros Hcs Hw0 Hw1. cbn [core writes] in Hw0, Hw1.
  unfold reloadClaudeConfig_command. xrun. rewrite Hcs.
  destruct cs as [[[|c k]|] [[|c' u]|]];
    cbn [Watcher.absent Watcher.or_default falsy andb cs_apiKey cs_apiUrl];
    repeat progress (xrun; rewrite ?Hw0, ?Hw1);
    try (repeat split; reflexivity);
    match goal with
    | |- context [updateStats URL_protocol pf ?g0] =>
        destruct (updateStats_lifted g0) as (evs & n & Heq & _ & _);
        rewrite Heq
    end;
    xrun;
    match goal with
    | |- context [Nat.iter ?n0 Poller.count_post ?s0] =>
        let Hst := fresh "Hst" in
        destruct (iter_count_post_frame n0 s0) as (Hst & _);
        rewrite Hst
    end;
    cbn [settings apiKey apiUrl];
    (split; [reflexivity|]);
    unfold config_updates_of, warnings_of; rewrite !flat_map_app;
    cbn [flat_map app map];
    repeat split;
    match goal with
    | |- context [flat_map ?f (map ?c ?l0)] =>
        let Hnil := fresh "Hnil" in
        assert (Hnil : flat_map f (map c l0) = [])
          by (clear; induction l0 as [|e l IH]; [reflexivity | exact IH]);
        rewrite Hnil
    end; reflexivity.
Qed.

Lemma intervals_of_app (a b : list Effect) :
  intervals_of (a ++ b) = intervals_of a ++ intervals_of b.
Proof. apply flat_map_app. Qed.

Lemma warnings_of_app (a b : list Effect) :
  warnings_of (a ++ b) = warnings_of a ++ warnings_of b.
Proof. apply flat_map_app. Qed.

Lemma intervals_of_core (evs : list Event) :
  intervals_of (map (@Core RelayUserData) evs) = [].
Proof. induction evs as [|e l IH]; [reflexivity | exact IH]. Qed.

Lemma warnings_of_core (evs : list Event) :
  warnings_of (map (@Core RelayUserData) evs) = [].
Proof. induction evs as [|e l IH]; [reflexivity | exact IH]. Qed.

Lemma startWatching_quiet cb g :
  intervals_of (snd (startWatching settingsPath pf cb g)) = []
  /\ posts_of (core_events (snd (startWatching settingsPath pf cb g))) = [].
Proof.
  destruct g as [[st fw dt p q w] rt foc rc iv tm nt fc].
  cbv beta iota zeta delta [startWatching Run.bind Run.modify Run.get
    Run.emit Run.ret Run.try_catch stopWatching lift log log_error
    fs_existsSync fs_watch with_refreshCallback with_core on_core
    set_fileWatcher count_fs Watcher.stopWatching Host.bind Host.get Host.put
    Host.emit Host.ret Watcher.log
    core refreshTimer isWindowFocused refreshCallback refreshIntervalSetting
    timers next_timer fs_calls settings fileWatcher debounceTimer posts
    prompts writes map app negb].
  destruct fw, dt, (file_exists pf fc);
    cbv beta iota zeta delta [negb map app andb
    core refreshTimer isWindowFocused refreshCallback refreshIntervalSetting
    timers next_timer fs_calls settings fileWatcher debounceTimer posts
    prompts writes];
    try (split; reflexivity);
    destruct (watch_error pf (S fc)) as [[m|m st' rq|]|];
    split; reflexivity.
Qed.

(** X17. Activation with settings already in place never throws and arms
    the refresh timer exactly when the gate accepts them: then one timer
    is set, to the configured interval. When the gate rejects them,
    activation makes no request and arms no timer, and the first warning
    it shows carries the gate's message. In both cases the file watch ends
    up running exactly when the watch setting is on, the file exists and
    [fs.watch] does not throw. *)
Theorem activate_arms_timer_iff_valid st interval :
  hasConfig st = true ->
  let v := validateApiConfig URL_protocol (apiUrl st) (apiId st)
                             (Some (apiKey st)) in
  let '(r, g', effs) :=
    activate URL_protocol hasConfig settingsPath String_ pf
             (initial st interval) in
  r = Ret tt
  /\ timers g' = (if valid v then [0%nat] else [])
  /\ refreshTimer g' = (if valid v then Some 0%nat else None)
  /\ intervals_of effs
     = (if valid v then [getRefreshIntervalMs (initial st interval)] else [])
  /\ (if valid v then True
      else posts_of (core_events effs) = []
           /\ hd_error (warnings_of effs)
              = Some (js "Claude Relay Meter: " ++ Poller.message_or_empty v))
  /\ Watcher.isWatching (core g')
     = watchClaudeSettings st
       && (file_exists pf 0
           && match watch_error pf 1 with
              | None => true
              | Some _ => false
              end).
Proof.
  intros Hcfg v. unfold activate, initializeConfigFromClaudeSettings, initial.
  xrun. rewrite Hcfg. xrun. fold v.
  destruct (valid v) eqn:Hv; cbn [negb]; xrun.
  - match goal with
    | |- context [updateStats URL_protocol pf ?g0] =>
        destruct (updateStats_lifted g0) as (evs & n & Heq & _ & _);
        rewrite Heq
    end.
    xrun.
    cbv beta iota zeta delta [startRefreshTimer stopRefreshTimer clear_timer
      set_interval]. xrun.
    match goal with
    | |- context [Nat.iter ?n0 Poller.count_post ?s0] =>
        destruct (iter_count_post_frame n0 s0) as (Hst & Hws & _)
    end.
    unfold watch_state in Hws. injection Hws as _ Hfw _.
    unfold Watcher.isWatchEnabled. rewrite Hst. cbn [settings].
    destruct (watchClaudeSettings st); xrun.
    + match goal with
      | |- context [startWatching settingsPath pf ?cb ?g0] =>
          assert (Hr := startWatching_run RelayUserData settingsPath pf cb g0);
          assert (Hq := startWatching_quiet cb g0);
          destruct (startWatching settingsPath pf cb g0) as [[r1 g1] e1]
      end.
      cbn [snd] in Hq. destruct Hq as [Hq1 Hq2].
      destruct Hr as (-> & _ & H3 & _ & _ & H6 & H7 & _).
      cbn [fs_calls timers refreshTimer] in H3, H6, H7. xrun.
      unfold Watcher.isWatching.
      rewrite !intervals_of_app, intervals_of_core, Hq1.
      repeat split; assumption.
    + unfold Watcher.isWatching.
      rewrite !intervals_of_app, intervals_of_core.
      repeat split. exact Hfw.
  - unfold Watcher.isWatchEnabled. cbn [settings].
    destruct (watchClaudeSettings st); xrun.
    + match goal with
      | |- context [startWatching settingsPath pf ?cb ?g0] =>
          assert (Hr := startWatching_run RelayUserData settingsPath pf cb g0);
          assert (Hq := startWatching_quiet cb g0);
          destruct (startWatching settingsPath pf cb g0) as [[r1 g1] e1]
      end.
      cbn [snd] in Hq. destruct Hq as [Hq1 Hq2].
      destruct Hr as (-> & _ & H3 & _ & _ & H6 & H7 & _).
      cbn [fs_calls timers refreshTimer] in H3, H6, H7. xrun.
      unfold Watcher.isWatching.
      rewrite !intervals_of_app, !core_events_app, !warnings_of_app, Hq1.
      rewrite !(posts_of_app RelayUserData), Hq2.
      repeat split; assumption.
    + repeat split.
Qed.


End ReloadFacts.


Lemma reload_command_applies_fields_present_witness :
  let g := MoreSamples.watching in
  let cs := Host.mkClaudeSettings (Some Samples.sk_2) None in
  let key := Watcher.or_default (Host.cs_apiKey cs) [] in
  let url := Watcher.or_default (Host.cs_apiUrl cs) [] in
  let '(r, g', effs) :=
    Extension.reloadClaudeConfig_command Whatwg.protocol_of
      MoreSamples.String_ MoreSamples.platform_partial g in
  r = Host.Ret tt
  /\ Extension.config_updates_of effs
     = (if falsy key then [] else [(js "apiKey", key)])
       ++ (if falsy url then [] else [(js "apiUrl", url)])
  /\ Host.apiKey (Host.settings (Extension.core g'))
     = (if falsy key then Host.apiKey (Host.settings (Extension.core g))
        else key)
  /\ Host.apiUrl (Host.settings (Extension.core g'))
     = (if falsy url then Host.apiUrl (Host.settings (Extension.core g))
        else url)
  /\ Extension.warnings_of effs
     = (if falsy key && falsy url
        then [js "Claude Settings 文件中未找到有效配置"] else [])
  /\ (if falsy key && falsy url
      then Trace.posts_of (Extension.core_events effs) = [] else True).
Proof.
  exact (reload_command_applies_fields_present unit Whatwg.protocol_of
           MoreSamples.String_ MoreSamples.platform_partial
           MoreSamples.watching
           (Host.mkClaudeSettings (Some Samples.sk_2) None)
           eq_refl eq_refl eq_refl).
Defined.

Lemma activate_arms_timer_iff_valid_witness :
  let st := MoreSamples.settings_full in
  let interval := Formatter.lit 60 in
  let v := Gate.validateApiConfig Whatwg.protocol_of (Host.apiUrl st)
             (Host.apiId st) (Some (Host.apiKey st)) in
  let '(r, g', effs) :=
    Extension.activate Whatwg.protocol_of MoreSamples.hasConfig
      MoreSamples.settings_path MoreSamples.String_ MoreSamples.platform_up
      (Extension.initial st interval) in
  r = Host.Ret tt
  /\ Extension.timers g' = (if Gate.valid v then [0%nat] else [])
  /\ Extension.refreshTimer g' = (if Gate.valid v then Some 0%nat else None)
  /\ Extension.intervals_of effs
     = (if Gate.valid v
        then [Extension.getRefreshIntervalMs (Extension.initial st interval)]
        else [])
  /\ (if Gate.valid v then True
      else Trace.posts_of (Extension.core_events effs) = []
           /\ hd_error (Extension.warnings_of effs)
              = Some (js "Claude Relay Meter: "
                      ++ Poller.message_or_empty v))
  /\ Watcher.isWatching (Extension.core g')
     = Host.watchClaudeSettings st
       && (Extension.file_exists MoreSamples.platform_up 0
           && match Extension.watch_error MoreSamples.platform_up 1 with
              | None => true
              | Some _ => false
              end).
Proof.
  exact (activate_arms_timer_iff_valid unit Whatwg.protocol_of
           MoreSamples.hasConfig MoreSamples.settings_path MoreSamples.String_
           MoreSamples.platform_up MoreSamples.settings_full
           (Formatter.lit 60) eq_refl).
Defined.



(* ===================================================================== *)
(** ** The version bump of the release script *)
(* ===================================================================== *)

Section ReleaseFacts.

Import Formatter Release.
Local Open Scope list_scope.

Lemma digit_not_dot c : is_digit c = true -> (c =? 46)%N = false.
Proof.
  unfold is_digit. intros H. apply andb_true_iff in H. destruct H as [H1 _].
  apply N.leb_le in H1. apply N.eqb_neq. lia.
Qed.

Lemma split_from_last l :
  forall cur, forallb is_digit l = true ->
  split_from 46 l cur = [rev cur ++ l].
Proof.
  induction l as [|c l IH]; intros cur Hl; cbn [split_from].
  - rewrite app_nil_r. reflexivity.
  - cbn [forallb] in Hl. apply andb_true_iff in Hl. destruct Hl as [Hc Hl].
    rewrite (digit_not_dot c Hc), (IH (c :: cur) Hl).
    cbn [rev]. rewrite <- app_assoc. reflexivity.
Qed.

Lemma split_from_digits l rest :
  forall cur, forallb is_digit l = true ->
  split_from 46 (l ++ 46%N :: rest) cur
  = (rev cur ++ l) :: split_from 46 rest [].
Proof.
  induction l as [|c l IH]; intros cur Hl; cbn [app split_from].
  - rewrite app_nil_r. reflexivity.
  - cbn [forallb] in Hl. apply andb_true_iff in Hl. destruct Hl as [Hc Hl].
    rewrite (digit_not_dot c Hc), (IH (c :: cur) Hl).
    cbn [rev]. rewrite <- app_assoc. reflexivity.
Qed.

Lemma plus_one_whole n :
  (0 <= n < 10 ^ 21 - 1)%Z ->
  toString (plus_one (Some (lit n))) = digits (n + 1).
Proof.
  intros Hn. cbn [plus_one add lit]. unfold fin.
  rewrite (Qred_whole _ (n + 1)).
  - apply toString_whole. lia.
  - rewrite inject_Z_plus. reflexivity.
Qed.

(** X19. The release script bumps a version of three whole numbers as
    semantic versioning has it: 'major' gives [a+1.0.0], 'minor' gives
    [a.b+1.0], and 'patch', like any other word, gives [a.b.c+1]. The
    version written to [package.json] is the one returned; the line
    printed shows that new version on both sides of its arrow, the old
    one having been overwritten before. The three numbers are taken below
    [2^53 - 1], where JavaScript's arithmetic on whole numbers is exact. *)
Theorem updateVersion_bumps type a b c :
  (0 <= a < 9007199254740991)%Z ->
  (0 <= b < 9007199254740991)%Z ->
  (0 <= c < 9007199254740991)%Z ->
  let version := digits a ++ js "." ++ digits b ++ js "." ++ digits c in
  let bump := updateVersion type version in
  returned bump
  = (if eqb type (js "major") then digits (a + 1) ++ js ".0.0"
     else if eqb type (js "minor")
          then digits a ++ js "." ++ digits (b + 1) ++ js ".0"
          else digits a ++ js "." ++ digits b ++ js "." ++ digits (c + 1))
  /\ written bump = returned bump
  /\ printed bump
     = js "✅ 版本号已更新: " ++ returned bump ++ js " -> " ++ returned bump.
Proof.
  intros Ha Hb Hc version bump.
  split; [|split; reflexivity].
  subst bump version. unfold updateVersion. cbn [returned].
  assert (Hsplit : split (digits a ++ js "." ++ digits b ++ js "." ++ digits c)
                         46
                   = [digits a; digits b; digits c]).
  { change (js ".") with [46%N]. cbn [app]. unfold split.
    rewrite split_from_digits by (apply digits_are_digits; lia).
    rewrite split_from_digits by (apply digits_are_digits; lia).
    rewrite split_from_last by (apply digits_are_digits; lia).
    reflexivity. }
  rewrite Hsplit. cbn [map nth_error].
  rewrite !Number_digits by lia.
  rewrite !plus_one_whole by lia.
  cbn [template]. rewrite !toString_whole by lia.
  reflexivity.
Qed.

End ReleaseFacts.

Lemma updateVersion_bumps_witness :
  let version :=
    Formatter.digits 1 ++ js "." ++ Formatter.digits 4 ++ js "."
    ++ Formatter.digits 2 in
  let bump := Release.updateVersion (js "minor") version in
  Release.returned bump
  = (if eqb (js "minor") (js "major")
     then Formatter.digits (1 + 1) ++ js ".0.0"
     else if eqb (js "minor") (js "minor")
          then Formatter.digits 1 ++ js "." ++ Formatter.digits (4 + 1)
               ++ js ".0"
          else Formatter.digits 1 ++ js "." ++ Formatter.digits 4 ++ js "."
               ++ Formatter.digits (2 + 1))
  /\ Release.written bump = Release.returned bump
  /\ Release.printed bump
     = js "✅ 版本号已更新: " ++ Release.returned bump ++ js " -> "
       ++ Release.returned bump.
Proof.
  apply (updateVersion_bumps (js "minor") 1 4 2); lia.
Defined.

(* ===================================================================== *)
(** ** Durations, large numbers and the cost statistics *)
(* ===================================================================== *)

Section DurationFacts.

Import Formatter FormatterMore.
Local Open Scope list_scope.

Lemma lit_nonzero b : (b <> 0)%Z -> Qeq_bool (inject_Z b) 0 = false.
Proof.
  intros Hb. destruct (Qeq_bool (inject_Z b) 0) eqn:E; [|reflexivity].
  apply Qeq_bool_eq in E. apply (inject_Z_injective b 0) in E. contradiction.
Qed.

Lemma div_lit a b :
  (0 < b)%Z -> div (lit a) (lit b) = fin (inject_Z a / inject_Z b).
Proof.
  intros Hb. unfold div, lit. rewrite lit_nonzero by lia. reflexivity.
Qed.

Lemma floor_div_lit a b :
  (0 < b)%Z -> Math_floor (div (lit a) (lit b)) = lit (a / b).
Proof.
  intros Hb. rewrite div_lit by exact Hb. unfold fin, Math_floor, lit.
  rewrite (Qfloor_comp _ _ (Qred_correct _)), <- Zdiv_Qdiv. reflexivity.
Qed.

Lemma truncate_div a b :
  (0 <= a)%Z -> (0 < b)%Z ->
  truncate (inject_Z a / inject_Z b) = (a / b)%Z.
Proof.
  intros Ha Hb. unfold truncate.
  assert (H : Qle_bool 0 (inject_Z a / inject_Z b) = true).
  { apply Qle_bool_iff. apply Qle_shift_div_l.
    - change 0%Q with (inject_Z 0). rewrite <- Zlt_Qlt. exact Hb.
    - rewrite Qmult_0_l. change 0%Q with (inject_Z 0).
      rewrite <- Zle_Qle. exact Ha. }
  rewrite H. symmetry. apply Zdiv_Qdiv.
Qed.

Lemma rem_lit a b :
  (0 <= a)%Z -> (0 < b)%Z -> rem (lit a) (lit b) = lit (a mod b).
Proof.
  intros Ha Hb. unfold rem, lit. rewrite lit_nonzero by lia.
  rewrite truncate_div by assumption. unfold fin.
  rewrite (Qred_whole _ (a mod b)); [reflexivity|].
  rewrite Z.mod_eq by lia.
  unfold Zminus. rewrite inject_Z_plus, inject_Z_opp, inject_Z_mult.
  ring.
Qed.

Lemma floor_lit a : Math_floor (lit a) = lit a.
Proof. unfold Math_floor, lit. rewrite Qfloor_Z. reflexivity. Qed.

Lemma lt_lit a b : lt (lit a) (lit b) = (a <? b)%Z.
Proof.
  unfold lt, lit, leb.
  destruct (Qle_bool (inject_Z b) (inject_Z a)) eqn:E.
  - apply Qle_bool_iff in E. rewrite <- Zle_Qle in E.
    symmetry. apply Z.ltb_ge. exact E.
  - symmetry. apply Z.ltb_lt. apply Z.nle_gt. intros H.
    rewrite Zle_Qle in H. apply Qle_bool_iff in H. congruence.
Qed.

Lemma le_lit a b : le (lit a) (lit b) = (a <=? b)%Z.
Proof.
  unfold le, lit, leb.
  destruct (Qle_bool (inject_Z a) (inject_Z b)) eqn:E.
  - apply Qle_bool_iff in E. rewrite <- Zle_Qle in E.
    symmetry. apply Z.leb_le. exact E.
  - symmetry. apply Z.leb_gt. apply Z.nle_gt. intros H.
    rewrite Zle_Qle in H. apply Qle_bool_iff in H. congruence.
Qed.

Lemma push_if_positive_lit n unit parts :
  (0 <= n < 10 ^ 21)%Z ->
  push_if_positive (lit n) unit parts
  = if (0 <? n)%Z then parts ++ [digits n ++ unit] else parts.
Proof.
  intros Hn. unfold push_if_positive.
  rewrite lt_lit, toString_whole by exact Hn. reflexivity.
Qed.

(** The four fields of a whole, positive number of seconds. *)
Lemma duration_fields s :
  (0 < s)%Z ->
  days_of (lit s) = lit (s / 86400)
  /\ hours_of (lit s) = lit (s mod 86400 / 3600)
  /\ minutes_of (lit s) = lit (s mod 3600 / 60)
  /\ secs_of (lit s) = lit (s mod 60).
Proof.
  intros Hs. unfold days_of, hours_of, minutes_of, secs_of.
  rewrite !rem_lit by lia. rewrite !floor_div_lit by lia.
  rewrite floor_lit. repeat split; reflexivity.
Qed.

(** X20. For a whole number of seconds [s] from 1 up to [2^53 - 1],
    [formatRemainingTime] prints the days, hours, minutes and seconds of
    [s], each as a decimal number followed by its unit, in that order and
    with nothing between them, leaving out every field that is zero. The
    fields add up to [s] again, the hours stay below 24 and the minutes and
    seconds below 60, and the text is never empty. *)
Theorem formatRemainingTime_fields s :
  (0 < s <= 9007199254740991)%Z ->
  let d := (s / 86400)%Z in
  let h := (s mod 86400 / 3600)%Z in
  let m := (s mod 3600 / 60)%Z in
  let c := (s mod 60)%Z in
  formatRemainingTime (lit s)
  = (if (0 <? d)%Z then digits d ++ js "天" else [])
    ++ (if (0 <? h)%Z then digits h ++ js "小时" else [])
    ++ (if (0 <? m)%Z then digits m ++ js "分" else [])
    ++ (if (0 <? c)%Z then digits c ++ js "秒" else [])
  /\ (d * 86400 + h * 3600 + m * 60 + c = s)%Z
  /\ (0 <= h < 24)%Z /\ (0 <= m < 60)%Z /\ (0 <= c < 60)%Z
  /\ formatRemainingTime (lit s) <> [].
Proof.
  intros Hs d h m c.
  assert (Hd : (0 <= d < 10 ^ 21)%Z).
  { subst d. split; [apply Z.div_pos; lia|].
    apply Z.div_lt_upper_bound; lia. }
  assert (Hh : (0 <= h < 24)%Z).
  { subst h. pose proof (Z.mod_pos_bound s 86400 ltac:(lia)).
    split; [apply Z.div_pos; lia|]. apply Z.div_lt_upper_bound; lia. }
  assert (Hm : (0 <= m < 60)%Z).
  { subst m. pose proof (Z.mod_pos_bound s 3600 ltac:(lia)).
    split; [apply Z.div_pos; lia|]. apply Z.div_lt_upper_bound; lia. }
  assert (Hc : (0 <= c < 60)%Z).
  { subst c. apply Z.mod_pos_bound. lia. }
  assert (Hsum : (d * 86400 + h * 3600 + m * 60 + c = s)%Z).
  { subst d h m c.
    pose proof (Z.div_mod s 86400 ltac:(lia)) as E1.
    pose proof (Z.div_mod (s mod 86400) 3600 ltac:(lia)) as E2.
    pose proof (Z.div_mod (s mod 3600) 60 ltac:(lia)) as E3.
    assert (E4 : ((s mod 86400) mod 3600 = s mod 3600)%Z).
    { rewrite (Z.mod_eq s 86400) by lia.
      replace (s - 86400 * (s / 86400))%Z
        with (s + (- (s / 86400) * 24) * 3600)%Z by lia.
      apply Z.mod_add. lia. }
    assert (E5 : ((s mod 3600) mod 60 = s mod 60)%Z).
    { rewrite (Z.mod_eq s 3600) by lia.
      replace (s - 3600 * (s / 3600))%Z
        with (s + (- (s / 3600) * 60) * 60)%Z by lia.
      apply Z.mod_add. lia. }
    lia. }
  assert (Hfmt :
    formatRemainingTime (lit s)
    = (if (0 <? d)%Z then digits d ++ js "天" else [])
      ++ (if (0 <? h)%Z then digits h ++ js "小时" else [])
      ++ (if (0 <? m)%Z then digits m ++ js "分" else [])
      ++ (if (0 <? c)%Z then digits c ++ js "秒" else [])).
  { unfold formatRemainingTime.
    rewrite le_lit.
    replace (s <=? 0)%Z with false by (symmetry; apply Z.leb_gt; lia).
    destruct (duration_fields s ltac:(lia)) as (E1 & E2 & E3 & E4).
    rewrite E1, E2, E3, E4. fold d h m c. cbv zeta.
    rewrite !push_if_positive_lit by lia.
    rewrite lt_lit, toString_whole by lia.
    destruct (0 <? d)%Z eqn:Bd, (0 <? h)%Z eqn:Bh, (0 <? m)%Z eqn:Bm,
             (0 <? c)%Z eqn:Bc;
      cbn [app List.length Nat.eqb orb List.concat];
      rewrite ?app_nil_r, <- ?app_assoc; try reflexivity.
    apply Z.ltb_ge in Bd, Bh, Bm, Bc. lia. }
  split; [exact Hfmt|].
  split; [exact Hsum|].
  split; [exact Hh|]. split; [exact Hm|]. split; [exact Hc|].
  rewrite Hfmt. intros Hnil.
  assert (Hne : forall n u, (0 < n)%Z -> digits n ++ u <> []).
  { intros n u Hn E. apply app_eq_nil in E. destruct E as [E _].
    exact (digits_nonempty n ltac:(lia) E). }
  destruct (0 <? d)%Z eqn:Bd.
  { apply app_eq_nil in Hnil. destruct Hnil as [E _].
    apply Z.ltb_lt in Bd. exact (Hne _ _ Bd E). }
  destruct (0 <? h)%Z eqn:Bh.
  { cbn [app] in Hnil. apply app_eq_nil in Hnil. destruct Hnil as [E _].
    apply Z.ltb_lt in Bh. exact (Hne _ _ Bh E). }
  destruct (0 <? m)%Z eqn:Bm.
  { cbn [app] in Hnil. apply app_eq_nil in Hnil. destruct Hnil as [E _].
    apply Z.ltb_lt in Bm. exact (Hne _ _ Bm E). }
  destruct (0 <? c)%Z eqn:Bc.
  { cbn [app] in Hnil. apply Z.ltb_lt in Bc. exact (Hne _ _ Bc Hnil). }
  apply Z.ltb_ge in Bd, Bh, Bm, Bc. lia.
Qed.

End DurationFacts.

Lemma formatRemainingTime_fields_witness :
  let d := (90061 / 86400)%Z in
  let h := (90061 mod 86400 / 3600)%Z in
  let m := (90061 mod 3600 / 60)%Z in
  let c := (90061 mod 60)%Z in
  FormatterMore.formatRemainingTime (Formatter.lit 90061)
  = (if (0 <? d)%Z then Formatter.digits d ++ js "天" else [])
    ++ (if (0 <? h)%Z then Formatter.digits h ++ js "小时" else [])
    ++ (if (0 <? m)%Z then Formatter.digits m ++ js "分" else [])
    ++ (if (0 <? c)%Z then Formatter.digits c ++ js "秒" else [])
  /\ (d * 86400 + h * 3600 + m * 60 + c = 90061)%Z
  /\ (0 <= h < 24)%Z /\ (0 <= m < 60)%Z /\ (0 <= c < 60)%Z
  /\ FormatterMore.formatRemainingTime (Formatter.lit 90061) <> [].
Proof.
  apply (formatRemainingTime_fields 90061). lia.
Defined.

Section ScaleFacts.

Import Formatter FormatterMore StatusBar.
Local Open Scope Q_scope.
Local Open Scope list_scope.

Lemma pos_lit P : (0 < P)%Z -> 0 < inject_Z P.
Proof. intros H. change 0 with (inject_Z 0). rewrite <- Zlt_Qlt. exact H. Qed.

(** Rounding to a whole number of [1/P] keeps a value above a whole
    lower bound and below any whole upper bound. *)
Lemma rounded_between v P lo :
  (0 < P)%Z ->
  inject_Z lo <= v ->
  exists r,
    div (Math_round (mul (Fin v) (lit P))) (lit P) = Fin r
    /\ inject_Z lo <= r
    /\ (forall hi, v <= inject_Z hi -> r <= inject_Z hi).
Proof.
  intros HP Hlo.
  set (K := Qfloor (Qred (v * inject_Z P) + (1 # 2))).
  exists (Qred (inject_Z K / inject_Z P)).
  split.
  { unfold mul, lit, fin, Math_round. fold K. unfold div.
    rewrite lit_nonzero by lia. reflexivity. }
  assert (HK1 : (lo * P <= K)%Z).
  { rewrite <- (Qfloor_Z (lo * P)). apply Qfloor_resp_le.
    rewrite Qred_correct, inject_Z_mult.
    apply Qle_trans with (v * inject_Z P).
    - apply Qmult_le_compat_r; [exact Hlo|]. apply Qlt_le_weak, pos_lit, HP.
    - rewrite <- (Qplus_0_r (v * inject_Z P)) at 1.
      apply Qplus_le_r. discriminate. }
  split.
  - rewrite Qred_correct. apply Qle_shift_div_l; [apply pos_lit, HP|].
    rewrite <- inject_Z_mult, <- Zle_Qle. exact HK1.
  - intros hi Hhi. rewrite Qred_correct.
    assert (HK2 : (K <= hi * P)%Z).
    { apply Z.lt_succ_r. rewrite Zlt_Qlt.
      apply Qle_lt_trans with (Qred (v * inject_Z P) + (1 # 2)).
      - apply Qfloor_le.
      - unfold Z.succ. rewrite inject_Z_plus, inject_Z_mult, Qred_correct.
        rewrite (Qplus_comm _ (1 # 2)), (Qplus_comm _ (inject_Z 1)).
        apply Qplus_lt_le_compat; [reflexivity|].
        apply Qmult_le_compat_r; [exact Hhi|].
        apply Qlt_le_weak, pos_lit, HP. }
    apply Qle_shift_div_r; [apply pos_lit, HP|].
    rewrite <- inject_Z_mult, <- Zle_Qle. exact HK2.
Qed.

Lemma rounded_for_between v lo :
  inject_Z lo <= v ->
  exists r,
    rounded_for (Fin v) = Fin r /\ inject_Z lo <= r
    /\ (forall hi, v <= inject_Z hi -> r <= inject_Z hi).
Proof.
  intros Hlo. unfold rounded_for, Math_pow10.
  apply rounded_between; [|exact Hlo].
  apply Z.pow_pos_nonneg; lia.
Qed.

(** A number that reaches a unit, divided by it, is at least 1; below a
    thousand units it stays below 1000. *)
Lemma scaled_value q T :
  (0 < T)%Z -> inject_Z T <= q ->
  exists v,
    div (Fin q) (lit T) = Fin v /\ inject_Z 1 <= v
    /\ (q <= inject_Z (1000 * T) -> v <= inject_Z 1000).
Proof.
  intros HT Hq. exists (Qred (q / inject_Z T)).
  split; [unfold div, lit, fin; rewrite lit_nonzero by lia; reflexivity|].
  rewrite Qred_correct. split.
  - apply Qle_shift_div_l; [apply pos_lit, HT|].
    rewrite Qmult_1_l. exact Hq.
  - intros Hup. apply Qle_shift_div_r; [apply pos_lit, HT|].
    rewrite <- inject_Z_mult. exact Hup.
Qed.

Lemma le_Fin a b : le (Fin a) (Fin b) = Qle_bool a b.
Proof. reflexivity. Qed.

Lemma lt_Fin a b : lt (Fin a) (Fin b) = negb (Qle_bool b a).
Proof. reflexivity. Qed.

Lemma Qle_bool_false a b : Qle_bool a b = false -> b < a.
Proof.
  intros H. apply Qnot_le_lt. intros Hle.
  apply Qle_bool_iff in Hle. congruence.
Qed.

(** X21. A number of at least 1000 is shown as a mantissa followed by the
    suffix of the largest unit it reaches: [B] from a billion, [M] from a
    million, [K] otherwise. The mantissa, before it is printed, is never
    below 1; below a billion it is at most 1000, a bound it can reach, since
    rounding may carry a number just under the next unit up to a full
    thousand of the unit below. *)
Theorem formatLargeNumber_mantissa q :
  1000 <= q ->
  let '(threshold, suffix) :=
    if le (lit 1000000000) (Fin q) then (lit 1000000000, js "B")
    else if le (lit 1000000) (Fin q) then (lit 1000000, js "M")
    else (lit 1000, js "K") in
  let value := div (Fin q) threshold in
  exists r,
    rounded_for value = Fin r
    /\ formatLargeNumber (Fin q)
       = toString (Number_ (toFixed (Fin r) (decimals_for value))) ++ suffix
    /\ 1 <= r
    /\ (lt (Fin q) (lit 1000000000) = true -> r <= 1000).
Proof.
  intros Hq.
  assert (Hsmall : lt (Fin q) (lit 1000) = false).
  { unfold lit. rewrite lt_Fin.
    replace (Qle_bool (inject_Z 1000) q) with true; [reflexivity|].
    symmetry. apply Qle_bool_iff. exact Hq. }
  unfold formatLargeNumber. rewrite Hsmall. unfold units. cbn [scale].
  destruct (le (lit 1000000000) (Fin q)) eqn:EB.
  - pose proof EB as EB'. unfold lit in EB'. rewrite le_Fin in EB'.
    apply Qle_bool_iff in EB'.
    destruct (scaled_value q 1000000000 ltac:(lia) EB') as (v & Ev & Hv1 & _).
    cbv zeta. rewrite Ev.
    destruct (rounded_for_between v 1 Hv1) as (r & Er & Hr1 & _).
    exists r. split; [exact Er|]. rewrite Er.
    split; [reflexivity|]. split; [exact Hr1|].
    intros Hlt. unfold lit in Hlt, EB. rewrite lt_Fin in Hlt.
    rewrite le_Fin in EB. rewrite EB in Hlt. discriminate.
  - pose proof EB as EB'. unfold lit in EB'. rewrite le_Fin in EB'.
    apply Qle_bool_false in EB'.
    destruct (le (lit 1000000) (Fin q)) eqn:EM.
    + unfold lit in EM. rewrite le_Fin in EM. apply Qle_bool_iff in EM.
      destruct (scaled_value q 1000000 ltac:(lia) EM) as (v & Ev & Hv1 & Hv2).
      cbv zeta. rewrite Ev.
      destruct (rounded_for_between v 1 Hv1) as (r & Er & Hr1 & Hr2).
      exists r. split; [exact Er|]. rewrite Er.
      split; [reflexivity|]. split; [exact Hr1|].
      intros _. apply (Hr2 1000%Z), Hv2. apply Qlt_le_weak. exact EB'.
    + unfold lit in EM. rewrite le_Fin in EM. apply Qle_bool_false in EM.
      destruct (scaled_value q 1000 ltac:(lia) Hq) as (v & Ev & Hv1 & Hv2).
      assert (HK : le (lit 1000) (Fin q) = true).
      { unfold lit. rewrite le_Fin. apply Qle_bool_iff. exact Hq. }
      rewrite HK. cbv zeta. rewrite Ev.
      destruct (rounded_for_between v 1 Hv1) as (r & Er & Hr1 & Hr2).
      exists r. split; [exact Er|]. rewrite Er.
      split; [reflexivity|]. split; [exact Hr1|].
      intros _. apply (Hr2 1000%Z), Hv2. apply Qlt_le_weak. exact EM.
Qed.

(** The bound of 1000 is reached just under a million. *)
Example formatLargeNumber_carry :
  formatLargeNumber (lit 999999) = js "1000K".
Proof. vm_compute. reflexivity. Qed.

Lemma percent_of_zero :
  Math_max (lit 0) (Math_min (lit 100) (lit 0)) = lit 0.
Proof. reflexivity. Qed.

Lemma percent_of_full p :
  100 <= p -> Math_max (lit 0) (Math_min (lit 100) (Fin p)) = lit 100.
Proof.
  intros Hp. unfold Math_min, Math_max, lit, leb.
  replace (Qle_bool (inject_Z 100) p) with true
    by (symmetry; apply Qle_bool_iff; exact Hp).
  reflexivity.
Qed.

Lemma percent_quotient u l :
  Qeq_bool l 0 = false ->
  mul (div (Fin u) (Fin l)) (lit 100)
  = Fin (Qred (Qred (u / l) * inject_Z 100)).
Proof. intros H. unfold div. rewrite H. reflexivity. Qed.

Lemma render_full : render_percentage (lit 100) = js "100".
Proof. vm_compute. reflexivity. Qed.

Lemma render_zero : render_percentage (lit 0) = js "0".
Proof. vm_compute. reflexivity. Qed.

(** X22. For finite amounts the percentage of [calculateCostStats] lies
    between 0 and 100, and is 0 whenever the limit is not positive. With a
    limit of zero or more the text in [formattedPercentage] is that
    percentage, rounded to two decimals. With a negative limit the two part:
    the percentage is 0, while the text is computed from the quotient all
    the same and reads 100 as soon as the amount used is at most the
    limit. *)
Theorem calculateCostStats_percentage u l :
  let stats := calculateCostStats (Fin u) (Fin l) in
  exists p,
    percentage stats = Fin p
    /\ 0 <= p <= 100
    /\ (l <= 0 -> p == 0)
    /\ (0 <= l ->
        formattedPercentage stats = render_percentage (percentage stats))
    /\ (l < 0 -> u <= l -> formattedPercentage stats = js "100").
Proof.
  cbv zeta. unfold calculateCostStats. cbn [percentage formattedPercentage].
  assert (Hlt : lt (lit 0) (Fin l) = negb (Qle_bool l (inject_Z 0)))
    by reflexivity.
  rewrite Hlt. clear Hlt.
  destruct (Qle_bool l (inject_Z 0)) eqn:El; cbn [negb].
  - apply Qle_bool_iff in El. rewrite percent_of_zero.
    exists (inject_Z 0). split; [reflexivity|].
    split; [split; discriminate|]. split; [reflexivity|]. split.
    + intros H0. assert (Hl : l == 0) by (apply Qle_antisym; assumption).
      unfold formatPercentage, is_zero.
      rewrite (Qeq_eq_bool _ _ Hl). symmetry. exact render_zero.
    + intros Hneg Hul. unfold formatPercentage, is_zero.
      assert (Hnz : Qeq_bool l 0 = false).
      { destruct (Qeq_bool l 0) eqn:E; [|reflexivity].
        apply Qeq_bool_eq in E. rewrite E in Hneg.
        exfalso. exact (Qlt_irrefl 0 Hneg). }
      rewrite Hnz. cbv zeta. rewrite (percent_quotient u l Hnz).
      rewrite percent_of_full; [exact render_full|].
      rewrite !Qred_correct.
      change 100 with (1 * inject_Z 100) at 1.
      apply Qmult_le_compat_r; [|discriminate].
      assert (Hinv : 0 < - l).
      { apply (Qplus_lt_l _ _ l). ring_simplify. exact Hneg. }
      setoid_replace (u / l) with ((- u) / (- l))
        by (field; intros E; rewrite E in Hneg; exact (Qlt_irrefl 0 Hneg)).
      apply Qle_shift_div_l; [exact Hinv|].
      rewrite Qmult_1_l. apply Qopp_le_compat. exact Hul.
  - apply Qle_bool_false in El.
    assert (Hnz : Qeq_bool l 0 = false).
    { destruct (Qeq_bool l 0) eqn:E; [|reflexivity].
      apply Qeq_bool_eq in E. rewrite E in El.
      exfalso. exact (Qlt_irrefl 0 El). }
    rewrite (percent_quotient u l Hnz).
    destruct (clamp_range (Qred (Qred (u / l) * inject_Z 100)))
      as (c & Ec & Hc).
    exists c. rewrite Ec. split; [reflexivity|]. split; [exact Hc|].
    split; [|split].
    + intros Hle. exfalso.
      exact (Qlt_irrefl _ (Qlt_le_trans _ _ _ El Hle)).
    + intros _. unfold formatPercentage, is_zero. rewrite Hnz. cbv zeta.
      rewrite (percent_quotient u l Hnz), Ec. reflexivity.
    + intros Hneg. exfalso.
      exact (Qlt_irrefl _ (Qlt_trans _ _ _ El Hneg)).
Qed.

End ScaleFacts.

Lemma formatLargeNumber_mantissa_witness :
  let '(threshold, suffix) :=
    if FormatterMore.le (Formatter.lit 1000000000) (Formatter.Fin 999999)
    then (Formatter.lit 1000000000, js "B")
    else if FormatterMore.le (Formatter.lit 1000000) (Formatter.Fin 999999)
         then (Formatter.lit 1000000, js "M")
         else (Formatter.lit 1000, js "K") in
  let value := Formatter.div (Formatter.Fin 999999) threshold in
  exists r,
    FormatterMore.rounded_for value = Formatter.Fin r
    /\ FormatterMore.formatLargeNumber (Formatter.Fin 999999)
       = Formatter.toString
           (Formatter.Number_
              (Formatter.toFixed (Formatter.Fin r)
                 (FormatterMore.decimals_for value))) ++ suffix
    /\ (1 <= r)%Q
    /\ (FormatterMore.lt (Formatter.Fin 999999) (Formatter.lit 1000000000)
        = true -> (r <= 1000)%Q).
Proof.
  apply (formatLargeNumber_mantissa 999999). discriminate.
Defined.
